(** * Retrieval-augmented diffusion pipeline ([pipeline_rdm.py])

    A shallow embedding of [RDMPipeline.__call__] and of the torch
    operations it performs on tensors, followed by the properties the
    specification states about it.

    - Python floats ([guidance_scale], [eta], the codec's
      [scaling_factor]) are IEEE binary64 numbers: the kernel's [float].
    - Tensor elements live in a scalar type [F] given by the class
      [Scalar]; the neural networks, the scheduler, the tokenizer and the
      random source are fields of records, as they are attributes of the
      pipeline object.
    - A tensor is its shape and its elements in row-major order.
    - Exceptions are a sum type; the calls the pipeline makes to its
      collaborators are recorded in a trace, and the scheduler's mutable
      state is threaded through a state-and-error monad. *)

From Stdlib Require Import ZArith QArith Qabs List Bool Lia Floats.
From stdpp Require Import base option list sorting gmap strings.
Import ListNotations.

Set Implicit Arguments.
Local Open Scope Z_scope.

(** ** Scalars *)

(** Element type of torch tensors with the arithmetic the pipeline uses.
    [of_float] is the cast of a Python number to the tensor's dtype,
    [vector_norm] is [torch.linalg.norm] of one row. *)
Class Scalar (F : Type) := {
  of_float : float -> F;
  fadd : F -> F -> F;
  fsub : F -> F -> F;
  fmul : F -> F -> F;
  fdiv : F -> F -> F;
  flt : F -> F -> bool;
  fle : F -> F -> bool;
  vector_norm : list F -> F
}.

(** The comparisons of a floating-point type. A value compares with
    itself unless it is NaN; a comparison that holds has no NaN operand;
    two values that are not NaN are comparable. IEEE 754 comparisons obey
    these laws. *)
Class FloatOrder (F : Type) `{Scalar F} := {
  fle_ordered : forall x y : F, fle x y = true -> fle x x = true /\ fle y y = true;
  flt_ordered : forall x y : F, flt x y = true -> fle x x = true /\ fle y y = true;
  fle_of_not_flt : forall x y : F,
    flt x y = false -> fle x x = true -> fle y y = true -> fle y x = true;
  fle_zero_one : fle (of_float 0%float) (of_float 1%float) = true
}.
Arguments FloatOrder F {_}.

(** ** Exceptions *)

Inductive value_error :=
| BadPromptType              (* `prompt` has to be of type `str` or `list` *)
| NotDivisibleBy8 (height width : Z)
| BadCallbackSteps
| UnexpectedLatentsShape (got : list nat) (expected : list Z)
| UnpackArity.               (* tuple unpacking of the wrong length *)

Inductive exn :=
| ValueError (e : value_error)
| IndexError (what : string)
| RuntimeError (what : string)
| TypeError (what : string)
| ZeroDivisionError.

Inductive result (A : Type) :=
| Ok (a : A)
| Err (e : exn).
Arguments Ok {A} a.
Arguments Err {A} e.

Definition is_ok {A} (r : result A) : bool :=
  match r with Ok _ => true | Err _ => false end.

#[export] Instance result_ret : MRet result := fun A a => Ok a.
#[export] Instance result_bind : MBind result := fun A B k r =>
  match r with
  | Ok a => k a
  | Err e => Err e
  end.

(** ** Tensors *)

Record tensor (A : Type) := Tensor { shape : list nat; data : list A }.
Arguments Tensor {A} shape data.

Definition numel (s : list nat) : nat := foldr Nat.mul 1%nat s.

Definition tmap {A B} (f : A -> B) (x : tensor A) : tensor B :=
  Tensor (shape x) (map f (data x)).

(** The first [n] consecutive pieces of [k] elements of [l]. *)
Fixpoint rows {A} (n k : nat) (l : list A) : list (list A) :=
  match n with
  | O => []
  | S n' => take k l :: rows n' k (drop k l)
  end.

(** [l] repeated [r] times. *)
Definition tile {A} (r : nat) (l : list A) : list A := concat (replicate r l).

(** Columns of a list of rows: the [j]-th result collects the [j]-th
    element of every row that has one. *)
Fixpoint transpose {A} (k : nat) (rows : list (list A)) : list (list A) :=
  match k with
  | O => []
  | S k' => concat (map (take 1) rows) :: transpose k' (map (drop 1) rows)
  end.

Section TensorOps.
Context {F : Type} `{Scalar F}.

(** [x / torch.linalg.norm(x, dim=-1, keepdim=True)] on one row. *)
Definition normalize_row (v : list F) : list F :=
  map (fun a => fdiv a (vector_norm v)) v.

(** [x / torch.linalg.norm(x, dim=-1, keepdim=True)]. *)
Definition l2_normalize (x : tensor F) : result (tensor F) :=
  match reverse (shape x) with
  | [] => Err (IndexError "norm over dim -1 of a 0-d tensor")
  | d :: outer =>
      Ok (Tensor (shape x) (concat (map normalize_row (rows (numel outer) d (data x)))))
  end.

(** [torch.zeros_like(x)]. *)
Definition zeros_like (x : tensor F) : tensor F :=
  tmap (fun _ => of_float 0%float) x.

(** Elementwise binary operation; operands of unequal shape are
    rejected (broadcasting between different shapes is not modelled). *)
Definition zip_tensor (f : F -> F -> F) (x y : tensor F) : result (tensor F) :=
  if decide (shape x = shape y)
  then Ok (Tensor (shape x) (zip_with f (data x) (data y)))
  else Err (RuntimeError "size mismatch in elementwise operation").

(** [x.clamp(lo, hi)] on one element. *)
Definition clamp (lo hi x : F) : F :=
  if flt x lo then lo else if flt hi x then hi else x.
End TensorOps.

Section ShapeOps.
Context {A : Type}.

(** [x[:, None, ...]]: a new axis of size 1 at position 1. *)
Definition unsqueeze1 (x : tensor A) : result (tensor A) :=
  match shape x with
  | d0 :: d1 :: rest => Ok (Tensor (d0 :: 1%nat :: d1 :: rest) (data x))
  | _ => Err (IndexError "too many indices for tensor")
  end.

(** [x[None, ...]]: a new leading axis of size 1. *)
Definition unsqueeze0 (x : tensor A) : tensor A :=
  Tensor (1%nat :: shape x) (data x).

(** [x.repeat(r0, r1, r2)]; a tensor of rank below 3 gets leading axes
    of size 1 first, a negative count or a rank above 3 is an error. *)
Definition repeat3 (r0 r1 r2 : Z) (x : tensor A) : result (tensor A) :=
  if decide (r0 < 0 \/ r1 < 0 \/ r2 < 0)
  then Err (RuntimeError "negative repeat")
  else
    let go (d0 d1 d2 : nat) :=
      let n0 := Z.to_nat r0 in
      let n1 := Z.to_nat r1 in
      let n2 := Z.to_nat r2 in
      let mat (m : list A) := concat (map (tile n2) (rows d1 d2 m)) in
      let mats := map (fun m => tile n1 (mat m)) (rows d0 (d1 * d2) (data x)) in
      Ok (Tensor [(n0 * d0)%nat; (n1 * d1)%nat; (n2 * d2)%nat] (tile n0 (concat mats))) in
    match shape x with
    | [] => go 1%nat 1%nat 1%nat
    | [d2] => go 1%nat 1%nat d2
    | [d1; d2] => go 1%nat d1 d2
    | [d0; d1; d2] => go d0 d1 d2
    | _ => Err (RuntimeError "repeat dims fewer than tensor dims")
    end.

(** [torch.cat([x, y], dim=1)]. *)
Definition cat_dim1 (x y : tensor A) : result (tensor A) :=
  match shape x, shape y with
  | d0 :: s1 :: rest, e0 :: s2 :: rest' =>
      if decide (d0 = e0 /\ rest = rest')
      then
        let inner := numel rest in
        Ok (Tensor (d0 :: (s1 + s2)%nat :: rest)
              (concat (zip_with app (rows d0 (s1 * inner) (data x))
                                    (rows d0 (s2 * inner) (data y)))))
      else Err (RuntimeError "sizes of tensors must match except in dimension 1")
  | _, _ => Err (IndexError "dimension out of range")
  end.

(** [torch.cat([x, y])] (along dimension 0). *)
Definition cat_dim0 (x y : tensor A) : result (tensor A) :=
  match shape x, shape y with
  | d0 :: rest, e0 :: rest' =>
      if decide (rest = rest')
      then Ok (Tensor ((d0 + e0)%nat :: rest) (data x ++ data y))
      else Err (RuntimeError "sizes of tensors must match except in dimension 0")
  | _, _ => Err (RuntimeError "zero-dimensional tensor cannot be concatenated")
  end.

(** [a, b = x.chunk(2)]: pieces of [ceil(d0 / 2)] entries along
    dimension 0 (two empty pieces when [d0 = 0]); a single piece, for
    [d0 = 1], cannot be unpacked into two names. *)
Definition chunk2 (x : tensor A) : result (tensor A * tensor A) :=
  match shape x with
  | d0 :: rest =>
      let c := ((d0 + 1) / 2)%nat in
      if decide (d0 = 1)%nat
      then Err (ValueError UnpackArity)
      else
        let k := (c * numel rest)%nat in
        Ok (Tensor (c :: rest) (take k (data x)),
            Tensor ((d0 - c)%nat :: rest) (drop k (data x)))
  | [] => Err (RuntimeError "chunk expects at least a 1-dimensional tensor")
  end.

(** [x.view(d0, d1, -1)]. *)
Definition view3 (d0 d1 : Z) (x : tensor A) : result (tensor A) :=
  let n := Z.of_nat (numel (shape x)) in
  if decide (d0 < 0 \/ d1 < 0) then Err (RuntimeError "invalid shape dimension")
  else if decide (d0 * d1 = 0) then Err (RuntimeError "cannot infer the unspecified dimension")
  else if decide (n mod (d0 * d1) = 0)
       then Ok (Tensor [Z.to_nat d0; Z.to_nat d1; Z.to_nat (n / (d0 * d1))] (data x))
       else Err (RuntimeError "shape is invalid for input size").

(** [x[:, lo:]] and [x[:, :hi]] for a non-negative bound. *)
Definition slice_dim1 (from_start : bool) (k : nat) (x : tensor A) : result (tensor A) :=
  match shape x with
  | d0 :: d1 :: rest =>
      let inner := numel rest in
      let cut (row : list A) :=
        if from_start then take (k * inner) row else drop (k * inner) row in
      let d1' := if from_start then Nat.min k d1 else (d1 - k)%nat in
      Ok (Tensor (d0 :: d1' :: rest) (concat (map cut (rows d0 (d1 * inner) (data x)))))
  | _ => Err (IndexError "too many indices for tensor")
  end.

(** [x.permute(0, 2, 3, 1)]. *)
Definition permute_0231 (x : tensor A) : result (tensor A) :=
  match shape x with
  | [n; c; h; w] =>
      let image (m : list A) := concat (transpose (h * w) (rows c (h * w) m)) in
      Ok (Tensor [n; h; w; c] (concat (map image (rows n (c * h * w) (data x)))))
  | _ => Err (RuntimeError "number of dims does not match in permute")
  end.
End ShapeOps.

(** ** Python values at the interface *)

(** The [prompt] argument: a [str], a [list] of [str], or anything else. *)
Inductive py_prompt :=
| PromptStr (s : string)
| PromptList (l : list string)
| PromptOther.

(** The [callback_steps] argument: [None], an [int], or anything else. *)
Inductive py_callback_steps :=
| StepsNone
| StepsInt (k : Z)
| StepsOther.

(** The [output_type] argument is compared with a string and nothing
    else is asked of it. *)
Inductive py_object :=
| PyNone
| PyStr (s : string)
| PyInt (k : Z)
| PyBool (b : bool).

Definition py_eq_str (o : py_object) (s : string) : bool :=
  match o with
  | PyStr s' => bool_decide (s' = s)
  | _ => false
  end.

(** ** The pipeline *)

Section Pipeline.
(** [F]: tensor elements; [T]: a timestep; [S]: the scheduler's mutable
    state; [G]: a [torch.Generator]; [Pil]: a [PIL.Image.Image] made by
    [numpy_to_pil]. *)
Context {F : Type} `{Scalar F} {T S G Pil : Type}.

(** A value of [extra_step_kwargs]. *)
Inductive kwarg :=
| KwEta (eta : float)
| KwGenerator (g : option G).

Record CLIPTokenizer := {
  model_max_length : Z;
  (** [tokenizer(prompt, padding="max_length", max_length=model_max_length,
      truncation=True, return_tensors="pt").input_ids] *)
  tokenize : list string -> tensor Z;
  batch_decode : tensor Z -> list string
}.

Record CLIPModel := {
  get_text_features : tensor Z -> tensor F;
  get_image_features : tensor F -> tensor F
}.

Record UNet2DConditionModel := {
  in_channels : Z;
  (** [unet(sample, t, encoder_hidden_states=c).sample] *)
  unet_forward : tensor F -> T -> tensor F -> tensor F
}.

Record AutoencoderKL := {
  block_out_channels : list Z;
  scaling_factor : float;
  (** [vae.decode(z).sample] *)
  vae_decode : tensor F -> tensor F
}.

Record Scheduler := {
  (** [inspect.signature(scheduler.step).parameters.keys()] *)
  step_parameters : list string;
  set_timesteps : S -> Z -> S;
  timesteps : S -> list T;
  init_noise_sigma : S -> F;
  scale_model_input : S -> tensor F -> T -> S * tensor F;
  (** [scheduler.step(model_output, t, sample, **kwargs).prev_sample] *)
  step : S -> tensor F -> T -> tensor F -> gmap string kwarg -> S * tensor F
}.

Record RDMPipeline := {
  vae : AutoencoderKL;
  clip : CLIPModel;
  tokenizer : CLIPTokenizer;
  unet : UNet2DConditionModel;
  scheduler : Scheduler;
  (** [feature_extractor(images, return_tensors="pt").pixel_values] *)
  feature_extractor : list (tensor F) -> tensor F;
  vae_scale_factor : Z;
  (** inherited from [DiffusionPipeline] *)
  numpy_to_pil : tensor F -> list Pil
}.

(** [diffusers.utils.randn_tensor]: the sample drawn for a shape from
    the caller's generator, or from the global one for [None]. *)
Variable randn : list nat -> option G -> list F.

(** [RDMPipeline.__init__] (line 127); [block_out_channels] is not
    empty for an autoencoder. *)
Definition init (vae0 : AutoencoderKL) (clip0 : CLIPModel) (tokenizer0 : CLIPTokenizer)
    (unet0 : UNet2DConditionModel) (scheduler0 : Scheduler)
    (feature_extractor0 : list (tensor F) -> tensor F)
    (numpy_to_pil0 : tensor F -> list Pil) : RDMPipeline :=
  {| vae := vae0; clip := clip0; tokenizer := tokenizer0; unet := unet0;
     scheduler := scheduler0; feature_extractor := feature_extractor0;
     vae_scale_factor := 2 ^ (Z.of_nat (length (block_out_channels vae0)) - 1);
     numpy_to_pil := numpy_to_pil0 |}.

(** The arguments of [__call__]; [callback] tells whether a callback
    was given. *)
Record call_args := {
  prompt : py_prompt;
  retrieved_images : option (list (tensor F));
  height : Z;
  width : Z;
  num_inference_steps : Z;
  guidance_scale : float;
  num_images_per_prompt : Z;
  eta : float;
  generator : option G;
  latents : option (tensor F);
  output_type : py_object;
  return_dict : bool;
  callback : bool;
  callback_steps : py_callback_steps
}.

(** *** Calls to collaborators, in the order they are made *)
Inductive event :=
| EvTokenizer (prompts : list string)
| EvBatchDecode (ids : tensor Z)
| EvWarning (max_length : Z) (removed_text : list string)
| EvTextFeatures (ids : tensor Z)
| EvFeatureExtractor (images : list (tensor F))
| EvImageFeatures (pixels : tensor F)
| EvRandn (shape : list Z)
| EvSetTimesteps (n : Z)
| EvScaleModelInput (sample : tensor F) (t : T) (scaled : tensor F)
| EvUnet (sample : tensor F) (t : T) (encoder_hidden_states : tensor F)
| EvStep (model_output : tensor F) (t : T) (sample : tensor F)
         (kwargs : gmap string kwarg) (prev_sample : tensor F)
| EvCallback (i : nat) (t : T) (latents : tensor F)
| EvDecode (z : tensor F)
| EvNumpyToPil (images : tensor F).

Record world := World { sched_state : S; trace : list event }.

(** *** State-and-error monad *)
Definition M (A : Type) : Type := world -> result A * world.

#[export] Instance M_ret : MRet M := fun A a w => (Ok a, w).
#[export] Instance M_bind : MBind M := fun A B k m w =>
  match m w with
  | (Ok a, w') => k a w'
  | (Err e, w') => (Err e, w')
  end.

Definition lift {A} (r : result A) : M A := fun w => (r, w).
Definition raise {A} (e : exn) : M A := lift (Err e).
Definition emit (e : event) : M unit :=
  fun w => (Ok tt, World (sched_state w) (trace w ++ [e])).
Definition get_sched : M S := fun w => (Ok (sched_state w), w).

(** Scheduler calls: the state is replaced and the call recorded.
    Python binds [**kwargs] to the parameters of [step] and raises
    [TypeError] for a name that [step] does not have. *)
Definition sched_set_timesteps (self : RDMPipeline) (n : Z) : M unit :=
  fun w => (Ok tt, World (set_timesteps (scheduler self) (sched_state w) n)
                         (trace w ++ [EvSetTimesteps n])).

Definition sched_scale_model_input (self : RDMPipeline) (x : tensor F) (t : T)
    : M (tensor F) :=
  fun w =>
    let '(s', y) := scale_model_input (scheduler self) (sched_state w) x t in
    (Ok y, World s' (trace w ++ [EvScaleModelInput x t y])).

Definition sched_step (self : RDMPipeline) (model_output : tensor F) (t : T)
    (sample : tensor F) (kwargs : gmap string kwarg) : M (tensor F) :=
  fun w =>
    if decide (dom kwargs ⊆ (list_to_set (step_parameters (scheduler self)) : gset string))
    then
      let '(s', y) := step (scheduler self) (sched_state w) model_output t sample kwargs in
      (Ok y, World s' (trace w ++ [EvStep model_output t sample kwargs y]))
    else (Err (TypeError "step() got an unexpected keyword argument"), w).

(** *** [__call__], lines 296-312: input validation *)
Definition prompt_batch (p : py_prompt) : result (list string) :=
  match p with
  | PromptStr s => Ok [s]
  | PromptList l => Ok l
  | PromptOther => Err (ValueError BadPromptType)
  end.

Definition check_inputs (a : call_args) : result (list string * Z) :=
  prompts ← prompt_batch (prompt a);
  (if decide (height a mod 8 ≠ 0 ∨ width a mod 8 ≠ 0)
   then Err (ValueError (NotDivisibleBy8 (height a) (width a)))
   else Ok tt);;
  match callback_steps a with
  | StepsInt k =>
      if decide (k <= 0) then Err (ValueError BadCallbackSteps) else Ok (prompts, k)
  | _ => Err (ValueError BadCallbackSteps)
  end.

(** *** Lines 28-48: [normalize_images] and [preprocess_images] *)
Definition normalize_images (images : list (tensor F)) : list (tensor F) :=
  map (tmap (fun x => fsub (fdiv x (of_float 127.5%float)) (of_float 1%float))) images.

Definition preprocess_images (images : list (tensor F))
    (extractor : list (tensor F) -> tensor F) : M (tensor F) :=
  let images := map (tmap (fun x => fdiv (fadd x (of_float 1%float)) (of_float 2%float))) images in
  emit (EvFeatureExtractor images);;
  mret (extractor images).

(** *** Lines 314-333: text embedding

    [model_max_length] is not negative for a tokenizer, so the slices
    [[:, model_max_length:]] and [[:, :model_max_length]] count from the
    start of a row. *)
Definition encode_text (self : RDMPipeline) (prompts : list string) : M (tensor F) :=
  let tok := tokenizer self in
  emit (EvTokenizer prompts);;
  let text_input_ids := tokenize tok prompts in
  text_input_ids ←
    match last (shape text_input_ids) with
    | None => raise (IndexError "tuple index out of range")
    | Some len =>
        if decide (Z.of_nat len > model_max_length tok)
        then
          let k := Z.to_nat (model_max_length tok) in
          removed ← lift (slice_dim1 false k text_input_ids);
          emit (EvBatchDecode removed);;
          emit (EvWarning (model_max_length tok) (batch_decode tok removed));;
          lift (slice_dim1 true k text_input_ids)
        else mret text_input_ids
    end;
  emit (EvTextFeatures text_input_ids);;
  text_embeddings ← lift (l2_normalize (get_text_features (clip self) text_input_ids));
  lift (unsqueeze1 text_embeddings).

(** *** Lines 335-345: retrieved images *)
Definition encode_retrieved (self : RDMPipeline) (batch_size : nat)
    (retrieved : list (tensor F)) (text_embeddings : tensor F) : M (tensor F) :=
  let retrieved := normalize_images retrieved in
  pixels ← preprocess_images retrieved (feature_extractor self);
  emit (EvImageFeatures pixels);;
  image_embeddings ← lift (l2_normalize (get_image_features (clip self) pixels));
  let image_embeddings := unsqueeze0 image_embeddings in
  image_embeddings ← lift (repeat3 (Z.of_nat batch_size) 1 1 image_embeddings);
  lift (cat_dim1 text_embeddings image_embeddings).

(** *** Lines 314-350: the conditioning tensor *)
Definition encode_prompt (self : RDMPipeline) (a : call_args) (prompts : list string)
    : M (tensor F) :=
  text_embeddings ← encode_text self prompts;
  text_embeddings ←
    match retrieved_images a with
    | Some retrieved => encode_retrieved self (length prompts) retrieved text_embeddings
    | None => mret text_embeddings
    end;
  '(bs_embed, seq_len) ←
    match shape text_embeddings with
    | [bs_embed; seq_len; _] => mret (bs_embed, seq_len)
    | _ => raise (ValueError UnpackArity)
    end;
  text_embeddings ← lift (repeat3 1 (num_images_per_prompt a) 1 text_embeddings);
  lift (view3 (Z.of_nat bs_embed * num_images_per_prompt a) (Z.of_nat seq_len)
          text_embeddings).

(** *** Lines 355-363: classifier-free guidance *)
Definition do_classifier_free_guidance (a : call_args) : bool :=
  PrimFloat.ltb 1%float (guidance_scale a).

Definition guidance_embeddings (do_cfg : bool) (text_embeddings : tensor F)
    : result (tensor F) :=
  if do_cfg
  then
    let uncond_embeddings := zeros_like text_embeddings in
    cat_dim0 uncond_embeddings text_embeddings
  else Ok text_embeddings.

(** *** Lines 365-377: the initial latents *)
Definition latents_shape (self : RDMPipeline) (a : call_args) (batch_size : nat) : list Z :=
  [Z.of_nat batch_size * num_images_per_prompt a;
   in_channels (unet self);
   height a / vae_scale_factor self;
   width a / vae_scale_factor self].

Definition randn_tensor (shape : list Z) (g : option G) : M (tensor F) :=
  emit (EvRandn shape);;
  if decide (Forall (fun d => 0 <= d) shape)
  then mret (Tensor (map Z.to_nat shape) (randn (map Z.to_nat shape) g))
  else raise (RuntimeError "negative dimension").

Definition prepare_latents (self : RDMPipeline) (a : call_args) (batch_size : nat)
    : M (tensor F) :=
  let expected := latents_shape self a batch_size in
  match latents a with
  | None => randn_tensor expected (generator a)
  | Some given =>
      if decide (map Z.of_nat (shape given) ≠ expected)
      then raise (ValueError (UnexpectedLatentsShape (shape given) expected))
      else mret given
  end.

(** *** Lines 393-401: keyword arguments of the scheduler step *)
Definition prepare_extra_step_kwargs (self : RDMPipeline) (a : call_args)
    : gmap string kwarg :=
  let accepts_eta := bool_decide ("eta" ∈ step_parameters (scheduler self)) in
  let extra_step_kwargs : gmap string kwarg := ∅ in
  let extra_step_kwargs :=
    if accepts_eta then <["eta" := KwEta (eta a)]> extra_step_kwargs
    else extra_step_kwargs in
  let accepts_generator := bool_decide ("generator" ∈ step_parameters (scheduler self)) in
  if accepts_generator then <["generator" := KwGenerator (generator a)]> extra_step_kwargs
  else extra_step_kwargs.

(** *** Lines 411-414: combining the two predictions *)
Definition guide (guidance_scale : float) (noise_pred : tensor F) : result (tensor F) :=
  '(noise_pred_uncond, noise_pred_text) ← chunk2 noise_pred;
  diff ← zip_tensor fsub noise_pred_text noise_pred_uncond;
  zip_tensor fadd noise_pred_uncond (tmap (fmul (of_float guidance_scale)) diff).

(** *** Lines 404-421: one iteration of the loop *)
Definition denoise_step (self : RDMPipeline) (a : call_args) (callback_steps : Z)
    (text_embeddings : tensor F) (extra_step_kwargs : gmap string kwarg)
    (i : nat) (t : T) (latents : tensor F) : M (tensor F) :=
  latent_model_input ←
    (if do_classifier_free_guidance a then lift (cat_dim0 latents latents)
     else mret latents);
  latent_model_input ← sched_scale_model_input self latent_model_input t;
  emit (EvUnet latent_model_input t text_embeddings);;
  let noise_pred := unet_forward (unet self) latent_model_input t text_embeddings in
  noise_pred ←
    (if do_classifier_free_guidance a then lift (guide (guidance_scale a) noise_pred)
     else mret noise_pred);
  latents ← sched_step self noise_pred t latents extra_step_kwargs;
  (if callback a && bool_decide (Z.of_nat i mod callback_steps = 0)
   then emit (EvCallback i t latents)
   else mret tt);;
  mret latents.

(** *** Line 403: [for i, t in enumerate(timesteps_tensor)] *)
Fixpoint denoise_loop (self : RDMPipeline) (a : call_args) (callback_steps : Z)
    (text_embeddings : tensor F) (extra_step_kwargs : gmap string kwarg)
    (i : nat) (ts : list T) (latents : tensor F) : M (tensor F) :=
  match ts with
  | [] => mret latents
  | t :: ts' =>
      latents ← denoise_step self a callback_steps text_embeddings extra_step_kwargs
                  i t latents;
      denoise_loop self a callback_steps text_embeddings extra_step_kwargs
        (Datatypes.S i) ts' latents
  end.

(** *** Lines 423-429: decoding *)
Definition decode_latents (self : RDMPipeline) (latents : tensor F) : M (tensor F) :=
  let sf := scaling_factor (vae self) in
  if PrimFloat.eqb sf 0%float then raise ZeroDivisionError
  else
    let latents := tmap (fmul (of_float (1 / sf)%float)) latents in
    emit (EvDecode latents);;
    let image := vae_decode (vae self) latents in
    let image :=
      tmap (fun x => clamp (of_float 0%float) (of_float 1%float)
                       (fadd (fdiv x (of_float 2%float)) (of_float 0.5%float))) image in
    lift (permute_0231 image).

(** *** Lines 431-437: the returned value *)
Inductive images :=
| NumpyImages (x : tensor F)
| PilImages (l : list Pil).

Inductive call_output :=
| TupleOutput (image : images)           (* [(image,)] *)
| ImagePipelineOutput (image : images).

Definition convert_output (self : RDMPipeline) (a : call_args) (image : tensor F)
    : M call_output :=
  image ←
    (if py_eq_str (output_type a) "pil"
     then emit (EvNumpyToPil image);; mret (PilImages (numpy_to_pil self image))
     else mret (NumpyImages image));
  if return_dict a then mret (ImagePipelineOutput image) else mret (TupleOutput image).

(** *** Lines 379-421: scheduler set-up and the loop *)
Definition denoise (self : RDMPipeline) (a : call_args) (callback_steps : Z)
    (text_embeddings latents : tensor F) : M (tensor F) :=
  sched_set_timesteps self (num_inference_steps a);;
  s ← get_sched;
  let timesteps_tensor := timesteps (scheduler self) s in
  let latents := tmap (fun x => fmul x (init_noise_sigma (scheduler self) s)) latents in
  let extra_step_kwargs := prepare_extra_step_kwargs self a in
  denoise_loop self a callback_steps text_embeddings extra_step_kwargs
    0%nat timesteps_tensor latents.

(** *** Lines 296-429: everything up to the decoded array *)
Definition generate (self : RDMPipeline) (a : call_args) : M (tensor F) :=
  '(prompts, callback_steps) ← lift (check_inputs a);
  let batch_size := length prompts in
  text_embeddings ← encode_prompt self a prompts;
  text_embeddings ← lift (guidance_embeddings (do_classifier_free_guidance a) text_embeddings);
  latents ← prepare_latents self a batch_size;
  latents ← denoise self a callback_steps text_embeddings latents;
  decode_latents self latents.

(** *** [RDMPipeline.__call__] *)
Definition call (self : RDMPipeline) (a : call_args) : M call_output :=
  image ← generate self a;
  convert_output self a image.

(** *** Runs *)

(** Every run of [m] appends events that satisfy [Pev] to the trace,
    and raises only exceptions that satisfy [Perr]. *)
Definition behaves {A} (Pev : event -> Prop) (Perr : exn -> Prop) (m : M A) : Prop :=
  forall w, exists evs,
    trace (m w).2 = trace w ++ evs /\ Forall Pev evs /\
    forall e, (m w).1 = Err e -> Perr e.

(** [m] leaves the scheduler alone. *)
Definition keeps_sched {A} (m : M A) : Prop :=
  forall w, sched_state (m w).2 = sched_state w.
End Pipeline.

(** ** The other methods of [RDMPipeline] *)

(** [o == k] for a Python object [o] and an [int] [k]; [True == 1] and
    [False == 0] in Python. *)
Definition py_eq_int (o : py_object) (k : Z) : bool :=
  match o with
  | PyInt k' => bool_decide (k' = k)
  | PyBool b => bool_decide ((if b then 1 else 0) = k)
  | _ => false
  end.

(** [o is True]. *)
Definition py_is_true (o : py_object) : bool :=
  match o with
  | PyBool true => true
  | _ => false
  end.

(** The first argument of a call of [deprecate]. *)
Inductive deprecation :=
| StepsOffsetNot1           (* "steps_offset!=1" *)
| ClipSampleNotSet.         (* "clip_sample not set" *)

(** [__init__], lines 92-117: the scheduler's configuration, a
    [FrozenDict], is replaced by a copy with [steps_offset = 1] and
    [clip_sample = False] where it says otherwise; each replacement is
    announced through [deprecate], whose calls are returned with the new
    configuration. The second test reads the configuration the first
    block left. *)
Definition patch_scheduler_config (config : gmap string py_object)
    : gmap string py_object * list deprecation :=
  let '(config, log) :=
    match config !! "steps_offset" with
    | Some steps_offset =>
        if negb (py_eq_int steps_offset 1)
        then (<["steps_offset" := PyInt 1]> config, [StepsOffsetNot1])
        else (config, [])
    | None => (config, [])
    end in
  match config !! "clip_sample" with
  | Some clip_sample =>
      if py_is_true clip_sample
      then (<["clip_sample" := PyBool false]> config, log ++ [ClipSampleNotSet])
      else (config, log)
  | None => (config, log)
  end.

(** [unet.config.attention_head_dim]: an [int], or a sequence of them. *)
Inductive head_dim :=
| HeadDimInt (d : Z)
| HeadDimSeq (ds : list Z).

(** The dimension that ["auto"] reads: the [int] itself, or entry 0 of
    the sequence. *)
Definition first_head_dim (h : head_dim) : option Z :=
  match h with
  | HeadDimInt d => Some d
  | HeadDimSeq ds => head ds
  end.

(** [enable_attention_slicing], lines 179-199: the value handed to
    [unet.set_attention_slice]. *)
Definition enable_attention_slicing (attention_head_dim : head_dim) (slice_size : py_object)
    : result py_object :=
  if py_eq_str slice_size "auto"
  then
    match attention_head_dim with
    | HeadDimInt d => Ok (PyInt (d / 2))
    | HeadDimSeq (d :: _) => Ok (PyInt (d / 2))
    | HeadDimSeq [] => Err (IndexError "list index out of range")
    end
  else Ok slice_size.

(** [disable_attention_slicing], lines 201-207. *)
Definition disable_attention_slicing (attention_head_dim : head_dim) : result py_object :=
  enable_attention_slicing attention_head_dim PyNone.

(** ** What is observed of a run *)

(** No tensor operation raises [TypeError]. *)
Definition not_type_error (e : exn) : Prop :=
  match e with TypeError _ => False | _ => True end.

Inductive stage := Embedding | Sampling | Scheduling | Decoding.

Definition stage_of {F T G : Type} (e : @event F T G) : stage :=
  match e with
  | EvTokenizer _ | EvBatchDecode _ | EvWarning _ _ | EvTextFeatures _
  | EvFeatureExtractor _ | EvImageFeatures _ => Embedding
  | EvRandn _ => Sampling
  | EvSetTimesteps _ | EvScaleModelInput _ _ _ | EvUnet _ _ _
  | EvStep _ _ _ _ _ | EvCallback _ _ _ => Scheduling
  | EvDecode _ | EvNumpyToPil _ => Decoding
  end.

(** Python's [ceil(n / d)] for integers and a positive [d]. *)
Definition ceil_div (n d : Z) : Z := (n + d - 1) / d.

Section Observations.
Context {F : Type} `{Scalar F} {T S G Pil : Type}.
Local Abbreviation pipeline := (@RDMPipeline F T S G Pil).
Local Abbreviation args := (@call_args F G).
Local Abbreviation event := (@event F T G).
Implicit Types (self : pipeline) (a : args) (evs : list event).

(** What the loop may append to the trace: scheduler-stage events, the
    denoiser called with the conditioning [c], the scheduler stepped with
    the keyword arguments [kw]. *)
Definition loop_event (c : tensor F) (kw : gmap string (@kwarg G)) (e : event) : Prop :=
  stage_of e = Scheduling /\
  match e with
  | EvUnet _ _ c' => c' = c
  | EvStep _ _ _ kw' _ => kw' = kw
  | _ => True
  end.

(** The events of the [i]-th iteration, from the latents [x] to the
    latents [y]. *)
Definition iteration_events self a (cs : Z) (c : tensor F) (kw : gmap string (@kwarg G))
    (i : nat) (t : T) (x x0 x1 np y : tensor F) : list event :=
  [EvScaleModelInput x0 t x1; EvUnet x1 t c; EvStep np t x kw y]
  ++ (if callback a && bool_decide (Z.of_nat i mod cs = 0) then [EvCallback i t y] else []).

(** The events of the iterations from index [i] over the timesteps [ts]:
    [x0] is what is given to [scale_model_input], [x1] what it returns
    and the denoiser receives, [np] the prediction handed to [step]. *)
Inductive loop_trace self a (cs : Z) (c : tensor F) (kw : gmap string (@kwarg G))
  : nat -> list T -> tensor F -> list event -> tensor F -> Prop :=
| loop_done i x : loop_trace self a cs c kw i [] x [] x
| loop_iter i t ts x x0 x1 np y evs z :
    (if do_classifier_free_guidance a then cat_dim0 x x = Ok x0 else x0 = x) ->
    (if do_classifier_free_guidance a
     then guide (guidance_scale a) (unet_forward (unet self) x1 t c) = Ok np
     else np = unet_forward (unet self) x1 t c) ->
    loop_trace self a cs c kw (Datatypes.S i) ts y evs z ->
    loop_trace self a cs c kw i (t :: ts) x
      (iteration_events self a cs c kw i t x x0 x1 np y ++ evs) z.

(** The latents the loop starts from: scaled by [init_noise_sigma]. *)
Definition scaled_latents self (s : S) (x : tensor F) : tensor F :=
  tmap (fun v => fmul v (init_noise_sigma (scheduler self) s)) x.

(** The calls of the callback: step index, timestep, latents. *)
Definition callback_calls evs : list (nat * T * tensor F) :=
  omap (fun e => match e with EvCallback i t x => Some (i, t, x) | _ => None end) evs.

(** The scheduler steps: timestep and returned latents. *)
Definition step_results evs : list (T * tensor F) :=
  omap (fun e => match e with EvStep _ t _ _ y => Some (t, y) | _ => None end) evs.

(** Step results numbered from [i]. *)
Definition numbered (i : nat) (l : list (T * tensor F)) : list (nat * T * tensor F) :=
  zip_with (fun j o => (j, o.1, o.2)) (seq i (length l)) l.

Definition due (cs : Z) (p : nat * T * tensor F) : Prop := Z.of_nat p.1.1 mod cs = 0.

#[export] Instance due_dec cs p : Decision (due cs p).
Proof. unfold due. apply _. Defined.

(** The step index of a callback call. *)
Definition call_index (p : nat * T * tensor F) : nat := p.1.1.

(** The combination of the two predictions, element by element. *)
Definition combine (guidance_scale : float) (uncond text : F) : F :=
  fadd uncond (fmul (of_float guidance_scale) (fsub text uncond)).

(** The events of a loop without guidance, from the latents [x] to the
    latents [z]: the latents themselves are scaled, the denoiser is
    called once with the conditioning [c], and the scheduler steps with
    the denoiser's output. *)
Inductive unguided_trace self (c : tensor F)
  : tensor F -> list event -> tensor F -> Prop :=
| unguided_done x : unguided_trace self c x [] x
| unguided_iter x t x1 kw y cb evs z :
    cb = [] \/ (exists i, cb = [EvCallback i t y]) ->
    unguided_trace self c y evs z ->
    unguided_trace self c x
      (EvScaleModelInput x t x1 :: EvUnet x1 t c
         :: EvStep (unet_forward (unet self) x1 t c) t x kw y :: cb ++ evs) z.

(** A batch followed by itself: [torch.cat([x] * 2)] for [x] of shape
    [d :: inner]. *)
Definition doubled (d : nat) (inner : list nat) (x : tensor F) : tensor F :=
  Tensor ((d + d)%nat :: inner) (data x ++ data x).

(** The first and the second [b] entries along dimension 0 of a tensor
    whose entries along dimension 0 have shape [rest]. *)
Definition first_half (b : nat) (rest : list nat) (x : tensor F) : tensor F :=
  Tensor (b :: rest) (take (b * numel rest) (data x)).

Definition second_half (b : nat) (rest : list nat) (x : tensor F) : tensor F :=
  Tensor (b :: rest) (drop (b * numel rest) (data x)).

(** The events of a loop with guidance: the latents, of shape
    [d :: inner], are followed by themselves and scaled, the denoiser is
    called once with the doubled batch and the conditioning [c], its
    output, of shape [(b + b) :: rest], is split in its first half (the
    unconditional prediction) and its second half (the conditional one),
    and the scheduler steps with their combination. *)
Inductive guided_trace self (g : float) (c : tensor F)
  : tensor F -> list event -> tensor F -> Prop :=
| guided_done x : guided_trace self g c x [] x
| guided_iter x (d : nat) inner t x1 (b : nat) rest kw y cb evs z :
    shape x = d :: inner ->
    shape (unet_forward (unet self) x1 t c) = (b + b)%nat :: rest ->
    cb = [] \/ (exists i, cb = [EvCallback i t y]) ->
    guided_trace self g c y evs z ->
    guided_trace self g c x
      (EvScaleModelInput (doubled d inner x) t x1 :: EvUnet x1 t c
         :: EvStep (Tensor (b :: rest)
                      (zip_with (combine g)
                         (data (first_half b rest (unet_forward (unet self) x1 t c)))
                         (data (second_half b rest (unet_forward (unet self) x1 t c)))))
                   t x kw y
         :: cb ++ evs) z.

(** A pixel value in [[0, 1]]. *)
Definition in_unit (v : F) : Prop :=
  fle (of_float 0%float) v = true /\ fle v (of_float 1%float) = true.

(** A value that is not NaN: it compares with itself. *)
Definition ordered (v : F) : bool := fle v v.

(** [v / 2 + 0.5]. *)
Definition shifted (v : F) : F := fadd (fdiv v (of_float 2%float)) (of_float 0.5%float).

(** The latents handed to [vae.decode]. *)
Definition decode_calls evs : list (tensor F) :=
  omap (fun e => match e with EvDecode z => Some z | _ => None end) evs.

(** [1 / scaling_factor * latents]. *)
Definition rescale self (z : tensor F) : tensor F :=
  tmap (fmul (of_float (1 / scaling_factor (vae self))%float)) z.

(** [(image / 2 + 0.5).clamp(0, 1)] on one element. *)
Definition to_unit (v : F) : F :=
  clamp (of_float 0%float) (of_float 1%float)
    (fadd (fdiv v (of_float 2%float)) (of_float 0.5%float)).

(** What [preprocess_images(normalize_images(images))] gives to the
    feature extractor. *)
Definition preprocessed (images : list (tensor F)) : list (tensor F) :=
  map (tmap (fun x => fdiv (fadd x (of_float 1%float)) (of_float 2%float)))
      (normalize_images images).

(** What [truncation=True] with [max_length=model_max_length] asks of
    the tokenizer: no row of token ids is longer than
    [model_max_length]. *)
Definition honours_max_length (tok : CLIPTokenizer) : Prop :=
  forall prompts, exists L : nat,
    last (shape (tokenize tok prompts)) = Some L /\ Z.of_nat L <= model_max_length tok.

(** Not a call of [logger.warning]. *)
Definition quiet (e : event) : Prop := forall m r, e <> EvWarning m r.
End Observations.

(** ** Changing one argument of a call *)

Section Arguments.
Context {F G : Type}.
Implicit Types (a : @call_args F G).

Definition set_output (out : py_object) (rd : bool) a : @call_args F G :=
  {| prompt := prompt a; retrieved_images := retrieved_images a;
     height := height a; width := width a;
     num_inference_steps := num_inference_steps a;
     guidance_scale := guidance_scale a;
     num_images_per_prompt := num_images_per_prompt a;
     eta := eta a; generator := generator a; latents := latents a;
     output_type := out; return_dict := rd;
     callback := callback a; callback_steps := callback_steps a |}.

Definition set_eta (e : float) a : @call_args F G :=
  {| prompt := prompt a; retrieved_images := retrieved_images a;
     height := height a; width := width a;
     num_inference_steps := num_inference_steps a;
     guidance_scale := guidance_scale a;
     num_images_per_prompt := num_images_per_prompt a;
     eta := e; generator := generator a; latents := latents a;
     output_type := output_type a; return_dict := return_dict a;
     callback := callback a; callback_steps := callback_steps a |}.

Definition set_generator (g : option G) a : @call_args F G :=
  {| prompt := prompt a; retrieved_images := retrieved_images a;
     height := height a; width := width a;
     num_inference_steps := num_inference_steps a;
     guidance_scale := guidance_scale a;
     num_images_per_prompt := num_images_per_prompt a;
     eta := eta a; generator := g; latents := latents a;
     output_type := output_type a; return_dict := return_dict a;
     callback := callback a; callback_steps := callback_steps a |}.
End Arguments.

(** ** More of what is observed of a run *)

Section Calls.
Context {F T G : Type}.
Implicit Types (evs : list (@event F T G)).

(** The timesteps the denoiser was called with. *)
Definition unet_timesteps evs : list T :=
  omap (fun e => match e with EvUnet _ t _ => Some t | _ => None end) evs.

(** The arguments of the calls of [scheduler.set_timesteps]. *)
Definition set_timesteps_calls evs : list Z :=
  omap (fun e => match e with EvSetTimesteps n => Some n | _ => None end) evs.

(** The shapes [randn_tensor] was called with. *)
Definition randn_calls evs : list (list Z) :=
  omap (fun e => match e with EvRandn s => Some s | _ => None end) evs.

(** The calls of [logger.warning]. *)
Definition warnings evs : list (Z * list string) :=
  omap (fun e => match e with EvWarning m r => Some (m, r) | _ => None end) evs.

(** The token ids the text encoder was called with. *)
Definition text_feature_calls evs : list (tensor Z) :=
  omap (fun e => match e with EvTextFeatures ids => Some ids | _ => None end) evs.
End Calls.

Arguments call_output : clear implicits.
Arguments images : clear implicits.

(** ** A small pipeline to run

    Rational tensor elements, integer timesteps, a scheduler state that
    holds the requested number of steps and counts the steps taken, and
    components shaped like the dummy components of [test_rdm.py]: an
    autoencoder with [block_out_channels = [32; 64]], a denoiser with 4
    input channels. *)
Module Fixture.

Definition Q_of_float (x : float) : Q :=
  match Prim2SF x with
  | S754_finite s m e =>
      let v := (inject_Z (Z.pos m) * Qpower 2 e)%Q in
      if s then Qopp v else v
  | _ => 0%Q
  end.

#[export] Instance Q_scalar : Scalar Q := {|
  of_float := Q_of_float;
  fadd := Qplus;
  fsub := Qminus;
  fmul := Qmult;
  fdiv := Qdiv;
  flt := fun x y => negb (Qle_bool y x);
  fle := Qle_bool;
  (* the 1-norm stands in for the Euclidean norm, which leaves Q *)
  vector_norm := fun v => foldr (fun a acc => Qplus (Qabs a) acc) 0%Q v
|}.

Definition sched := (Z * nat)%type.

(** One token per character. *)
Definition encode (s : string) : list Z :=
  map (fun c => Z.of_nat (Ascii.nat_of_ascii c)) (String.list_ascii_of_string s).

(** Every prompt is cut to [model_max_length = 4] tokens and padded
    with 0 to that length, as [truncation=True] and
    [padding="max_length"] ask. *)
Definition test_tokenizer : CLIPTokenizer :=
  {| model_max_length := 4;
     tokenize := fun prompts =>
       Tensor [length prompts; 4%nat]
         (concat (map (fun s => take 4 (take 4 (encode s) ++ replicate 4 0)) prompts));
     batch_decode := fun ids => replicate (hd 0%nat (shape ids)) "" |}.

Definition row_sum (v : list Q) : Q := foldr Qplus 0%Q v.

(** Features of dimension 2. *)
Definition test_clip : @CLIPModel Q :=
  {| get_text_features := fun ids =>
       Tensor [hd 0%nat (shape ids); 2%nat]
         (concat (map (fun r => [inject_Z (foldr Z.add 1 r); 1%Q])
                      (rows (hd 0%nat (shape ids)) (List.last (shape ids) 1%nat) (data ids))));
     get_image_features := fun pixels =>
       Tensor [hd 0%nat (shape pixels); 2%nat]
         (concat (map (fun r => [row_sum r; 2%Q])
                      (rows (hd 0%nat (shape pixels)) (numel (tail (shape pixels)))
                            (data pixels)))) |}.

(** One value per image. *)
Definition test_feature_extractor (imgs : list (tensor Q)) : tensor Q :=
  Tensor [length imgs; 1%nat; 1%nat; 1%nat] (map (fun x => (row_sum (data x) + 1)%Q) imgs).

Definition test_unet : @UNet2DConditionModel Q Z :=
  {| in_channels := 4;
     unet_forward := fun x t c => tmap (fun v => (v * (1 # 2))%Q) x |}.

Definition test_vae : @AutoencoderKL Q :=
  {| block_out_channels := [32; 64];
     scaling_factor := 0x1.750b0f27bb2ffp-3%float; (* 0.18215 *)
     vae_decode := fun z =>
       match shape z with
       | [n; _; h; w] =>
           Tensor [n; 3%nat; (2 * h)%nat; (2 * w)%nat]
             (replicate (n * 3 * (2 * h) * (2 * w)) (row_sum (data z)))
       | _ => z
       end |}.

Definition countdown (n : nat) : list Z := map Z.of_nat (reverse (seq 0 n)).

Definition test_step (s : sched) (model_output : tensor Q) (t : Z) (sample : tensor Q)
    (kw : gmap string (@kwarg Z)) : sched * tensor Q :=
  ((s.1, Datatypes.S s.2),
   Tensor (shape sample) (zip_with Qminus (data sample) (data model_output))).

(** A scheduler whose [step] has the parameters of [DDIMScheduler.step]
    and that yields as many timesteps as requested. *)
Definition ddim_like : @Scheduler Q Z sched Z :=
  {| step_parameters :=
       ["model_output"; "timestep"; "sample"; "eta"; "use_clipped_model_output";
        "generator"; "variance_noise"; "return_dict"];
     set_timesteps := fun s n => (n, 0%nat);
     timesteps := fun s => countdown (Z.to_nat s.1);
     init_noise_sigma := fun _ => 1%Q;
     scale_model_input := fun s x _ => (s, x);
     step := test_step |}.

(** A scheduler whose [step] has the parameters of [PNDMScheduler.step]
    and that, like [PNDMScheduler] with [skip_prk_steps], yields one
    timestep more than requested. *)
Definition pndm_like : @Scheduler Q Z sched Z :=
  {| step_parameters := ["model_output"; "timestep"; "sample"; "return_dict"];
     set_timesteps := fun s n => (n, 0%nat);
     timesteps := fun s => countdown (Datatypes.S (Z.to_nat s.1));
     init_noise_sigma := fun _ => 1%Q;
     scale_model_input := fun s x _ => (s, x);
     step := test_step |}.

Definition test_numpy_to_pil (x : tensor Q) : list (tensor Q) :=
  map (Tensor (tail (shape x)))
      (rows (hd 0%nat (shape x)) (numel (tail (shape x))) (data x)).

Definition test_randn (shape : list nat) (g : option Z) : list Q :=
  replicate (numel shape) (inject_Z (default 1 g)).

Definition pipe_with (v : @AutoencoderKL Q) (s : @Scheduler Q Z sched Z)
    : @RDMPipeline Q Z sched Z (tensor Q) :=
  init v test_clip test_tokenizer test_unet s test_feature_extractor test_numpy_to_pil.

Definition test_pipe := pipe_with test_vae ddim_like.

Definition w0 : @world Q Z sched Z := World (0, 0%nat) [].

(** The inputs of [get_dummy_inputs] at a size that evaluates fast: one
    retrieved image, two inference steps, a seeded generator. *)
Definition args_with (p : py_prompt) (size : Z) (g : float) (per_prompt : Z)
    (given : option (tensor Q)) (out : py_object) (cb : bool) (cs : py_callback_steps)
    : @call_args Q Z :=
  {| prompt := p;
     retrieved_images := Some [Tensor [1%nat; 1%nat; 3%nat] [0%Q; 3%Q; 0%Q]];
     height := size; width := size;
     num_inference_steps := 2; guidance_scale := g;
     num_images_per_prompt := per_prompt; eta := 0%float; generator := Some 0;
     latents := given; output_type := out; return_dict := true;
     callback := cb; callback_steps := cs |}.

Definition squirrel : string := "A painting of a squirrel eating a burger".

Definition test_args : @call_args Q Z :=
  args_with (PromptStr squirrel) 8 6%float 1 None (PyStr "numpy") false (StepsInt 1).

(** The same call without guidance and with a callback. *)
Definition unguided_args : @call_args Q Z :=
  args_with (PromptStr squirrel) 8 1%float 1 None (PyStr "np") true (StepsInt 1).

(** Two prompts, one retrieved image. *)
Definition two_prompt_args : @call_args Q Z :=
  args_with (PromptList ["a cat"; "a dog"]) 8 6%float 1 None (PyStr "np") false (StepsInt 1).

(** Latents of shape (1, 4, 1, 1) where (1, 4, 4, 4) is expected. *)
Definition bad_latents_args : @call_args Q Z :=
  args_with (PromptStr squirrel) 8 6%float 1
    (Some (Tensor [1%nat; 4%nat; 1%nat; 1%nat] [1%Q; 1%Q; 1%Q; 1%Q]))
    (PyStr "np") false (StepsInt 1).

(** A height and width of 12: a multiple of the codec's factor 2, not of 8. *)
Definition size_12_args : @call_args Q Z :=
  args_with (PromptStr squirrel) 12 6%float 1 None (PyStr "np") false (StepsInt 1).

(** An autoencoder of five blocks: its factor is 16. *)
Definition vae_16 : @AutoencoderKL Q :=
  {| block_out_channels := [32; 64; 128; 128; 128];
     scaling_factor := scaling_factor test_vae;
     vae_decode := vae_decode test_vae |}.

Definition value {A} (d : A) (r : result A) : A :=
  match r with Ok a => a | Err _ => d end.

(** Latents of the expected shape (1, 4, 4, 4). *)
Definition given_latents_args : @call_args Q Z :=
  args_with (PromptStr squirrel) 8 6%float 1
    (Some (Tensor [1%nat; 4%nat; 4%nat; 4%nat] (replicate 64 1%Q)))
    (PyStr "np") false (StepsInt 1).

(** No retrieved images, two images per prompt. *)
Definition text_only_args : @call_args Q Z :=
  {| prompt := PromptList ["a cat"; "a dog"]; retrieved_images := None;
     height := 8; width := 8; num_inference_steps := 2; guidance_scale := 6%float;
     num_images_per_prompt := 2; eta := 0%float; generator := Some 0;
     latents := None; output_type := PyStr "np"; return_dict := true;
     callback := false; callback_steps := StepsInt 1 |}.

(** No image per prompt. *)
Definition zero_per_prompt_args : @call_args Q Z :=
  args_with (PromptStr squirrel) 8 6%float 0 None (PyStr "np") false (StepsInt 1).

(** A height and width of -8. *)
Definition negative_size_args : @call_args Q Z :=
  args_with (PromptStr squirrel) (-8) 6%float 1 None (PyStr "np") false (StepsInt 1).

(** An autoencoder whose configuration has [scaling_factor = 0.0]. *)
Definition zero_vae : @AutoencoderKL Q :=
  {| block_out_channels := block_out_channels test_vae;
     scaling_factor := 0%float;
     vae_decode := vae_decode test_vae |}.

(** A tokenizer that pads to 6 tokens and does not truncate, with
    [model_max_length = 4]. *)
Definition loose_tokenizer : CLIPTokenizer :=
  {| model_max_length := 4;
     tokenize := fun prompts =>
       Tensor [length prompts; 6%nat]
         (concat (map (fun s => take 6 (encode s ++ replicate 6 0)) prompts));
     batch_decode := fun ids =>
       map (fun r => String.string_of_list_ascii
                       (map (fun c => Ascii.ascii_of_nat (Z.to_nat c)) r))
           (rows (hd 0%nat (shape ids)) (List.last (shape ids) 0%nat) (data ids)) |}.

Definition loose_pipe : @RDMPipeline Q Z sched Z (tensor Q) :=
  init test_vae test_clip loose_tokenizer test_unet ddim_like
       test_feature_extractor test_numpy_to_pil.

(** *** The same pipeline on binary64 tensors

    Tensor elements are the kernel's floats with their IEEE arithmetic
    and comparisons; the norm of a row is the square root of the sum of
    its squares. *)
#[export] Instance float_scalar : Scalar float := {|
  of_float := fun x => x;
  fadd := PrimFloat.add;
  fsub := PrimFloat.sub;
  fmul := PrimFloat.mul;
  fdiv := PrimFloat.div;
  flt := PrimFloat.ltb;
  fle := PrimFloat.leb;
  vector_norm := fun v =>
    PrimFloat.sqrt (foldr (fun a acc => PrimFloat.add (PrimFloat.mul a a) acc) 0%float v)
|}.

(** Text features (3, 4) and (4, 3) in turn, image features (0, 2). *)
Definition float_clip : @CLIPModel float :=
  {| get_text_features := fun ids =>
       Tensor [hd 0%nat (shape ids); 2%nat]
         (concat (map (fun i => if Nat.even i then [3%float; 4%float] else [4%float; 3%float])
                      (seq 0 (hd 0%nat (shape ids)))));
     get_image_features := fun pixels =>
       Tensor [hd 0%nat (shape pixels); 2%nat]
         (concat (replicate (hd 0%nat (shape pixels)) [0%float; 2%float])) |}.

Definition float_feature_extractor (imgs : list (tensor float)) : tensor float :=
  Tensor [length imgs; 1%nat; 1%nat; 1%nat]
    (map (fun x => foldr PrimFloat.add 0%float (data x)) imgs).

Definition float_unet : @UNet2DConditionModel float Z :=
  {| in_channels := 4;
     unet_forward := fun x t c => tmap (fun v => PrimFloat.mul v 0.5%float) x |}.

Definition float_scheduler : @Scheduler float Z sched Z :=
  {| step_parameters := step_parameters ddim_like;
     set_timesteps := fun s n => (n, 0%nat);
     timesteps := fun s => countdown (Z.to_nat s.1);
     init_noise_sigma := fun _ => 1%float;
     scale_model_input := fun s x _ => (s, x);
     step := fun s model_output t sample kw =>
       ((s.1, Datatypes.S s.2),
        Tensor (shape sample) (zip_with PrimFloat.sub (data sample) (data model_output))) |}.

(** A decoder whose output is the value [v] everywhere. *)
Definition constant_vae (v : float) : @AutoencoderKL float :=
  {| block_out_channels := [32; 64];
     scaling_factor := scaling_factor test_vae;
     vae_decode := fun z =>
       match shape z with
       | [n; _; h; w] =>
           Tensor [n; 3%nat; (2 * h)%nat; (2 * w)%nat] (replicate (n * 3 * (2 * h) * (2 * w)) v)
       | _ => z
       end |}.

Definition float_randn (shape : list nat) (g : option Z) : list float :=
  replicate (numel shape) 1%float.

Definition float_pipe (v : float) : @RDMPipeline float Z sched Z (tensor float) :=
  init (constant_vae v) float_clip test_tokenizer float_unet float_scheduler
       float_feature_extractor (fun x => [x]).

Definition float_w0 : @world float Z sched Z := World (0, 0%nat) [].

Definition float_args_with (p : py_prompt) (imgs : option (list (tensor float)))
    (per_prompt : Z) : @call_args float Z :=
  {| prompt := p; retrieved_images := imgs;
     height := 8; width := 8; num_inference_steps := 2; guidance_scale := 6%float;
     num_images_per_prompt := per_prompt; eta := 0%float; generator := Some 0;
     latents := None; output_type := PyStr "np"; return_dict := true;
     callback := false; callback_steps := StepsInt 1 |}.

Definition float_image : tensor float :=
  Tensor [1%nat; 1%nat; 3%nat] [0%float; 3%float; 0%float].

(** The dummy inputs at the size 8. *)
Definition float_args : @call_args float Z :=
  float_args_with (PromptStr squirrel) (Some [float_image]) 1.

(** Two prompts, one retrieved image. *)
Definition float_two_prompt_args : @call_args float Z :=
  float_args_with (PromptList ["a cat"; "a dog"]) (Some [float_image]) 1.

(** Two prompts, no retrieved image, two images per prompt. *)
Definition float_text_only_args : @call_args float Z :=
  float_args_with (PromptList ["a cat"; "a dog"]) None 2.

End Fixture.

(** * Properties *)

(** ** Float comparison *)

Lemma one_Prim2SF : Prim2SF 1%float = S754_finite false 4503599627370496 (-52).
Proof. vm_compute. reflexivity. Qed.

(** [x <= 1.0] excludes [1.0 < x]. *)
Lemma float_leb_one_not_ltb (x : float) :
  PrimFloat.leb x 1%float = true -> PrimFloat.ltb 1%float x = false.
Proof.
  rewrite leb_spec, ltb_spec. unfold SFleb, SFltb. rewrite one_Prim2SF.
  generalize 4503599627370496%positive as m1. generalize (-52)%Z as e1. intros e1 m1.
  destruct (Prim2SF x) as [s|s| |s m e]; cbn [SFcompare]; try destruct s; try congruence.
  rewrite (Z.compare_antisym e e1). destruct (e ?= e1)%Z; cbn; try congruence.
  change (PosDef.Pos.compare_cont Eq m m1) with (Pos.compare m m1).
  change (PosDef.Pos.compare_cont Eq m1 m) with (Pos.compare m1 m).
  rewrite (Pos.compare_antisym m1 m). destruct (Pos.compare m1 m); cbn; congruence.
Qed.

(** ** Lists of rows *)

Section Rows.
Context {A : Type}.
Implicit Types (l : list A) (rs : list (list A)).

Lemma rows_concat (k : nat) rs :
  Forall (fun r => length r = k) rs -> rows (length rs) k (concat rs) = rs.
Proof.
  induction 1 as [|r rs Hr _ IH]; [reflexivity|]. cbn [length rows concat].
  rewrite (take_app_length' r _ k (eq_sym Hr)), (drop_app_length' r _ k (eq_sym Hr)), IH.
  reflexivity.
Qed.

Lemma concat_rows (n k : nat) l : length l = (n * k)%nat -> concat (rows n k l) = l.
Proof.
  revert l. induction n as [|n IH]; intros l Hl; cbn [rows concat].
  - destruct l; [reflexivity|discriminate].
  - rewrite IH; [apply take_drop|]. rewrite length_drop. lia.
Qed.

Lemma tile_1 l : tile 1 l = l.
Proof. unfold tile. simpl. apply app_nil_r. Qed.

Lemma length_concat_rows (k : nat) rs :
  Forall (fun r => length r = k) rs -> length (concat rs) = (length rs * k)%nat.
Proof. induction 1; simpl; [reflexivity|]. rewrite length_app. lia. Qed.

Lemma Forall_concat (P : A -> Prop) rs : Forall (Forall P) rs -> Forall P (concat rs).
Proof. induction 1; simpl; [constructor|]. apply Forall_app; auto. Qed.

Lemma Forall_rows (P : A -> Prop) (n k : nat) l :
  Forall P l -> Forall (Forall P) (rows n k l).
Proof.
  revert l. induction n as [|n IH]; intros l Hl; cbn [rows]; constructor.
  - apply Forall_take. assumption.
  - apply IH, Forall_drop. assumption.
Qed.

Lemma Forall_transpose (P : A -> Prop) (k : nat) rs :
  Forall (Forall P) rs -> Forall (Forall P) (transpose k rs).
Proof.
  revert rs. induction k as [|k IH]; intros rs Hrs; simpl; [constructor|].
  constructor.
  - apply Forall_concat. rewrite Forall_map.
    eapply Forall_impl; [exact Hrs|]. intros r Hr. apply Forall_take. exact Hr.
  - apply IH. rewrite Forall_map.
    eapply Forall_impl; [exact Hrs|]. intros r Hr. apply Forall_drop. exact Hr.
Qed.

Lemma concat_concat_map {B} (g : B -> list (list A)) (l : list B) :
  concat (concat (map g l)) = concat (map (fun b => concat (g b)) l).
Proof.
  induction l as [|b l IH]; [reflexivity|]. cbn [map concat].
  rewrite concat_app, IH. reflexivity.
Qed.

Lemma zip_with_app_replicate rs l :
  zip_with app rs (replicate (length rs) l) = map (fun r => r ++ l) rs.
Proof. induction rs as [|r rs IH]; [reflexivity|]. cbn. rewrite IH. reflexivity. Qed.
End Rows.

(** ** Reasoning about runs *)

Section Runs.
Context {F : Type} `{Scalar F} {T S G Pil : Type}.
Local Abbreviation event := (@event F T G).
Local Abbreviation world := (@world F T S G).
Local Abbreviation M := (@M F T S G).

Lemma bind_run {A B} (m : M A) (k : A -> M B) (w : world) :
  (m ≫= k) w = match m w with
               | (Ok a, w') => k a w'
               | (Err e, w') => (Err e, w')
               end.
Proof. reflexivity. Qed.

Lemma behaves_ret {A} Pev Perr (a : A) : behaves Pev Perr (mret a : M A).
Proof. intros w. exists []. simpl. rewrite app_nil_r. repeat split; [constructor|discriminate]. Qed.

Lemma behaves_lift {A} Pev (Perr : exn -> Prop) (r : result A) :
  (forall e, r = Err e -> Perr e) -> behaves Pev Perr (lift r : M A).
Proof. intros Hr w. exists []. simpl. rewrite app_nil_r. repeat split; [constructor|exact Hr]. Qed.

Lemma behaves_raise {A} Pev (Perr : exn -> Prop) (e : exn) :
  Perr e -> behaves Pev Perr (raise e : M A).
Proof. intros He. apply behaves_lift. intros e' [= <-]. exact He. Qed.

Lemma behaves_emit (Pev : event -> Prop) Perr (e : event) :
  Pev e -> behaves Pev Perr (emit e : M unit).
Proof.
  intros He w. exists [e]. simpl. repeat split; [repeat constructor; exact He|discriminate].
Qed.

Lemma behaves_bind {A B} Pev Perr (m : M A) (k : A -> M B) :
  behaves Pev Perr m -> (forall a, behaves Pev Perr (k a)) -> behaves Pev Perr (m ≫= k).
Proof.
  intros Hm Hk w. rewrite bind_run. destruct (Hm w) as (evs & Htr & Hev & Herr).
  destruct (m w) as [[a|e] w1]; simpl in *.
  - destruct (Hk a w1) as (evs' & Htr' & Hev' & Herr').
    exists (evs ++ evs'). rewrite Htr', Htr, app_assoc.
    split; [reflexivity|]. split; [apply Forall_app; auto|exact Herr'].
  - exists evs. split; [exact Htr|]. split; [exact Hev|].
    intros e' [= <-]. apply Herr. reflexivity.
Qed.

Lemma behaves_weaken {A} (Pev Pev' : event -> Prop) (Perr Perr' : exn -> Prop) (m : M A) :
  (forall e, Pev e -> Pev' e) -> (forall e, Perr e -> Perr' e) ->
  behaves Pev Perr m -> behaves Pev' Perr' m.
Proof.
  intros H1 H2 Hm w. destruct (Hm w) as (evs & Htr & Hev & Herr).
  exists evs. repeat split; auto. eapply Forall_impl; eauto.
Qed.

Lemma keeps_sched_ret {A} (a : A) : keeps_sched (mret a : M A).
Proof. intros w. reflexivity. Qed.

Lemma keeps_sched_lift {A} (r : result A) : keeps_sched (lift r : M A).
Proof. intros w. reflexivity. Qed.

Lemma keeps_sched_emit (e : event) : keeps_sched (emit e : M unit).
Proof. intros w. reflexivity. Qed.

Lemma keeps_sched_bind {A B} (m : M A) (k : A -> M B) :
  keeps_sched m -> (forall a, keeps_sched (k a)) -> keeps_sched (m ≫= k).
Proof.
  intros Hm Hk w. rewrite bind_run. specialize (Hm w).
  destruct (m w) as [[a|e] w1]; simpl in *; [rewrite Hk|]; exact Hm.
Qed.
End Runs.

Create HintDb runs.
#[export] Hint Resolve behaves_ret behaves_emit behaves_raise : runs.
#[export] Hint Resolve keeps_sched_ret keeps_sched_lift keeps_sched_emit : runs.

(** ** Exceptions of tensor operations *)

Ltac solve_op_error :=
  let e := fresh "e" in
  intros e;
  cbv [mbind mret result_bind result_ret];
  repeat case_match; intros; simplify_eq; cbn; try done.

Section OpErrors.
Context {F : Type} `{Scalar F} {A : Type}.

Lemma l2_normalize_error (x : tensor F) e : l2_normalize x = Err e -> not_type_error e.
Proof. revert e. unfold l2_normalize. solve_op_error. Qed.

Lemma unsqueeze1_error (x : tensor A) e : unsqueeze1 x = Err e -> not_type_error e.
Proof. revert e. unfold unsqueeze1. solve_op_error. Qed.

Lemma repeat3_error r0 r1 r2 (x : tensor A) e :
  repeat3 r0 r1 r2 x = Err e -> not_type_error e.
Proof. revert e. unfold repeat3. solve_op_error. Qed.

Lemma cat_dim1_error (x y : tensor A) e : cat_dim1 x y = Err e -> not_type_error e.
Proof. revert e. unfold cat_dim1. solve_op_error. Qed.

Lemma cat_dim0_error (x y : tensor A) e : cat_dim0 x y = Err e -> not_type_error e.
Proof. revert e. unfold cat_dim0. solve_op_error. Qed.

Lemma chunk2_error (x : tensor A) e : chunk2 x = Err e -> not_type_error e.
Proof. revert e. unfold chunk2. solve_op_error. Qed.

Lemma view3_error d0 d1 (x : tensor A) e : view3 d0 d1 x = Err e -> not_type_error e.
Proof. revert e. unfold view3. solve_op_error. Qed.

Lemma slice_dim1_error b k (x : tensor A) e : slice_dim1 b k x = Err e -> not_type_error e.
Proof. revert e. unfold slice_dim1. solve_op_error. Qed.

Lemma permute_0231_error (x : tensor A) e : permute_0231 x = Err e -> not_type_error e.
Proof. revert e. unfold permute_0231. solve_op_error. Qed.

Lemma zip_tensor_error f (x y : tensor F) e : zip_tensor f x y = Err e -> not_type_error e.
Proof. revert e. unfold zip_tensor. solve_op_error. Qed.
End OpErrors.

#[export] Hint Resolve l2_normalize_error unsqueeze1_error repeat3_error cat_dim1_error
  cat_dim0_error chunk2_error view3_error slice_dim1_error permute_0231_error
  zip_tensor_error : runs.

(** ** The stages of a call *)

(** Evaluates the monadic glue of a run. *)
Ltac run_simpl :=
  repeat (rewrite ?bind_run;
          cbn [mret M_ret emit lift raise fst snd sched_state trace]).

Ltac run_leaf :=
  first
    [ apply behaves_ret
    | apply behaves_emit; solve [auto]
    | apply behaves_raise; solve [cbn; auto]
    | apply behaves_lift; solve [eauto with runs] ].

Ltac run_auto :=
  repeat first
    [ run_leaf
    | apply behaves_bind; [|intros ?]
    | progress case_match ].

Ltac keeps_auto :=
  repeat first
    [ apply keeps_sched_ret
    | apply keeps_sched_lift
    | apply keeps_sched_emit
    | apply keeps_sched_bind; [|intros ?]
    | progress case_match ].

Section Stages.
Context {F : Type} `{Scalar F} {T S G Pil : Type}.
Variable randn : list nat -> option G -> list F.
Local Abbreviation pipeline := (@RDMPipeline F T S G Pil).
Local Abbreviation args := (@call_args F G).
Local Abbreviation event := (@event F T G).
Local Abbreviation world := (@world F T S G).
Local Abbreviation M := (@M F T S G).
Implicit Types (self : pipeline) (a : args) (w : world).

Lemma encode_text_behaves self prompts :
  behaves (fun e => stage_of e = Embedding) not_type_error (encode_text self prompts).
Proof. unfold encode_text. run_auto. Qed.

Lemma encode_retrieved_behaves self b imgs x :
  behaves (fun e => stage_of e = Embedding) not_type_error (encode_retrieved self b imgs x).
Proof. unfold encode_retrieved, preprocess_images. run_auto. Qed.

Lemma encode_prompt_behaves self a prompts :
  behaves (fun e => stage_of e = Embedding) not_type_error (encode_prompt self a prompts).
Proof.
  unfold encode_prompt.
  apply behaves_bind; [apply encode_text_behaves|intros ?].
  apply behaves_bind; [case_match; [apply encode_retrieved_behaves|run_leaf]|intros ?].
  run_auto.
Qed.

Lemma encode_prompt_keeps_sched self a prompts :
  keeps_sched (encode_prompt self a prompts).
Proof.
  unfold encode_prompt, encode_text, encode_retrieved, preprocess_images, raise. keeps_auto.
Qed.

Lemma prepare_latents_behaves self a b :
  behaves (fun e => stage_of e = Sampling) not_type_error (prepare_latents randn self a b).
Proof. unfold prepare_latents, randn_tensor. run_auto. Qed.

Lemma prepare_latents_keeps_sched self a b : keeps_sched (prepare_latents randn self a b).
Proof. unfold prepare_latents, randn_tensor, raise. keeps_auto. Qed.

Lemma decode_latents_behaves self x :
  behaves (fun e => stage_of e = Decoding) not_type_error (decode_latents self x).
Proof. unfold decode_latents. run_auto. Qed.

Lemma convert_output_behaves self a x :
  behaves (fun e => stage_of e = Decoding) not_type_error (convert_output self a x).
Proof. unfold convert_output. run_auto. Qed.
End Stages.

(** ** The scheduler step and its keyword arguments *)

Section StepKwargs.
Context {F : Type} `{Scalar F} {T S G Pil : Type}.
Variable randn : list nat -> option G -> list F.
Local Abbreviation pipeline := (@RDMPipeline F T S G Pil).
Local Abbreviation args := (@call_args F G).
Local Abbreviation event := (@event F T G).
Local Abbreviation world := (@world F T S G).
Local Abbreviation M := (@M F T S G).
Implicit Types (self : pipeline) (a : args) (w : world).

Lemma extra_step_kwargs_lookup self a (k : string) :
  prepare_extra_step_kwargs self a !! k =
    if decide (k = "generator") then
      if bool_decide ("generator" ∈ step_parameters (scheduler self))
      then Some (KwGenerator (generator a)) else None
    else if decide (k = "eta") then
      if bool_decide ("eta" ∈ step_parameters (scheduler self))
      then Some (KwEta (eta a)) else None
    else None.
Proof.
  unfold prepare_extra_step_kwargs.
  repeat case_bool_decide; repeat case_decide; simplify_eq;
    rewrite ?lookup_insert_eq, ?lookup_insert_ne, ?lookup_empty by done; done.
Qed.

Lemma extra_step_kwargs_accepted self a :
  dom (prepare_extra_step_kwargs self a)
    ⊆ (list_to_set (step_parameters (scheduler self)) : gset string).
Proof.
  intros k Hk. apply elem_of_dom in Hk as [v Hv].
  rewrite extra_step_kwargs_lookup in Hv.
  apply elem_of_list_to_set.
  repeat case_decide; repeat case_bool_decide; simplify_eq; done.
Qed.

Lemma sched_step_accepted self a mo t x w :
  sched_step self mo t x (prepare_extra_step_kwargs self a) w =
    let '(s', y) := step (scheduler self) (sched_state w) mo t x
                      (prepare_extra_step_kwargs self a) in
    (Ok y, World s' (trace w ++ [EvStep mo t x (prepare_extra_step_kwargs self a) y])).
Proof.
  unfold sched_step. rewrite decide_True by apply extra_step_kwargs_accepted. reflexivity.
Qed.

Lemma sched_step_behaves self a c mo t x :
  behaves (loop_event c (prepare_extra_step_kwargs self a)) not_type_error
    (sched_step self mo t x (prepare_extra_step_kwargs self a)).
Proof.
  intros w. rewrite sched_step_accepted.
  destruct (step _ _ _ _ _ _) as [s' y]. eexists. split; [reflexivity|].
  split; [|discriminate]. repeat constructor.
Qed.

Lemma sched_scale_model_input_behaves self c kw x t :
  behaves (loop_event c kw) not_type_error (sched_scale_model_input self x t).
Proof.
  intros w. unfold sched_scale_model_input.
  destruct (scale_model_input _ _ _ _) as [s' y]. eexists. split; [reflexivity|].
  split; [|discriminate]. repeat constructor.
Qed.

Lemma guide_error g (x : tensor F) e : guide g x = Err e -> not_type_error e.
Proof.
  unfold guide. cbv [mbind result_bind].
  destruct (chunk2 x) as [[u v]|e1] eqn:E1; [|intros [= <-]; eauto with runs].
  destruct (zip_tensor fsub v u) as [d|e2] eqn:E2; [|intros [= <-]; eauto with runs].
  eauto with runs.
Qed.

Lemma denoise_step_behaves self a cs c i t x :
  behaves (loop_event c (prepare_extra_step_kwargs self a)) not_type_error
    (denoise_step self a cs c (prepare_extra_step_kwargs self a) i t x).
Proof.
  unfold denoise_step.
  apply behaves_bind; [case_match; run_leaf|intros ?].
  apply behaves_bind; [apply sched_scale_model_input_behaves|intros ?].
  apply behaves_bind; [apply behaves_emit; repeat constructor|intros ?].
  apply behaves_bind;
    [case_match; [apply behaves_lift; intros ?; apply guide_error|run_leaf]|intros ?].
  apply behaves_bind; [apply sched_step_behaves|intros ?].
  apply behaves_bind; [case_match; [apply behaves_emit; repeat constructor|run_leaf]|intros ?].
  run_leaf.
Qed.

Lemma denoise_loop_behaves self a cs c ts : forall i x,
  behaves (loop_event c (prepare_extra_step_kwargs self a)) not_type_error
    (denoise_loop self a cs c (prepare_extra_step_kwargs self a) i ts x).
Proof.
  induction ts as [|t ts IH]; intros i x; simpl; [run_leaf|].
  apply behaves_bind; [apply denoise_step_behaves|intros ?; apply IH].
Qed.

Lemma denoise_behaves self a cs c x :
  behaves (loop_event c (prepare_extra_step_kwargs self a)) not_type_error
    (denoise self a cs c x).
Proof.
  unfold denoise.
  apply behaves_bind; [|intros ?].
  { intros w. eexists. split; [reflexivity|]. split; [|discriminate]. repeat constructor. }
  apply behaves_bind; [|intros ?; apply denoise_loop_behaves].
  intros w. exists []. simpl. rewrite app_nil_r. split; [reflexivity|].
  split; [constructor|discriminate].
Qed.



End StepKwargs.

(** ** Input validation and the returned value *)

Section Validation.
Context {F : Type} `{Scalar F} {T S G Pil : Type}.
Variable randn : list nat -> option G -> list F.
Local Abbreviation pipeline := (@RDMPipeline F T S G Pil).
Local Abbreviation args := (@call_args F G).
Local Abbreviation event := (@event F T G).
Local Abbreviation world := (@world F T S G).
Local Abbreviation M := (@M F T S G).
Implicit Types (self : pipeline) (a : args) (w : world).

Lemma call_check_inputs_error self a w e :
  check_inputs a = Err e -> call randn self a w = (Err e, w).
Proof.
  intros He. unfold call, generate. rewrite !bind_run. unfold lift. rewrite He. reflexivity.
Qed.

(** C1 (as the code has it). The size check is divisibility by the
    constant 8, whatever the codec's factor
    [2 ^ (len(block_out_channels) - 1)] is: for a prompt of an accepted
    type, a height or width that is not a multiple of 8 makes the call
    raise [ValueError] with no collaborator called and the world as it
    was; a height and width that are multiples of 8 never fail this
    check, and pass validation when [callback_steps] is a positive
    integer. *)
Theorem size_check_is_divisibility_by_8 self a w :
  (forall v c tk u s fe np,
     vae_scale_factor (init v c tk u s fe np : pipeline)
       = 2 ^ (Z.of_nat (length (block_out_channels v)) - 1)) /\
  (prompt a <> PromptOther -> height a mod 8 <> 0 \/ width a mod 8 <> 0 ->
     call randn self a w = (Err (ValueError (NotDivisibleBy8 (height a) (width a))), w)) /\
  (height a mod 8 = 0 -> width a mod 8 = 0 ->
     (forall h v, check_inputs a <> Err (ValueError (NotDivisibleBy8 h v))) /\
     (forall prompts k, prompt_batch (prompt a) = Ok prompts ->
        callback_steps a = StepsInt k -> 0 < k -> check_inputs a = Ok (prompts, k))).
Proof.
  split; [reflexivity|]. split.
  - intros Hp Hdiv. apply call_check_inputs_error.
    unfold check_inputs, prompt_batch. cbv [mbind result_bind].
    destruct (prompt a); try congruence; rewrite decide_True by exact Hdiv; reflexivity.
  - intros Hh Hw. split.
    + intros h v. unfold check_inputs, prompt_batch. cbv [mbind result_bind].
      destruct (prompt a); try discriminate;
        (rewrite decide_False by (intros [?|?]; congruence));
        repeat case_match; discriminate.
    + intros prompts k Hp Hk Hpos. unfold check_inputs. cbv [mbind result_bind].
      rewrite Hp, Hk. rewrite decide_False by (intros [?|?]; congruence).
      rewrite decide_False by lia. reflexivity.
Qed.

(** C10. [output_type] is only compared with the string "pil": for any
    other value the call returns the decoded array as it is, raises
    nothing of its own and calls nothing; for "pil" it converts the array
    with [numpy_to_pil]. *)
Theorem output_type_only_compared_with_pil self a w :
  let wrap := if return_dict a then ImagePipelineOutput else TupleOutput in
  (output_type a <> PyStr "pil" ->
     (forall image w1, convert_output self a image w1 = (Ok (wrap (NumpyImages image)), w1)) /\
     call randn self a w =
       match generate randn self a w with
       | (Ok image, w') => (Ok (wrap (NumpyImages image)), w')
       | (Err e, w') => (Err e, w')
       end) /\
  (output_type a = PyStr "pil" ->
     call randn self a w =
       match generate randn self a w with
       | (Ok image, w') =>
           (Ok (wrap (PilImages (numpy_to_pil self image))),
            World (sched_state w') (trace w' ++ [EvNumpyToPil image]))
       | (Err e, w') => (Err e, w')
       end).
Proof.
  intros wrap. split.
  - intros Hne.
    assert (Hpil : py_eq_str (output_type a) "pil" = false).
    { destruct (output_type a) as [|s| |]; try reflexivity.
      simpl. apply bool_decide_eq_false. congruence. }
    assert (Hconv : forall image w1,
      convert_output self a image w1 = (Ok (wrap (NumpyImages image)), w1)).
    { intros image w1. unfold convert_output. rewrite Hpil, bind_run. simpl.
      subst wrap. destruct (return_dict a); reflexivity. }
    split; [exact Hconv|].
    unfold call. rewrite bind_run.
    destruct (generate randn self a w) as [[image|e] w']; [apply Hconv|reflexivity].
  - intros Heq. unfold call. rewrite bind_run.
    destruct (generate randn self a w) as [[image|e] w']; [|reflexivity].
    unfold convert_output. rewrite Heq. simpl. rewrite !bind_run. simpl.
    subst wrap. destruct (return_dict a); reflexivity.
Qed.

(** C4 (as the code has it). A pre-supplied latent tensor of another
    shape than [(batch_size * num_images_per_prompt, in_channels,
    height // f, width // f)] makes a call that passes input validation
    fail: only the tokenizer and the embedding network have been called by
    then, the scheduler is untouched, and when the conditioning was built
    the exception is the [ValueError] of the shape check. *)
Theorem latents_shape_mismatch_raises self a w given prompts cs :
  latents a = Some given ->
  check_inputs a = Ok (prompts, cs) ->
  map Z.of_nat (shape given) <> latents_shape self a (length prompts) ->
  exists e evs,
    call randn self a w = (Err e, World (sched_state w) (trace w ++ evs)) /\
    Forall (fun ev => stage_of ev = Embedding) evs /\
    (forall c w1 c',
       encode_prompt self a prompts w = (Ok c, w1) ->
       guidance_embeddings (do_classifier_free_guidance a) c = Ok c' ->
       e = ValueError (UnexpectedLatentsShape (shape given)
                         (latents_shape self a (length prompts)))).
Proof.
  intros Hlat Hcheck Hshape.
  destruct (encode_prompt_behaves self a prompts w) as (evs & Htr & Hev & _).
  pose proof (encode_prompt_keeps_sched self a prompts w) as Hs.
  unfold call, generate. rewrite !bind_run. unfold lift at 1. rewrite Hcheck.
  rewrite !bind_run.
  destruct (encode_prompt self a prompts w) as [[c|e] [s1 tr1]]; simpl in *; subst.
  - rewrite !bind_run. unfold lift at 1.
    destruct (guidance_embeddings _ c) as [c'|e] eqn:Hg0.
    + rewrite !bind_run. unfold prepare_latents. rewrite Hlat.
      rewrite decide_True by exact Hshape. simpl.
      eexists _, evs. split; [reflexivity|]. split; [exact Hev|].
      intros; reflexivity.
    + eexists _, evs. split; [reflexivity|]. split; [exact Hev|].
      intros c1 w1 c1' Henc Hg. inversion Henc; subst. congruence.
  - eexists _, evs. split; [reflexivity|]. split; [exact Hev|]. discriminate.
Qed.
End Validation.

(** ** The denoising loop *)

Section Loop.
Context {F : Type} `{Scalar F} {T S G Pil : Type}.
Variable randn : list nat -> option G -> list F.
Local Abbreviation pipeline := (@RDMPipeline F T S G Pil).
Local Abbreviation args := (@call_args F G).
Local Abbreviation event := (@event F T G).
Local Abbreviation world := (@world F T S G).
Local Abbreviation M := (@M F T S G).
Implicit Types (self : pipeline) (a : args) (w : world).

Lemma denoise_step_ok self a cs c kw i t x w y w' :
  denoise_step self a cs c kw i t x w = (Ok y, w') ->
  exists x0 x1 np,
    (if do_classifier_free_guidance a then cat_dim0 x x = Ok x0 else x0 = x) /\
    (if do_classifier_free_guidance a
     then guide (guidance_scale a) (unet_forward (unet self) x1 t c) = Ok np
     else np = unet_forward (unet self) x1 t c) /\
    trace w' = trace w ++ iteration_events self a cs c kw i t x x0 x1 np y.
Proof.
  unfold denoise_step, iteration_events, sched_scale_model_input, sched_step.
  destruct (do_classifier_free_guidance a) eqn:Hcfg.
  - run_simpl. destruct (cat_dim0 x x) as [x0|e] eqn:Hcat; [|discriminate].
    run_simpl. destruct (scale_model_input _ _ _ _) as [s1 x1] eqn:Hscale.
    run_simpl. destruct (guide _ _) as [np|e] eqn:Hguide; [|discriminate].
    run_simpl. case_decide; [|discriminate].
    destruct (step (scheduler self) _ _ _ _ _) as [s2 y'] eqn:Hstep.
    run_simpl.
    destruct (callback a && bool_decide (Z.of_nat i mod cs = 0)); run_simpl;
      intros [= <- <-]; exists x0, x1, np; cbn; rewrite <- !app_assoc; auto.
  - run_simpl. destruct (scale_model_input _ _ _ _) as [s1 x1] eqn:Hscale.
    run_simpl. case_decide; [|discriminate].
    destruct (step (scheduler self) _ _ _ _ _) as [s2 y'] eqn:Hstep.
    run_simpl.
    destruct (callback a && bool_decide (Z.of_nat i mod cs = 0)); run_simpl;
      intros [= <- <-]; eexists x, x1, _; cbn; rewrite <- !app_assoc; auto.
Qed.

Lemma denoise_loop_trace self a cs c kw ts : forall i x w z w',
  denoise_loop self a cs c kw i ts x w = (Ok z, w') ->
  exists evs, trace w' = trace w ++ evs /\ loop_trace self a cs c kw i ts x evs z.
Proof.
  induction ts as [|t ts IH]; intros i x w z w'; simpl.
  - intros [= <- <-]. exists []. rewrite app_nil_r. split; [reflexivity|constructor].
  - rewrite bind_run.
    destruct (denoise_step self a cs c kw i t x w) as [[y|e] w1] eqn:Hstep; [|discriminate].
    intros Hloop. apply denoise_step_ok in Hstep as (x0 & x1 & np & Hx0 & Hnp & Htr).
    apply IH in Hloop as (evs & Htr' & Hevs).
    eexists. split; [rewrite Htr', Htr, <- app_assoc; reflexivity|].
    econstructor; eauto.
Qed.

(** Without guidance an iteration cannot fail. *)
Lemma denoise_loop_unguided_total self a cs c ts : forall i x w,
  do_classifier_free_guidance a = false ->
  exists z w', denoise_loop self a cs c (prepare_extra_step_kwargs self a) i ts x w = (Ok z, w').
Proof.
  induction ts as [|t ts IH]; intros i x w Hcfg; simpl; [eauto|].
  rewrite bind_run. unfold denoise_step, sched_scale_model_input. rewrite Hcfg.
  run_simpl. destruct (scale_model_input _ _ _ _) as [s1 x1].
  run_simpl. rewrite sched_step_accepted. run_simpl.
  destruct (step (scheduler self) _ _ _ _ _) as [s2 y].
  run_simpl.
  destruct (callback a && bool_decide (Z.of_nat i mod cs = 0)); run_simpl; apply IH, Hcfg.
Qed.
End Loop.

(** ** The progress callback *)

Lemma ceil_div_bounds n d : 0 < d -> d * (ceil_div n d - 1) < n <= d * ceil_div n d.
Proof.
  intros Hd. unfold ceil_div.
  pose proof (Z.div_mod (n + d - 1) d ltac:(lia)) as Hdm.
  pose proof (Z.mod_pos_bound (n + d - 1) d Hd) as Hm. lia.
Qed.

Lemma ceil_div_unique n d c : 0 < d -> d * (c - 1) < n <= d * c -> ceil_div n d = c.
Proof.
  intros Hd Hc. unfold ceil_div. symmetry.
  apply Z.div_unique with (r := n + d - 1 - d * c); lia.
Qed.

Lemma multiples_below (d : Z) (n : nat) :
  0 < d ->
  Z.of_nat (length (filter (fun j : nat => Z.of_nat j mod d = 0) (seq 0 n)))
    = ceil_div (Z.of_nat n) d.
Proof.
  intros Hd. induction n as [|n IH];
    [symmetry; apply ceil_div_unique; simpl; lia|].
  rewrite seq_S, filter_app, length_app, Nat2Z.inj_add, IH. cbn [Nat.add].
  pose proof (Z.div_mod (Z.of_nat n) d ltac:(lia)) as Hdm.
  pose proof (Z.mod_pos_bound (Z.of_nat n) d Hd) as Hm.
  rewrite filter_cons, filter_nil. symmetry. case_decide as Hn; cbn [length].
  - rewrite (@ceil_div_unique (Z.of_nat n) d (Z.of_nat n / d) Hd) by lia.
    apply ceil_div_unique; lia.
  - rewrite (@ceil_div_unique (Z.of_nat n) d (Z.of_nat n / d + 1) Hd) by lia.
    apply ceil_div_unique; lia.
Qed.

Lemma filter_seq_sorted (P : nat -> Prop) `{!forall j, Decision (P j)} (n : nat) : forall i,
  StronglySorted lt (filter P (seq i n)).
Proof.
  induction n as [|n IH]; intros i; simpl; [constructor|].
  rewrite filter_cons. case_decide; [|apply IH].
  constructor; [apply IH|]. apply Forall_forall. intros j Hj.
  apply list_elem_of_filter in Hj as [_ Hj]. apply elem_of_seq in Hj. lia.
Qed.

Section Callback.
Context {F : Type} `{Scalar F} {T S G Pil : Type}.
Variable randn : list nat -> option G -> list F.
Local Abbreviation pipeline := (@RDMPipeline F T S G Pil).
Local Abbreviation args := (@call_args F G).
Local Abbreviation event := (@event F T G).
Local Abbreviation world := (@world F T S G).
Local Abbreviation M := (@M F T S G).
Implicit Types (self : pipeline) (a : args) (w : world) (evs : list event).

Lemma callback_calls_app evs evs' :
  callback_calls (evs ++ evs') = callback_calls evs ++ callback_calls evs'.
Proof. apply omap_app. Qed.

Lemma step_results_app evs evs' :
  step_results (evs ++ evs') = step_results evs ++ step_results evs'.
Proof. apply omap_app. Qed.

Lemma callback_calls_other_stage evs :
  Forall (fun e => stage_of e <> Scheduling) evs ->
  callback_calls evs = [] /\ step_results evs = [].
Proof.
  induction 1 as [|e evs He _ [IH1 IH2]]; [split; reflexivity|].
  change (callback_calls (e :: evs)) with (callback_calls ([e] ++ evs)).
  change (step_results (e :: evs)) with (step_results ([e] ++ evs)).
  rewrite callback_calls_app, step_results_app, IH1, IH2.
  destruct e; cbn in *; done.
Qed.

Lemma loop_trace_callbacks self a cs c kw i ts x evs z :
  loop_trace self a cs c kw i ts x evs z ->
  map fst (step_results evs) = ts /\
  callback_calls evs =
    if callback a then filter (due cs) (numbered i (step_results evs)) else [].
Proof.
  induction 1 as [|i t ts x x0 x1 np y evs z _ _ _ [IH1 IH2]];
    [split; [reflexivity|destruct (callback a); reflexivity]|].
  unfold iteration_events.
  rewrite !step_results_app, !callback_calls_app, IH2.
  assert (Hs : step_results (if callback a && bool_decide (Z.of_nat i mod cs = 0)
                             then [EvCallback i t y] else [] : list event) = []).
  { destruct (_ && _); reflexivity. }
  rewrite Hs. cbn [step_results callback_calls omap list_omap app map fst].
  fold (step_results evs). split; [rewrite IH1; reflexivity|].
  destruct (callback a); [|reflexivity]. cbn [andb].
  unfold numbered. cbn [length seq zip_with fst snd].
  rewrite filter_cons. unfold due at 2. cbn [fst snd].
  case_bool_decide; [rewrite decide_True by assumption|rewrite decide_False by assumption];
    reflexivity.
Qed.

Lemma numbered_indices cs (l : list (T * tensor F)) : forall i,
  map (fun p : nat * T * tensor F => p.1.1) (filter (due cs) (numbered i l))
    = filter (fun j : nat => Z.of_nat j mod cs = 0) (seq i (length l)).
Proof.
  unfold numbered. induction l as [|o l IH]; intros i; [reflexivity|].
  cbn [length seq zip_with]. rewrite !filter_cons. unfold due at 1. cbn [fst snd].
  repeat case_decide; try done; cbn [map fst]; rewrite IH; reflexivity.
Qed.
End Callback.

(** ** The phases of a successful call *)

Section Phases.
Context {F : Type} `{Scalar F} {T S G Pil : Type}.
Variable randn : list nat -> option G -> list F.
Local Abbreviation pipeline := (@RDMPipeline F T S G Pil).
Local Abbreviation args := (@call_args F G).
Local Abbreviation event := (@event F T G).
Local Abbreviation world := (@world F T S G).
Local Abbreviation M := (@M F T S G).
Implicit Types (self : pipeline) (a : args) (w : world) (evs : list event).

Lemma denoise_run self a cs c x w :
  let s := set_timesteps (scheduler self) (sched_state w) (num_inference_steps a) in
  denoise self a cs c x w =
    denoise_loop self a cs c (prepare_extra_step_kwargs self a) 0
      (timesteps (scheduler self) s) (scaled_latents self s x)
      (World s (trace w ++ [EvSetTimesteps (num_inference_steps a)])).
Proof. reflexivity. Qed.

Lemma call_after_latents self a w prompts cs c w1 c' x0 w2 :
  check_inputs a = Ok (prompts, cs) ->
  encode_prompt self a prompts w = (Ok c, w1) ->
  guidance_embeddings (do_classifier_free_guidance a) c = Ok c' ->
  prepare_latents randn self a (length prompts) w1 = (Ok x0, w2) ->
  call randn self a w =
    (z ← denoise self a cs c' x0;
     image ← decode_latents self z;
     convert_output self a image) w2.
Proof.
  intros Hcheck Henc Hg Hprep. unfold call, generate.
  rewrite !bind_run. unfold lift at 1. rewrite Hcheck.
  rewrite !bind_run, Henc. rewrite !bind_run. unfold lift at 1. rewrite Hg.
  rewrite !bind_run, Hprep. rewrite !bind_run.
  destruct (denoise self a cs c' x0 w2) as [[z|e] w3]; [|reflexivity].
  rewrite !bind_run. reflexivity.
Qed.

Lemma generate_ok_inv self a w img w' :
  generate randn self a w = (Ok img, w') ->
  exists prompts cs c c' x0 z w1 w2 w3,
    check_inputs a = Ok (prompts, cs) /\
    encode_prompt self a prompts w = (Ok c, w1) /\
    guidance_embeddings (do_classifier_free_guidance a) c = Ok c' /\
    prepare_latents randn self a (length prompts) w1 = (Ok x0, w2) /\
    denoise self a cs c' x0 w2 = (Ok z, w3) /\
    decode_latents self z w3 = (Ok img, w').
Proof.
  unfold generate. rewrite !bind_run. unfold lift at 1.
  destruct (check_inputs a) as [[prompts cs]|e] eqn:Hcheck; [|discriminate].
  rewrite !bind_run.
  destruct (encode_prompt self a prompts w) as [[c|e] w1] eqn:Henc; [|discriminate].
  rewrite !bind_run. unfold lift at 1.
  destruct (guidance_embeddings _ c) as [c'|e] eqn:Hg; [|discriminate].
  rewrite !bind_run.
  destruct (prepare_latents randn self a (length prompts) w1) as [[x0|e] w2] eqn:Hprep;
    [|discriminate].
  rewrite !bind_run.
  destruct (denoise self a cs c' x0 w2) as [[z|e] w3] eqn:Hden; [|discriminate].
  intros Hdec. exists prompts, cs, c, c', x0, z, w1, w2, w3. auto 10.
Qed.

Lemma call_ok_inv self a w out w' :
  call randn self a w = (Ok out, w') ->
  exists img w4, generate randn self a w = (Ok img, w4) /\
                 convert_output self a img w4 = (Ok out, w').
Proof.
  unfold call. rewrite bind_run.
  destruct (generate randn self a w) as [[img|e] w4]; [eauto|discriminate].
Qed.

Lemma behaves_run {A} Pev Perr (m : M A) w r w' :
  behaves Pev Perr m -> m w = (r, w') ->
  exists evs, trace w' = trace w ++ evs /\ Forall Pev evs.
Proof.
  intros Hm Hrun. destruct (Hm w) as (evs & Htr & Hev & _).
  rewrite Hrun in Htr. eauto.
Qed.

Lemma keeps_sched_run {A} (m : M A) w r w' :
  keeps_sched m -> m w = (r, w') -> sched_state w' = sched_state w.
Proof. intros Hm Hrun. specialize (Hm w). rewrite Hrun in Hm. exact Hm. Qed.

(** The trace of a successful call: the events before the loop, the
    scheduler set-up, the events of the loop, the events after it. *)
Lemma call_ok_trace self a w out w' :
  call randn self a w = (Ok out, w') ->
  exists prompts cs c c' x0 z w1 pre evs post,
    let s := set_timesteps (scheduler self) (sched_state w) (num_inference_steps a) in
    check_inputs a = Ok (prompts, cs) /\
    encode_prompt self a prompts w = (Ok c, w1) /\
    guidance_embeddings (do_classifier_free_guidance a) c = Ok c' /\
    trace w' = trace w ++ pre ++ EvSetTimesteps (num_inference_steps a) :: evs ++ post /\
    Forall (fun e => stage_of e <> Scheduling) pre /\
    Forall (fun e => stage_of e <> Scheduling) post /\
    loop_trace self a cs c' (prepare_extra_step_kwargs self a) 0
      (timesteps (scheduler self) s) (scaled_latents self s x0) evs z.
Proof.
  intros Hcall. apply call_ok_inv in Hcall as (img & w4 & Hgen & Hconv).
  apply generate_ok_inv in Hgen
    as (prompts & cs & c & c' & x0 & z & w1 & w2 & w3 & Hcheck & Henc & Hg & Hprep & Hden & Hdec).
  destruct (behaves_run _ (encode_prompt_behaves self a prompts) Henc) as (e1 & Ht1 & He1).
  destruct (behaves_run _ (prepare_latents_behaves randn self a (length prompts)) Hprep)
    as (e2 & Ht2 & He2).
  destruct (behaves_run _ (decode_latents_behaves self z) Hdec) as (e4 & Ht4 & He4).
  destruct (behaves_run _ (convert_output_behaves self a img) Hconv) as (e5 & Ht5 & He5).
  pose proof (keeps_sched_run _ (encode_prompt_keeps_sched self a prompts) Henc) as Hs1.
  pose proof (keeps_sched_run _
                (prepare_latents_keeps_sched randn self a (length prompts)) Hprep) as Hs2.
  rewrite denoise_run in Hden. cbn zeta in Hden.
  apply denoise_loop_trace in Hden as (evs & Ht3 & Hloop).
  cbn [trace] in Ht3. rewrite Hs2, Hs1 in Hloop.
  exists prompts, cs, c, c', x0, z, w1, (e1 ++ e2), evs, (e4 ++ e5). cbn zeta.
  repeat split; try assumption.
  - rewrite Ht5, Ht4, Ht3, Ht2, Ht1. rewrite <- !app_assoc. reflexivity.
  - apply Forall_app; split; (eapply Forall_impl; [eassumption|]); cbn; intros ? ->; done.
  - apply Forall_app; split; (eapply Forall_impl; [eassumption|]); cbn; intros ? ->; done.
Qed.
End Phases.

Section CallbackClaim.
Context {F : Type} `{Scalar F} {T S G Pil : Type}.
Variable randn : list nat -> option G -> list F.
Local Abbreviation pipeline := (@RDMPipeline F T S G Pil).
Local Abbreviation args := (@call_args F G).
Local Abbreviation event := (@event F T G).
Local Abbreviation world := (@world F T S G).
Implicit Types (self : pipeline) (a : args) (w : world) (evs : list event).

Lemma check_inputs_ok_inv a prompts cs :
  check_inputs a = Ok (prompts, cs) ->
  prompt_batch (prompt a) = Ok prompts /\ callback_steps a = StepsInt cs /\ 0 < cs /\
  height a mod 8 = 0 /\ width a mod 8 = 0.
Proof.
  unfold check_inputs. cbv [mbind result_bind].
  destruct (prompt_batch (prompt a)) as [p|]; [|discriminate].
  case_decide as Hdiv; [discriminate|].
  destruct (callback_steps a) as [|k|]; try discriminate.
  case_decide; [discriminate|]. intros [= <- <-].
  repeat split; lia.
Qed.

(** C5 (as the code has it). In a call that completes with a callback
    and [callback_steps = cs], the callback is called after exactly those
    scheduler steps whose index, counted from 0 over the scheduler's
    timesteps, is a multiple of [cs], with that index, the step's timestep
    and the latents the step returned. The indices increase strictly and
    start at 0; their number is [ceil(len(timesteps) / cs)], which is
    [ceil(num_inference_steps / cs)] when the scheduler yields
    [num_inference_steps] timesteps. *)
Theorem callback_fires_on_multiples_of_callback_steps self a w out w' cs :
  callback a = true -> callback_steps a = StepsInt cs ->
  call randn self a w = (Ok out, w') ->
  let ts := timesteps (scheduler self)
              (set_timesteps (scheduler self) (sched_state w) (num_inference_steps a)) in
  exists evs,
    trace w' = trace w ++ evs /\
    map fst (step_results evs) = ts /\
    callback_calls evs = filter (due cs) (numbered 0 (step_results evs)) /\
    map call_index (callback_calls evs)
      = filter (fun j : nat => Z.of_nat j mod cs = 0) (seq 0 (length ts)) /\
    StronglySorted lt (map call_index (callback_calls evs)) /\
    (ts <> [] -> head (map call_index (callback_calls evs)) = Some 0%nat) /\
    Z.of_nat (length (callback_calls evs)) = ceil_div (Z.of_nat (length ts)) cs /\
    (Z.of_nat (length ts) = num_inference_steps a ->
     Z.of_nat (length (callback_calls evs)) = ceil_div (num_inference_steps a) cs).
Proof.
  intros Hcb Hcs Hcall ts.
  apply call_ok_trace in Hcall
    as (prompts & cs' & c & c' & x0 & z & w1 & pre & evs & post
        & Hcheck & _ & _ & Htr & Hpre & Hpost & Hloop).
  apply check_inputs_ok_inv in Hcheck as (_ & Hcs' & Hpos & _).
  rewrite Hcs in Hcs'. injection Hcs' as <-.
  apply loop_trace_callbacks in Hloop as [Hsteps Hcalls]. rewrite Hcb in Hcalls.
  change (map fst (step_results evs) = ts) in Hsteps.
  destruct (callback_calls_other_stage Hpre) as [Hc1 Hs1].
  destruct (callback_calls_other_stage Hpost) as [Hc2 Hs2].
  set (all := pre ++ EvSetTimesteps (num_inference_steps a) :: evs ++ post).
  assert (Hall_s : step_results all = step_results evs).
  { unfold all. change (?e :: evs ++ post) with ([e] ++ evs ++ post).
    rewrite !step_results_app, Hs1, Hs2, app_nil_r. reflexivity. }
  assert (Hall_c : callback_calls all = callback_calls evs).
  { unfold all. change (?e :: evs ++ post) with ([e] ++ evs ++ post).
    rewrite !callback_calls_app, Hc1, Hc2, app_nil_r. reflexivity. }
  assert (Hidx : map call_index (callback_calls all)
                 = filter (fun j : nat => Z.of_nat j mod cs = 0) (seq 0 (length ts))).
  { rewrite Hall_c, Hcalls. unfold call_index. rewrite numbered_indices.
    rewrite <- Hsteps, length_map. reflexivity. }
  assert (Hlen : Z.of_nat (length (callback_calls all)) = ceil_div (Z.of_nat (length ts)) cs).
  { rewrite <- (length_map call_index), Hidx. apply multiples_below, Hpos. }
  exists all. split; [exact Htr|]. split; [rewrite Hall_s; exact Hsteps|].
  split; [rewrite Hall_c, Hall_s; exact Hcalls|]. split; [exact Hidx|].
  split; [rewrite Hidx; apply filter_seq_sorted|].
  split.
  { intros Hts. rewrite Hidx. destruct ts as [|t ts']; [done|].
    cbn [length seq]. rewrite filter_cons, decide_True by (apply Z.mod_0_l; lia).
    reflexivity. }
  split; [exact Hlen|]. intros <-. exact Hlen.
Qed.
End CallbackClaim.

(** ** With and without guidance *)

Section Guidance.
Context {F : Type} `{Scalar F} {T S G Pil : Type}.
Variable randn : list nat -> option G -> list F.
Local Abbreviation pipeline := (@RDMPipeline F T S G Pil).
Local Abbreviation args := (@call_args F G).
Local Abbreviation event := (@event F T G).
Local Abbreviation world := (@world F T S G).
Implicit Types (self : pipeline) (a : args) (w : world) (evs : list event).

Lemma zip_with_combine g (l l' : list F) :
  zip_with fadd l (map (fmul (of_float g)) (zip_with fsub l' l)) = zip_with (combine g) l l'.
Proof.
  revert l'. induction l as [|p l IH]; intros [|q l']; try reflexivity.
  cbn. rewrite IH. reflexivity.
Qed.

(** Two pieces of equal shape are the two halves of an even batch. *)
Lemma chunk2_halves (x u v : tensor F) :
  chunk2 x = Ok (u, v) -> shape u = shape v ->
  exists (b : nat) rest,
    shape x = (b + b)%nat :: rest /\ u = first_half b rest x /\ v = second_half b rest x.
Proof.
  unfold chunk2. destruct (shape x) as [|d0 rest] eqn:Hshape; [discriminate|].
  case_decide as Hd0; [discriminate|]. intros [= <- <-]. cbn [shape]. intros [= Hhalf].
  pose proof (Nat.div_mod_eq (d0 + 1) 2) as Hdiv.
  pose proof (Nat.mod_upper_bound (d0 + 1) 2 ltac:(lia)) as Hmod.
  exists ((d0 + 1) / 2)%nat, rest. unfold first_half, second_half.
  split; [f_equal; lia|]. split; [reflexivity|]. rewrite <- Hhalf. reflexivity.
Qed.

Lemma chunk2_even (b : nat) rest (x : tensor F) :
  shape x = (b + b)%nat :: rest ->
  chunk2 x = Ok (first_half b rest x, second_half b rest x).
Proof.
  intros Hshape. unfold chunk2. rewrite Hshape.
  assert (Hb : ((b + b + 1) / 2)%nat = b).
  { symmetry. apply (Nat.div_unique (b + b + 1) 2 b 1); lia. }
  rewrite Hb. destruct (decide (b + b = 1)%nat) as [Hone|_]; [lia|].
  unfold first_half, second_half. replace (b + b - b)%nat with b by lia. reflexivity.
Qed.

Lemma cat_dim0_self (x x2 : tensor F) :
  cat_dim0 x x = Ok x2 -> exists (d : nat) inner, shape x = d :: inner /\ x2 = doubled d inner x.
Proof.
  unfold cat_dim0. destruct (shape x) as [|d inner]; [discriminate|].
  case_decide; [|discriminate]. intros [= <-]. eauto.
Qed.

Lemma guide_ok g (x np : tensor F) :
  guide g x = Ok np ->
  exists (b : nat) rest,
    shape x = (b + b)%nat :: rest /\
    np = Tensor (b :: rest)
           (zip_with (combine g) (data (first_half b rest x)) (data (second_half b rest x))).
Proof.
  unfold guide. cbv [mbind result_bind].
  destruct (chunk2 x) as [[u v]|e] eqn:Hchunk; [|discriminate].
  unfold zip_tensor, tmap. cbn [shape data].
  case_decide as Hvu; [|discriminate]. case_decide as Huv; [|discriminate].
  intros [= <-]. apply chunk2_halves in Hchunk as (b & rest & Hshape & -> & ->);
    [|symmetry; exact Hvu].
  exists b, rest. rewrite zip_with_combine. auto.
Qed.

Lemma callback_event_cases a cs i (t : T) (y : tensor F) :
  let cb : list event :=
    if callback a && bool_decide (Z.of_nat i mod cs = 0) then [EvCallback i t y] else [] in
  cb = [] \/ (exists j, cb = [EvCallback j t y]).
Proof. cbn zeta. destruct (_ && _); eauto. Qed.

Lemma loop_trace_unguided self a cs c kw i ts x evs z :
  do_classifier_free_guidance a = false ->
  loop_trace self a cs c kw i ts x evs z -> unguided_trace self c x evs z.
Proof.
  intros Hcfg. induction 1 as [|i t ts x x0 x1 np y evs z Hx0 Hnp _ IH]; [constructor|].
  rewrite Hcfg in Hx0, Hnp. subst x0 np. unfold iteration_events.
  cbn [app].
  constructor; [apply callback_event_cases|exact IH].
Qed.

Lemma loop_trace_guided self a cs c kw i ts x evs z :
  do_classifier_free_guidance a = true ->
  loop_trace self a cs c kw i ts x evs z -> guided_trace self (guidance_scale a) c x evs z.
Proof.
  intros Hcfg. induction 1 as [|i t ts x x0 x1 np y evs z Hx0 Hnp _ IH]; [constructor|].
  rewrite Hcfg in Hx0, Hnp. apply guide_ok in Hnp as (b & rest & Hout & ->).
  apply cat_dim0_self in Hx0 as (d & inner & Hx & ->).
  unfold iteration_events. cbn [app].
  econstructor; eauto. apply callback_event_cases.
Qed.
End Guidance.

Section GuidanceClaims.
Context {F : Type} `{Scalar F} {T S G Pil : Type}.
Variable randn : list nat -> option G -> list F.
Local Abbreviation pipeline := (@RDMPipeline F T S G Pil).
Local Abbreviation args := (@call_args F G).
Local Abbreviation event := (@event F T G).
Local Abbreviation world := (@world F T S G).
Implicit Types (self : pipeline) (a : args) (w : world) (evs : list event).

(** C2. Guidance is active exactly when [1.0 < guidance_scale]. In a
    call with [guidance_scale <= 1.0] whose validation, embedding and
    latent preparation succeed, no zero block is put before the
    conditioning [c], the loop cannot fail, every iteration scales the
    latents themselves (not a doubled batch), calls the denoiser once
    with [c] and hands the denoiser's output to the scheduler as it is;
    the call then goes on to decoding. *)
Theorem guidance_off_skips_unconditional_branch self a w prompts cs c w1 x0 w2 :
  PrimFloat.leb (guidance_scale a) 1%float = true ->
  check_inputs a = Ok (prompts, cs) ->
  encode_prompt self a prompts w = (Ok c, w1) ->
  prepare_latents randn self a (length prompts) w1 = (Ok x0, w2) ->
  let s := set_timesteps (scheduler self) (sched_state w2) (num_inference_steps a) in
  (forall a' : args,
     do_classifier_free_guidance a' = true <-> PrimFloat.ltb 1%float (guidance_scale a') = true) /\
  do_classifier_free_guidance a = false /\
  guidance_embeddings (do_classifier_free_guidance a) c = Ok c /\
  exists z w3 evs,
    denoise self a cs c x0 w2 = (Ok z, w3) /\
    trace w3 = trace w2 ++ EvSetTimesteps (num_inference_steps a) :: evs /\
    unguided_trace self c (scaled_latents self s x0) evs z /\
    call randn self a w =
      (image ← decode_latents self z; convert_output self a image) w3.
Proof.
  intros Hle Hcheck Henc Hprep s.
  assert (Hcfg : do_classifier_free_guidance a = false).
  { apply float_leb_one_not_ltb, Hle. }
  split; [intros a'; reflexivity|]. split; [exact Hcfg|].
  assert (Hg : guidance_embeddings (do_classifier_free_guidance a) c = Ok c).
  { rewrite Hcfg. reflexivity. }
  split; [exact Hg|].
  destruct (denoise_loop_unguided_total self cs c (timesteps (scheduler self) s) 0
              (scaled_latents self s x0)
              (World s (trace w2 ++ [EvSetTimesteps (num_inference_steps a)])) Hcfg)
    as (z & w3 & Hloop).
  exists z, w3.
  destruct (denoise_loop_trace _ _ _ _ _ _ _ _ _ Hloop) as (evs & Htr & Htrace).
  exists evs. rewrite denoise_run. cbn zeta. fold s.
  split; [exact Hloop|].
  split; [rewrite Htr; cbn [trace]; rewrite <- app_assoc; reflexivity|].
  split; [eapply loop_trace_unguided; eauto|].
  rewrite (call_after_latents randn self a w Hcheck Henc Hg Hprep).
  rewrite bind_run, denoise_run. cbn zeta. fold s. rewrite Hloop. reflexivity.
Qed.

(** C3. In a call with [1.0 < guidance_scale] the conditioning [c] is
    preceded by a block of zeros of the shape of [c], and the loop runs
    with this doubled conditioning; in every iteration of a loop that
    completes the latents are followed by themselves, the denoiser is
    called once on the doubled batch, its output is split into its first
    half [u] (unconditional) and its second half [v] (conditional), and
    the scheduler steps with [u + guidance_scale * (v - u)], element by
    element. *)
Theorem guidance_on_combines_predictions self a :
  PrimFloat.ltb 1%float (guidance_scale a) = true ->
  do_classifier_free_guidance a = true /\
  (forall c : tensor F,
     guidance_embeddings (do_classifier_free_guidance a) c = cat_dim0 (zeros_like c) c /\
     shape (zeros_like c) = shape c /\
     data (zeros_like c) = replicate (length (data c)) (of_float 0%float) /\
     forall c2, guidance_embeddings (do_classifier_free_guidance a) c = Ok c2 ->
       exists d0 rest, shape c = d0 :: rest /\ shape c2 = (d0 + d0)%nat :: rest /\
         data c2 = replicate (length (data c)) (of_float 0%float) ++ data c) /\
  (forall w prompts cs c w1 c2 x0 w2,
     check_inputs a = Ok (prompts, cs) ->
     encode_prompt self a prompts w = (Ok c, w1) ->
     cat_dim0 (zeros_like c) c = Ok c2 ->
     prepare_latents randn self a (length prompts) w1 = (Ok x0, w2) ->
     call randn self a w =
       (z ← denoise self a cs c2 x0;
        image ← decode_latents self z;
        convert_output self a image) w2) /\
  (forall cs c2 x0 w2 z w3,
     denoise self a cs c2 x0 w2 = (Ok z, w3) ->
     let s := set_timesteps (scheduler self) (sched_state w2) (num_inference_steps a) in
     exists evs,
       trace w3 = trace w2 ++ EvSetTimesteps (num_inference_steps a) :: evs /\
       guided_trace self (guidance_scale a) c2 (scaled_latents self s x0) evs z) /\
  (forall (x : tensor F) (b : nat) rest,
     shape x = (b + b)%nat :: rest ->
     guide (guidance_scale a) x
       = Ok (Tensor (b :: rest)
               (zip_with (fun p q => fadd p (fmul (of_float (guidance_scale a)) (fsub q p)))
                  (take (b * numel rest) (data x)) (drop (b * numel rest) (data x))))).
Proof.
  intros Hcfg. change (do_classifier_free_guidance a = true) in Hcfg.
  split; [exact Hcfg|]. split; [|split; [|split]].
  - intros c. rewrite Hcfg. cbn [guidance_embeddings].
    assert (Hz : data (zeros_like c) = replicate (length (data c)) (of_float 0%float)).
    { unfold zeros_like, tmap. cbn [data].
      induction (data c) as [|v l IH]; [reflexivity|]. cbn. rewrite IH. reflexivity. }
    split; [reflexivity|]. split; [reflexivity|]. split; [exact Hz|].
    intros c2. unfold cat_dim0. cbn [shape zeros_like tmap].
    destruct (shape c) as [|d0 rest]; [discriminate|].
    rewrite decide_True by reflexivity. intros [= <-].
    exists d0, rest. cbn [shape data]. rewrite <- Hz. auto.
  - intros w prompts cs c w1 c2 x0 w2 Hcheck Henc Hcat Hprep.
    apply (call_after_latents randn self a w Hcheck Henc); [|exact Hprep].
    rewrite Hcfg. exact Hcat.
  - intros cs c2 x0 w2 z w3 Hden s. rewrite denoise_run in Hden. cbn zeta in Hden.
    fold s in Hden. apply denoise_loop_trace in Hden as (evs & Htr & Htrace).
    exists evs. split; [rewrite Htr; cbn [trace]; rewrite <- app_assoc; reflexivity|].
    eapply loop_trace_guided; eauto.
  - intros x b rest Hshape. unfold guide. cbv [mbind result_bind].
    erewrite chunk2_even by exact Hshape. unfold first_half, second_half.
    unfold zip_tensor at 1. cbn [shape]. rewrite decide_True by reflexivity.
    unfold zip_tensor, tmap. cbn [shape data]. rewrite decide_True by reflexivity.
    rewrite zip_with_combine. reflexivity.
Qed.
End GuidanceClaims.

(** ** Decoding *)

Section Decoding.
Context {F : Type} `{Scalar F} {T S G Pil : Type}.
Variable randn : list nat -> option G -> list F.
Local Abbreviation pipeline := (@RDMPipeline F T S G Pil).
Local Abbreviation args := (@call_args F G).
Local Abbreviation event := (@event F T G).
Local Abbreviation world := (@world F T S G).
Implicit Types (self : pipeline) (a : args) (w : world) (evs : list event).

(** [clamp(y, 0, 1)] is in [[0, 1]] when [y] is not NaN, and is [y]
    itself, outside of [[0, 1]], when it is. *)
Lemma to_unit_cases `{!FloatOrder F} (v : F) :
  (ordered (shifted v) = true -> in_unit (to_unit v)) /\
  (ordered (shifted v) = false -> to_unit v = shifted v /\ ~ in_unit (to_unit v)).
Proof.
  unfold to_unit, clamp, ordered, in_unit. fold (shifted v). set (y := shifted v).
  pose proof fle_zero_one as H01. destruct (fle_ordered _ _ H01) as [H0 H1].
  split; intros Hy.
  - destruct (flt y (of_float 0%float)) eqn:E0; [auto|].
    destruct (flt (of_float 1%float) y) eqn:E1; [auto|].
    split; apply fle_of_not_flt; assumption.
  - assert (E0 : flt y (of_float 0%float) = false).
    { destruct (flt y _) eqn:E; [|reflexivity]. apply flt_ordered in E as [E _]. congruence. }
    assert (E1 : flt (of_float 1%float) y = false).
    { destruct (flt _ y) eqn:E; [|reflexivity]. apply flt_ordered in E as [_ E]. congruence. }
    rewrite E0, E1. split; [reflexivity|]. intros [Hin _].
    apply fle_ordered in Hin as [_ Hin]. congruence.
Qed.

Lemma permute_0231_Forall {A} (P : A -> Prop) (x y : tensor A) :
  permute_0231 x = Ok y -> Forall P (data x) -> Forall P (data y).
Proof.
  unfold permute_0231. repeat case_match; try discriminate. intros [= <-] Hx.
  cbn [data]. apply Forall_concat. rewrite Forall_map.
  eapply Forall_impl; [apply Forall_rows, Hx|]. intros m Hm. cbn beta.
  apply Forall_concat, Forall_transpose, Forall_rows, Hm.
Qed.

Lemma decode_latents_ok self z w img w' :
  decode_latents self z w = (Ok img, w') ->
  PrimFloat.eqb (scaling_factor (vae self)) 0%float = false /\
  w' = World (sched_state w) (trace w ++ [EvDecode (rescale self z)]) /\
  permute_0231 (tmap to_unit (vae_decode (vae self) (rescale self z))) = Ok img.
Proof.
  unfold decode_latents. destruct (PrimFloat.eqb _ _); [discriminate|].
  run_simpl. fold (rescale self z). fold to_unit.
  destruct (permute_0231 _) as [y|e]; [|discriminate].
  intros [= <- <-]. auto.
Qed.

Lemma convert_output_ok self a img w out w' :
  convert_output self a img w = (Ok out, w') ->
  let wrap := if return_dict a then ImagePipelineOutput else TupleOutput in
  (if py_eq_str (output_type a) "pil"
   then out = wrap (PilImages (numpy_to_pil self img)) /\
        trace w' = trace w ++ [EvNumpyToPil img]
   else out = wrap (NumpyImages img) /\ trace w' = trace w).
Proof.
  unfold convert_output. destruct (py_eq_str _ _); run_simpl;
    destruct (return_dict a); run_simpl; intros [= <- <-]; auto.
Qed.

Lemma decode_calls_app evs evs' :
  decode_calls (evs ++ evs') = decode_calls evs ++ decode_calls evs'.
Proof. apply omap_app. Qed.

Lemma decode_calls_other_stage evs :
  Forall (fun e => stage_of e <> Decoding) evs -> decode_calls evs = [].
Proof.
  induction 1 as [|e evs He _ IH]; [reflexivity|].
  change (e :: evs) with ([e] ++ evs). rewrite decode_calls_app, IH.
  destruct e; cbn in *; done.
Qed.

(** C9 (as the code has it). In a call that completes, the latents [z]
    the loop ended with are multiplied by [1 / scaling_factor] and
    decoded in the one call to [vae.decode] the call makes; each decoded
    value [v] becomes [clamp(v / 2 + 0.5, 0, 1)], which lies in [[0, 1]]
    when [v / 2 + 0.5] is not NaN and is that NaN when it is: every value
    of the array is in [[0, 1]] or NaN, and all are in [[0, 1]] when the
    decoder gave no value with [v / 2 + 0.5] NaN. The array moved to
    channel-last layout is what is returned for any [output_type] but
    "pil", and what [numpy_to_pil] converts for "pil". *)
Theorem decoded_image_in_unit_range `{!FloatOrder F} self a w out w' :
  call randn self a w = (Ok out, w') ->
  exists cs c x0 w2 z w3 img evs,
    let decoded := vae_decode (vae self) (rescale self z) in
    denoise self a cs c x0 w2 = (Ok z, w3) /\
    trace w' = trace w ++ evs /\
    decode_calls evs = [rescale self z] /\
    permute_0231 (tmap to_unit decoded) = Ok img /\
    (forall v : F,
       (ordered (shifted v) = true -> in_unit (to_unit v)) /\
       (ordered (shifted v) = false -> to_unit v = shifted v /\ ~ in_unit (to_unit v))) /\
    Forall (fun v => in_unit v \/ ordered v = false) (data img) /\
    (Forall (fun v => ordered (shifted v) = true) (data decoded) ->
     Forall in_unit (data img)) /\
    out = (if return_dict a then ImagePipelineOutput else TupleOutput)
            (if py_eq_str (output_type a) "pil"
             then PilImages (numpy_to_pil self img) else NumpyImages img).
Proof.
  intros Hcall. apply call_ok_inv in Hcall as (img & w4 & Hgen & Hconv).
  apply generate_ok_inv in Hgen
    as (prompts & cs & c & c' & x0 & z & w1 & w2 & w3 & Hcheck & Henc & Hg & Hprep & Hden & Hdec).
  destruct (behaves_run _ (encode_prompt_behaves self a prompts) Henc) as (e1 & Ht1 & He1).
  destruct (behaves_run _ (prepare_latents_behaves randn self a (length prompts)) Hprep)
    as (e2 & Ht2 & He2).
  destruct (behaves_run _ (denoise_behaves self a cs c' x0) Hden) as (e3 & Ht3 & He3).
  apply decode_latents_ok in Hdec as (Hsf & -> & Hperm).
  apply convert_output_ok in Hconv. cbn zeta in Hconv. cbn [trace] in Hconv.
  exists cs, c', x0, w2, z, w3, img.
  assert (Hd1 : decode_calls e1 = []).
  { apply decode_calls_other_stage. eapply Forall_impl; [exact He1|]. cbn. intros ? ->. done. }
  assert (Hd2 : decode_calls e2 = []).
  { apply decode_calls_other_stage. eapply Forall_impl; [exact He2|]. cbn. intros ? ->. done. }
  assert (Hd3 : decode_calls e3 = []).
  { apply decode_calls_other_stage. eapply Forall_impl; [exact He3|].
    cbn. intros ? [-> _]. done. }
  assert (Hnan : Forall (fun v => in_unit v \/ ordered v = false) (data img)).
  { eapply permute_0231_Forall; [exact Hperm|]. unfold tmap. cbn [data].
    rewrite Forall_map. apply Forall_forall. intros v _. cbn beta.
    destruct (to_unit_cases v) as [Hin Hout].
    destruct (ordered (shifted v)) eqn:Hv; [left; auto|right].
    destruct Hout as [-> _]; [reflexivity|exact Hv]. }
  assert (Hrange : Forall (fun v => ordered (shifted v) = true)
                     (data (vae_decode (vae self) (rescale self z))) ->
                   Forall in_unit (data img)).
  { intros Hall. eapply permute_0231_Forall; [exact Hperm|]. unfold tmap. cbn [data].
    rewrite Forall_map. eapply Forall_impl; [exact Hall|].
    intros v Hv. cbn beta in *. apply to_unit_cases, Hv. }
  destruct (py_eq_str (output_type a) "pil"); destruct Hconv as [-> Ht5].
  - exists (e1 ++ e2 ++ e3 ++ [EvDecode (rescale self z); EvNumpyToPil img]). cbn zeta.
    split; [exact Hden|]. split.
    { rewrite Ht5, Ht3, Ht2, Ht1. rewrite <- !app_assoc. reflexivity. }
    split; [rewrite !decode_calls_app, Hd1, Hd2, Hd3; reflexivity|].
    split; [exact Hperm|]. split; [apply to_unit_cases|]. auto.
  - exists (e1 ++ e2 ++ e3 ++ [EvDecode (rescale self z)]). cbn zeta.
    split; [exact Hden|]. split.
    { rewrite Ht5, Ht3, Ht2, Ht1. rewrite <- !app_assoc. reflexivity. }
    split; [rewrite !decode_calls_app, Hd1, Hd2, Hd3; reflexivity|].
    split; [exact Hperm|]. split; [apply to_unit_cases|]. auto.
Qed.
End Decoding.

(** ** The conditioning tensor *)

Section Conditioning.
Context {F : Type} `{Scalar F} {T S G Pil : Type}.
Local Abbreviation pipeline := (@RDMPipeline F T S G Pil).
Local Abbreviation args := (@call_args F G).
Local Abbreviation event := (@event F T G).
Local Abbreviation world := (@world F T S G).
Implicit Types (self : pipeline) (a : args) (w : world) (evs : list event).

Lemma length_normalize_row (v : list F) : length (normalize_row v) = length v.
Proof. unfold normalize_row. apply length_map. Qed.

Lemma l2_normalize_rows (n d : nat) (rs : list (list F)) :
  length rs = n -> Forall (fun r => length r = d) rs ->
  l2_normalize (Tensor [n; d] (concat rs))
    = Ok (Tensor [n; d] (concat (map normalize_row rs))).
Proof.
  intros Hn Hrs. unfold l2_normalize. cbn [shape data reverse rev_append numel foldr].
  rewrite Nat.mul_1_r, <- Hn, rows_concat by exact Hrs. reflexivity.
Qed.

Lemma Forall_length_normalize (d : nat) (rs : list (list F)) :
  Forall (fun r => length r = d) rs -> Forall (fun r => length r = d) (map normalize_row rs).
Proof.
  intros Hrs. rewrite Forall_map. eapply Forall_impl; [exact Hrs|].
  intros r Hr. cbn. rewrite length_normalize_row. exact Hr.
Qed.

Lemma encode_text_ok self prompts w (B L D : nat) (trows : list (list F)) :
  let tok := tokenizer self in
  let ids := tokenize tok prompts in
  last (shape ids) = Some L -> Z.of_nat L <= model_max_length tok ->
  get_text_features (clip self) ids = Tensor [B; D] (concat trows) ->
  length trows = B -> Forall (fun r => length r = D) trows ->
  encode_text self prompts w =
    (Ok (Tensor [B; 1%nat; D] (concat (map normalize_row trows))),
     World (sched_state w) (trace w ++ [EvTokenizer prompts; EvTextFeatures ids])).
Proof.
  intros tok ids HL Hmax Hfeat HB Hrows. unfold encode_text. fold tok. fold ids.
  run_simpl. rewrite HL. rewrite decide_False by lia. run_simpl.
  rewrite Hfeat, (l2_normalize_rows HB Hrows). run_simpl.
  cbn [unsqueeze1 shape data]. rewrite <- app_assoc. reflexivity.
Qed.

Lemma mat_tile_1 {A} (d1 d2 : nat) (m : list A) :
  length m = (d1 * d2)%nat -> concat (map (tile 1) (rows d1 d2 m)) = m.
Proof.
  intros Hm. rewrite (map_ext _ id) by (intros; apply tile_1).
  rewrite map_id. apply concat_rows, Hm.
Qed.

(** [x.repeat(b, 1, 1)] of one matrix: [b] copies of it. *)
Lemma repeat3_dim0 {A} (b r d : nat) (l : list A) :
  length l = (r * d)%nat ->
  repeat3 (Z.of_nat b) 1 1 (Tensor [1%nat; r; d] l) = Ok (Tensor [b; r; d] (tile b l)).
Proof.
  intros Hl. unfold repeat3. rewrite decide_False by lia. cbn [shape data].
  rewrite Nat2Z.id. change (Z.to_nat 1) with 1%nat.
  cbn [rows map concat]. rewrite firstn_all2 by lia.
  rewrite mat_tile_1 by exact Hl. rewrite tile_1, app_nil_r.
  do 2 f_equal. repeat (f_equal; try lia).
Qed.

(** [x.repeat(1, n, 1)]: every matrix is followed by its copies. *)
Lemma repeat3_dim1 {A} (n : Z) (b s d : nat) (blocks : list (list A)) :
  0 <= n -> length blocks = b -> Forall (fun m => length m = (s * d)%nat) blocks ->
  repeat3 1 n 1 (Tensor [b; s; d] (concat blocks))
    = Ok (Tensor [b; (Z.to_nat n * s)%nat; d] (concat (map (tile (Z.to_nat n)) blocks))).
Proof.
  intros Hn Hb Hblocks. unfold repeat3. rewrite decide_False by lia. cbn [shape data].
  change (Z.to_nat 1) with 1%nat. rewrite <- Hb, rows_concat by exact Hblocks.
  rewrite tile_1. do 2 f_equal; [repeat (f_equal; try lia)|].
  f_equal. apply map_ext_Forall. eapply Forall_impl; [exact Hblocks|].
  intros m Hm. cbn beta. rewrite mat_tile_1 by exact Hm. reflexivity.
Qed.

Lemma cat_dim1_rows {A} (b s1 s2 d : nat) (r1 r2 : list (list A)) :
  length r1 = b -> length r2 = b ->
  Forall (fun m => length m = (s1 * d)%nat) r1 ->
  Forall (fun m => length m = (s2 * d)%nat) r2 ->
  cat_dim1 (Tensor [b; s1; d] (concat r1)) (Tensor [b; s2; d] (concat r2))
    = Ok (Tensor [b; (s1 + s2)%nat; d] (concat (zip_with app r1 r2))).
Proof.
  intros H1 H2 Hr1 Hr2. unfold cat_dim1. cbn [shape data numel foldr].
  rewrite decide_True by done. rewrite Nat.mul_1_r.
  assert (E1 : rows b (s1 * d) (concat r1) = r1)
    by (rewrite <- H1; apply rows_concat, Hr1).
  assert (E2 : rows b (s2 * d) (concat r2) = r2)
    by (rewrite <- H2; apply rows_concat, Hr2).
  rewrite E1, E2. reflexivity.
Qed.

Lemma view3_batch {A} (n : Z) (b s d : nat) (l : list A) :
  (0 < b)%nat -> 0 < n -> (0 < s)%nat ->
  view3 (Z.of_nat b * n) (Z.of_nat s) (Tensor [b; (Z.to_nat n * s)%nat; d] l)
    = Ok (Tensor [(b * Z.to_nat n)%nat; s; d] l).
Proof.
  intros Hb Hn Hs. unfold view3. cbn [shape data numel foldr].
  rewrite decide_False by lia. rewrite decide_False by nia.
  assert (Hnum : Z.of_nat (b * (Z.to_nat n * s * (d * 1)))
                 = Z.of_nat d * (Z.of_nat b * n * Z.of_nat s)) by nia.
  rewrite Hnum, Z.mod_mul by nia. rewrite decide_True by reflexivity.
  rewrite Z.div_mul by nia. do 2 f_equal. repeat (f_equal; try lia).
Qed.

Lemma encode_retrieved_ok self (B R D : nat) imgs (ntrows irows : list (list F)) w :
  let pixels := feature_extractor self (preprocessed imgs) in
  get_image_features (clip self) pixels = Tensor [R; D] (concat irows) ->
  length irows = R -> Forall (fun r => length r = D) irows ->
  length ntrows = B -> Forall (fun r => length r = D) ntrows ->
  encode_retrieved self B imgs (Tensor [B; 1%nat; D] (concat ntrows)) w =
    (Ok (Tensor [B; (1 + R)%nat; D]
           (concat (map (fun r => r ++ concat (map normalize_row irows)) ntrows))),
     World (sched_state w)
       (trace w ++ [EvFeatureExtractor (preprocessed imgs); EvImageFeatures pixels])).
Proof.
  intros pixels Hfeat HR Hirows HB Hntrows.
  unfold encode_retrieved, preprocess_images. fold (preprocessed imgs).
  run_simpl. fold pixels. rewrite Hfeat, (l2_normalize_rows HR Hirows). run_simpl.
  set (idata := concat (map normalize_row irows)).
  assert (Hidata : length idata = (R * D)%nat).
  { unfold idata. rewrite (length_concat_rows (Forall_length_normalize Hirows)).
    rewrite length_map, HR. reflexivity. }
  unfold unsqueeze0. cbn [shape data]. rewrite (@repeat3_dim0 _ B R D idata Hidata). run_simpl.
  unfold tile. rewrite cat_dim1_rows with (s1 := 1%nat) (s2 := R).
  - rewrite <- HB at 2. rewrite zip_with_app_replicate, <- app_assoc. reflexivity.
  - exact HB.
  - apply length_replicate.
  - eapply Forall_impl; [exact Hntrows|]. cbn. lia.
  - apply Forall_replicate. exact Hidata.
Qed.

(** C7. With retrieved images whose features have shape [(R, D)], and
    text features of shape [(B, D)] for [B] prompts, the image-feature
    network is called once, on all images; the conditioning has shape
    [(B * num_images_per_prompt, 1 + R, D)], and every batch element is
    the text embedding of its prompt, each entry divided by the norm of
    the embedding, followed by the same [R] image embeddings, each
    divided by its norm in the same way. *)
Theorem retrieved_images_are_shared_across_batch self a prompts imgs w
    (L D R : nat) (trows irows : list (list F)) :
  let tok := tokenizer self in
  let ids := tokenize tok prompts in
  let pixels := feature_extractor self (preprocessed imgs) in
  let n := Z.to_nat (num_images_per_prompt a) in
  let B := length prompts in
  let normalized := fun r : list F => map (fun x => fdiv x (vector_norm r)) r in
  retrieved_images a = Some imgs ->
  last (shape ids) = Some L -> Z.of_nat L <= model_max_length tok ->
  get_text_features (clip self) ids = Tensor [B; D] (concat trows) ->
  length trows = B -> Forall (fun r => length r = D) trows ->
  get_image_features (clip self) pixels = Tensor [R; D] (concat irows) ->
  length irows = R -> Forall (fun r => length r = D) irows ->
  (0 < B)%nat -> 0 < num_images_per_prompt a ->
  exists c,
    encode_prompt self a prompts w =
      (Ok c, World (sched_state w)
               (trace w ++ [EvTokenizer prompts; EvTextFeatures ids;
                            EvFeatureExtractor (preprocessed imgs);
                            EvImageFeatures pixels])) /\
    shape c = [(B * n)%nat; (1 + R)%nat; D] /\
    data c = concat (concat (map (fun tr =>
               replicate n (normalized tr ++ concat (map normalized irows))) trows)).
Proof.
  intros tok ids pixels n B normalized
    Himgs HL Hmax Htext Htrows Htlen Himage Hirows Hilen HB Hn.
  set (idata := concat (map normalize_row irows)).
  set (blocks := map (fun r => r ++ idata) (map normalize_row trows)).
  assert (Hidata : length idata = (R * D)%nat).
  { unfold idata. rewrite (length_concat_rows (Forall_length_normalize Hilen)).
    rewrite length_map, Hirows. reflexivity. }
  assert (Hblocks : Forall (fun m => length m = ((1 + R) * D)%nat) blocks).
  { unfold blocks. rewrite Forall_map. eapply Forall_impl;
      [exact (Forall_length_normalize Htlen)|].
    intros r Hr. cbn beta. rewrite length_app, Hr, Hidata. lia. }
  assert (Hlen : length blocks = B).
  { unfold blocks. rewrite !length_map. exact Htrows. }
  exists (Tensor [(B * n)%nat; (1 + R)%nat; D] (concat (map (tile n) blocks))).
  split; [|split; [reflexivity|]].
  - unfold encode_prompt. rewrite bind_run.
    rewrite (@encode_text_ok self prompts w B L D trows HL Hmax Htext Htrows Htlen).
    rewrite Himgs, bind_run.
    assert (Hntl : length (map normalize_row trows) = B) by (rewrite length_map; exact Htrows).
    rewrite (@encode_retrieved_ok self B R D imgs (map normalize_row trows) irows _
               Himage Hirows Hilen Hntl (Forall_length_normalize Htlen)).
    cbn [sched_state trace]. fold idata. fold blocks. run_simpl.
    rewrite (@repeat3_dim1 _ (num_images_per_prompt a) B (1 + R) D blocks
               ltac:(lia) Hlen Hblocks).
    cbn [shape]. run_simpl. rewrite view3_batch by lia. rewrite <- !app_assoc. reflexivity.
  - cbn [data]. unfold blocks. rewrite concat_concat_map, !map_map. reflexivity.
Qed.
End Conditioning.

(** ** Truncation of the prompt *)

Section Truncation.
Context {F : Type} `{Scalar F} {T S G Pil : Type}.
Variable randn : list nat -> option G -> list F.
Local Abbreviation pipeline := (@RDMPipeline F T S G Pil).
Local Abbreviation args := (@call_args F G).
Local Abbreviation event := (@event F T G).
Local Abbreviation world := (@world F T S G).
Implicit Types (self : pipeline) (a : args) (w : world) (evs : list event).

Lemma quiet_other_stage (k : stage) (e : event) :
  k <> Embedding -> stage_of e = k -> quiet e.
Proof. intros Hk He m r ->. cbn in He. congruence. Qed.

Ltac quiet_auto :=
  repeat first
    [ apply behaves_ret
    | apply behaves_emit; unfold quiet; done
    | apply behaves_lift; done
    | apply behaves_raise; done
    | apply behaves_bind; [|intros ?]
    | progress case_match ].

Lemma encode_text_quiet self prompts w :
  honours_max_length (tokenizer self) ->
  exists r,
    encode_text self prompts w =
      (r, World (sched_state w)
            (trace w ++ [EvTokenizer prompts;
                         EvTextFeatures (tokenize (tokenizer self) prompts)])).
Proof.
  intros Htok. destruct (Htok prompts) as (L & HL & Hmax).
  unfold encode_text. run_simpl. rewrite HL. rewrite decide_False by lia. run_simpl.
  destruct (l2_normalize _) as [x|e]; run_simpl; rewrite <- app_assoc; eauto.
Qed.

Lemma encode_prompt_quiet self a prompts :
  honours_max_length (tokenizer self) ->
  behaves quiet (fun _ => True) (encode_prompt self a prompts).
Proof.
  intros Htok. unfold encode_prompt. apply behaves_bind; [|intros x].
  - intros w. destruct (encode_text_quiet self prompts w Htok) as [r Hr].
    rewrite Hr. eexists. split; [reflexivity|]. split; [|done].
    repeat constructor; unfold quiet; done.
  - unfold encode_retrieved, preprocess_images. quiet_auto.
Qed.

(** C8 (what the code does). With a tokenizer that truncates to
    [model_max_length], as the call asks it to, the length check that
    guards the warning never holds: the text encoder runs on the
    tokenizer's output and no call logs a truncation warning, however
    long the prompt. *)
Theorem truncation_warning_never_logged self a :
  honours_max_length (tokenizer self) ->
  (forall prompts w, exists r,
     encode_text self prompts w =
       (r, World (sched_state w)
             (trace w ++ [EvTokenizer prompts;
                          EvTextFeatures (tokenize (tokenizer self) prompts)]))) /\
  behaves quiet (fun _ => True) (call randn self a).
Proof.
  intros Htok. split; [intros prompts w; apply encode_text_quiet, Htok|].
  unfold call, generate.
  apply behaves_bind; [|intros img; eapply behaves_weaken;
    [exact (fun e => @quiet_other_stage Decoding e ltac:(discriminate))|done
    |apply convert_output_behaves]].
  apply behaves_bind; [apply behaves_lift; done|intros [prompts cs]].
  apply behaves_bind; [apply encode_prompt_quiet, Htok|intros c0].
  apply behaves_bind; [apply behaves_lift; done|intros c].
  apply behaves_bind; [eapply behaves_weaken;
    [exact (fun e => @quiet_other_stage Sampling e ltac:(discriminate))|done
    |apply prepare_latents_behaves]|intros x0].
  apply behaves_bind; [|intros x; eapply behaves_weaken;
    [exact (fun e => @quiet_other_stage Decoding e ltac:(discriminate))|done
    |apply decode_latents_behaves]].
  eapply behaves_weaken; [|done|apply (denoise_behaves self a cs c x0)].
  intros e [He _]. eapply quiet_other_stage; [|exact He]. discriminate.
Qed.
End Truncation.

(** * Further properties of the code *)

(** ** The scheduler's configuration *)

Lemma dom_insert_present {V} (config : gmap string V) (k : string) (v v' : V) :
  config !! k = Some v' -> dom (<[k := v]> config) = dom config.
Proof.
  intros Hk. rewrite dom_insert_L. apply subseteq_union_1_L, singleton_subseteq_l.
  eapply elem_of_dom_2, Hk.
Qed.

Lemma patch_scheduler_config_fixed (config : gmap string py_object) :
  (forall v, config !! "steps_offset" = Some v -> py_eq_int v 1 = true) ->
  config !! "clip_sample" <> Some (PyBool true) ->
  patch_scheduler_config config = (config, []).
Proof.
  intros Hso Hcs. unfold patch_scheduler_config.
  destruct (config !! "steps_offset") as [so|]; [rewrite (Hso so eq_refl)|]; cbn [negb];
    (destruct (config !! "clip_sample") as [[| | |[|]]|]; [..|reflexivity]);
    try reflexivity; congruence.
Qed.

(** X4. After [__init__] the scheduler's configuration has
    [steps_offset], if it has one at all, equal to 1, and never has
    [clip_sample] set to [True]; every other entry, and the set of keys,
    are those of the given configuration; [deprecate] is called exactly
    when the configuration is changed; and patching a patched
    configuration changes nothing and deprecates nothing. *)
Theorem scheduler_config_is_normalised (config : gmap string py_object) :
  let config' := (patch_scheduler_config config).1 in
  let log := (patch_scheduler_config config).2 in
  (forall v, config' !! "steps_offset" = Some v -> py_eq_int v 1 = true) /\
  config' !! "clip_sample" <> Some (PyBool true) /\
  (forall k : string, k <> "steps_offset" -> k <> "clip_sample" -> config' !! k = config !! k) /\
  dom config' = dom config /\
  (log = [] <-> config' = config) /\
  patch_scheduler_config config' = (config', []).
Proof.
  cbn zeta.
  assert (Hmain :
    let config' := (patch_scheduler_config config).1 in
    let log := (patch_scheduler_config config).2 in
    (forall v, config' !! "steps_offset" = Some v -> py_eq_int v 1 = true) /\
    config' !! "clip_sample" <> Some (PyBool true) /\
    (forall k : string, k <> "steps_offset" -> k <> "clip_sample" ->
       config' !! k = config !! k) /\
    dom config' = dom config /\
    (log = [] <-> config' = config)).
  { cbn zeta. unfold patch_scheduler_config.
    destruct (config !! "steps_offset") as [so|] eqn:Hso;
      [destruct (py_eq_int so 1) eqn:Heq|]; cbn [negb];
      rewrite ?lookup_insert_ne by done;
      (destruct (config !! "clip_sample") as [cs|] eqn:Hcs;
        [destruct (py_is_true cs) eqn:Htrue|]); cbn [fst snd].
    all: split; [intros v Hv; try (simplify_map_eq; done)|].
    all: split; [intros Hv; try (simplify_map_eq; done)|].
    all: split; [intros k Hk1 Hk2; try (simplify_map_eq; done)|].
    all: split; [repeat (erewrite dom_insert_present
                           by (rewrite ?lookup_insert_ne by done; eassumption));
                 reflexivity|].
    all: split; try done.
    all: intros Hc; exfalso.
    all: try (apply (f_equal (fun c : gmap string py_object => c !! "clip_sample")) in Hc;
              cbv beta in Hc; rewrite lookup_insert_eq, Hcs in Hc;
              injection Hc as <-; discriminate).
    all: apply (f_equal (fun c : gmap string py_object => c !! "steps_offset")) in Hc;
         cbv beta in Hc; rewrite lookup_insert_eq, Hso in Hc;
         injection Hc as <-; discriminate. }
  destruct Hmain as (H1 & H2 & H3 & H4 & H5).
  repeat split; try assumption; try apply H5.
  apply patch_scheduler_config_fixed; assumption.
Qed.

(** ** Attention slicing *)

(** X5. [enable_attention_slicing("auto")] hands half of the (first)
    attention head dimension, rounded down, to the denoiser, and fails
    with [IndexError] on an empty sequence of dimensions; for a dimension
    of 2, or of 4 and more, [attention_head_dim // slice_size] is then 2,
    the two steps the docstring promises. Any other value, [None] of
    [disable_attention_slicing] included, is handed on as it is without
    the dimension being read. *)
Theorem attention_slicing_auto_halves (h : head_dim) (slice_size : py_object) :
  (forall d, first_head_dim h = Some d ->
     enable_attention_slicing h (PyStr "auto") = Ok (PyInt (d / 2)) /\
     (d = 2 \/ 4 <= d -> d / (d / 2) = 2)) /\
  (first_head_dim h = None -> is_ok (enable_attention_slicing h (PyStr "auto")) = false) /\
  (slice_size <> PyStr "auto" -> enable_attention_slicing h slice_size = Ok slice_size) /\
  disable_attention_slicing h = Ok PyNone.
Proof.
  split; [|split; [|split]].
  - intros d Hd. split.
    + destruct h as [d'|[|d' ds]]; cbn in Hd; simplify_eq; reflexivity.
    + intros [->|Hd4]; [reflexivity|].
      pose proof (Z.div_mod d 2 ltac:(lia)) as Hdm.
      pose proof (Z.mod_pos_bound d 2 ltac:(lia)) as Hm.
      symmetry. apply Z.div_unique with (r := d mod 2); lia.
  - destruct h as [d|[|d ds]]; cbn; try discriminate. reflexivity.
  - intros Hne. unfold enable_attention_slicing.
    destruct slice_size as [|s| |]; try reflexivity.
    cbn. rewrite bool_decide_eq_false_2 by congruence. reflexivity.
  - reflexivity.
Qed.

(** ** Input validation *)

Section ValidationMore.
Context {F : Type} `{Scalar F} {T S G Pil : Type}.
Variable randn : list nat -> option G -> list F.
Local Abbreviation pipeline := (@RDMPipeline F T S G Pil).
Local Abbreviation args := (@call_args F G).
Local Abbreviation world := (@world F T S G).
Implicit Types (self : pipeline) (a : args) (w : world).

(** X1. Input validation accepts a call exactly when the prompt is a
    [str] or a [list], the height and the width are multiples of 8, and
    [callback_steps] is a positive [int]; it then yields the batch of
    prompts (one prompt for a [str]) and the value of [callback_steps]. *)
Theorem validation_accepts_exactly a (prompts : list string) (k : Z) :
  check_inputs a = Ok (prompts, k) <->
  prompt_batch (prompt a) = Ok prompts /\
  height a mod 8 = 0 /\ width a mod 8 = 0 /\
  callback_steps a = StepsInt k /\ 0 < k.
Proof.
  split.
  - intros Hok. apply check_inputs_ok_inv in Hok. tauto.
  - intros (Hp & Hh & Hw & Hcs & Hk). unfold check_inputs. cbv [mbind result_bind].
    rewrite Hp, Hcs. rewrite decide_False by (intros [?|?]; congruence).
    rewrite decide_False by lia. reflexivity.
Qed.

(** X2. The checks are made in the order prompt, size, [callback_steps],
    and the first that fails decides the exception: a prompt that is
    neither [str] nor [list] raises its [ValueError] whatever the other
    arguments are; with a valid prompt and size, a [callback_steps] that
    is [None], not an [int], or not positive raises its [ValueError],
    also when no callback is given. In each case nothing has been called
    and the world is as it was. *)
Theorem validation_errors_in_order self a w :
  (prompt a = PromptOther ->
     call randn self a w = (Err (ValueError BadPromptType), w)) /\
  (prompt a <> PromptOther -> height a mod 8 = 0 -> width a mod 8 = 0 ->
     (forall k, callback_steps a = StepsInt k -> k <= 0) ->
     call randn self a w = (Err (ValueError BadCallbackSteps), w)).
Proof.
  split.
  - intros Hp. apply call_check_inputs_error. unfold check_inputs. rewrite Hp. reflexivity.
  - intros Hp Hh Hw Hcs. apply call_check_inputs_error.
    unfold check_inputs, prompt_batch. cbv [mbind result_bind].
    destruct (prompt a); try congruence;
      (rewrite decide_False by (intros [?|?]; congruence));
      (destruct (callback_steps a) as [|k|]; try reflexivity;
       rewrite decide_True by (apply Hcs; reflexivity); reflexivity).
Qed.

(** X3. The codec's factor set by [__init__] is a positive power of
    two; for an autoencoder of one to four blocks it divides 8, so a
    height (or width) that passed validation is an exact multiple of it
    and the latent size times the factor gives the height back. *)
Theorem latent_size_is_exact (v : @AutoencoderKL F) c tk u s fe np (h : Z) :
  let self : pipeline := init v c tk u s fe np in
  let blocks := length (block_out_channels v) in
  (1 <= blocks)%nat ->
  0 < vae_scale_factor self /\
  vae_scale_factor self = 2 ^ Z.of_nat (blocks - 1) /\
  ((blocks <= 4)%nat -> h mod 8 = 0 ->
     h mod vae_scale_factor self = 0 /\ h / vae_scale_factor self * vae_scale_factor self = h).
Proof.
  intros self blocks Hb. subst self. cbn [vae_scale_factor init]. fold blocks.
  replace (Z.of_nat blocks - 1) with (Z.of_nat (blocks - 1)) by lia.
  split; [apply Z.pow_pos_nonneg; lia|]. split; [reflexivity|].
  intros Hb4 Hh.
  assert (Hdiv : (2 ^ Z.of_nat (blocks - 1) | 8)).
  { destruct blocks as [|[|[|[|[|n]]]]]; try lia; cbn.
    - exists 8; reflexivity.
    - exists 4; reflexivity.
    - exists 2; reflexivity.
    - exists 1; reflexivity. }
  assert (Hmod : h mod 2 ^ Z.of_nat (blocks - 1) = 0).
  { apply Z.mod_divide; [pose proof (Z.pow_pos_nonneg 2 (Z.of_nat (blocks - 1))); lia|].
    eapply Z.divide_trans; [exact Hdiv|]. apply Z.mod_divide; [lia|exact Hh]. }
  split; [exact Hmod|].
  pose proof (Z.div_mod h (2 ^ Z.of_nat (blocks - 1))
                ltac:(pose proof (Z.pow_pos_nonneg 2 (Z.of_nat (blocks - 1))); lia)) as Hdm.
  lia.
Qed.
End ValidationMore.

(** ** Arguments that do not reach the generation *)

Section Interference.
Context {F : Type} `{Scalar F} {T S G Pil : Type}.
Variable randn : list nat -> option G -> list F.
Local Abbreviation pipeline := (@RDMPipeline F T S G Pil).
Local Abbreviation args := (@call_args F G).
Local Abbreviation world := (@world F T S G).
Local Abbreviation M := (@M F T S G).
Implicit Types (self : pipeline) (a : args) (w : world).

Lemma bind_ext {A B} (m m' : M A) (k k' : A -> M B) w :
  m w = m' w -> (forall x w1, k x w1 = k' x w1) -> (m ≫= k) w = (m' ≫= k') w.
Proof.
  intros Hm Hk. rewrite !bind_run, Hm. destruct (m' w) as [[x|e] w1]; [apply Hk|reflexivity].
Qed.

Lemma denoise_loop_ext self a a' cs c kw ts :
  guidance_scale a = guidance_scale a' -> callback a = callback a' ->
  forall i x w,
    denoise_loop self a cs c kw i ts x w = denoise_loop self a' cs c kw i ts x w.
Proof.
  intros Hg Hcb. induction ts as [|t ts IH]; intros i x w; [reflexivity|].
  cbn [denoise_loop]. apply bind_ext; [|intros y w1; apply IH].
  unfold denoise_step, do_classifier_free_guidance. rewrite Hg, Hcb. reflexivity.
Qed.

(** Two calls that differ only in [eta], [generator], [output_type] and
    [return_dict] generate the same array when the scheduler step gets
    the same keyword arguments and the generator, where it is used to
    draw the latents, is the same. *)
Lemma generate_ext self a a' w :
  prompt a = prompt a' -> retrieved_images a = retrieved_images a' ->
  height a = height a' -> width a = width a' ->
  num_inference_steps a = num_inference_steps a' ->
  guidance_scale a = guidance_scale a' ->
  num_images_per_prompt a = num_images_per_prompt a' ->
  latents a = latents a' -> callback a = callback a' ->
  callback_steps a = callback_steps a' ->
  (latents a = None -> generator a = generator a') ->
  prepare_extra_step_kwargs self a = prepare_extra_step_kwargs self a' ->
  generate randn self a w = generate randn self a' w.
Proof.
  intros Hp Hr Hh Hw Hn Hg Hk Hl Hcb Hcs Hgen Hkw. unfold generate.
  apply bind_ext; [unfold lift, check_inputs; rewrite Hp, Hh, Hw, Hcs; reflexivity|].
  intros [prompts cs] w1.
  apply bind_ext; [unfold encode_prompt; rewrite Hr, Hk; reflexivity|intros c0 w2].
  apply bind_ext; [unfold do_classifier_free_guidance; rewrite Hg; reflexivity|intros c w3].
  apply bind_ext; [|intros x0 w4].
  { unfold prepare_latents, latents_shape. rewrite <- Hl, Hh, Hw, Hk.
    destruct (latents a); [reflexivity|]. rewrite Hgen by reflexivity. reflexivity. }
  apply bind_ext; [|intros z w5; reflexivity].
  rewrite !denoise_run. cbn zeta. rewrite Hn, Hkw. apply denoise_loop_ext; assumption.
Qed.

(** X6. [output_type] and [return_dict] do not reach the generation: a
    call with other values for them makes the same calls up to decoding
    and gets the same array, or fails with the same exception; whether
    the call fails, and the state it leaves the scheduler in, do not
    depend on them. *)
Theorem output_options_do_not_reach_generation self a w (out : py_object) (rd : bool) :
  generate randn self (set_output out rd a) w = generate randn self a w /\
  is_ok (call randn self (set_output out rd a) w).1 = is_ok (call randn self a w).1 /\
  sched_state (call randn self (set_output out rd a) w).2
    = sched_state (call randn self a w).2.
Proof.
  assert (Hgen : generate randn self (set_output out rd a) w = generate randn self a w)
    by (apply generate_ext; reflexivity).
  split; [exact Hgen|]. unfold call. rewrite !bind_run, Hgen.
  destruct (generate randn self a w) as [[img|e] w1]; [|split; reflexivity].
  unfold convert_output. cbn [output_type return_dict set_output].
  destruct (py_eq_str out "pil"), (py_eq_str (output_type a) "pil"), rd, (return_dict a);
    split; reflexivity.
Qed.

(** X7. [eta] is ignored by a scheduler whose [step] has no parameter
    [eta]: a call with any other [eta] is the same call. *)
Theorem eta_is_ignored_by_other_schedulers self a w (e : float) :
  "eta" ∉ step_parameters (scheduler self) ->
  call randn self (set_eta e a) w = call randn self a w.
Proof.
  intros Heta. unfold call. apply bind_ext; [|intros img w1; reflexivity].
  apply generate_ext; try reflexivity.
  unfold prepare_extra_step_kwargs. cbn [eta generator set_eta].
  rewrite (bool_decide_eq_false_2 ("eta" ∈ _)) by exact Heta. reflexivity.
Qed.

(** X8. When the latents are supplied, the generator is only handed to
    the scheduler step: with a scheduler whose [step] has no parameter
    [generator], a call with any other generator is the same call. *)
Theorem generator_is_unused_with_given_latents self a w (g : option G) (x : tensor F) :
  latents a = Some x ->
  "generator" ∉ step_parameters (scheduler self) ->
  call randn self (set_generator g a) w = call randn self a w.
Proof.
  intros Hlat Hgen. unfold call. apply bind_ext; [|intros img w1; reflexivity].
  apply generate_ext; try reflexivity.
  - cbn [latents set_generator]. congruence.
  - unfold prepare_extra_step_kwargs. cbn [eta generator set_generator].
    rewrite (bool_decide_eq_false_2 ("generator" ∈ _)) by exact Hgen. reflexivity.
Qed.
End Interference.

(** ** Whole runs, failed ones included *)

Section WholeRuns.
Context {F : Type} `{Scalar F} {T S G Pil : Type}.
Variable randn : list nat -> option G -> list F.
Local Abbreviation pipeline := (@RDMPipeline F T S G Pil).
Local Abbreviation args := (@call_args F G).
Local Abbreviation event := (@event F T G).
Local Abbreviation world := (@world F T S G).
Local Abbreviation M := (@M F T S G).
Implicit Types (self : pipeline) (a : args) (w : world) (evs : list event).

(** A run that fails stops there. *)
Lemma bind_stops {A B} (m : M A) (k : A -> M B) w :
  is_ok (m w).1 = false ->
  is_ok ((m ≫= k) w).1 = false /\ ((m ≫= k) w).2 = (m w).2.
Proof. rewrite bind_run. destruct (m w) as [[x|e] w1]; [discriminate|auto]. Qed.

Lemma bind_fails {A B} (m : M A) (k : A -> M B) w :
  (forall x w1, is_ok (k x w1).1 = false) -> is_ok ((m ≫= k) w).1 = false.
Proof. intros Hk. rewrite bind_run. destruct (m w) as [[x|e] w1]; [apply Hk|reflexivity]. Qed.

(** The events of one iteration, whatever its outcome. *)
Lemma denoise_step_events (P : event -> Prop) self a cs c kw i t x :
  (forall x0 x1, P (EvScaleModelInput x0 t x1)) ->
  (forall x1, P (EvUnet x1 t c)) ->
  (forall np y, P (EvStep np t x kw y)) ->
  (callback a = true -> forall y, P (EvCallback i t y)) ->
  behaves P (fun _ => True) (denoise_step self a cs c kw i t x).
Proof.
  intros Hscale Hunet Hstep Hcb. unfold denoise_step.
  apply behaves_bind; [case_match; [apply behaves_lift; done|apply behaves_ret]|intros x0].
  apply behaves_bind; [|intros x1].
  { intros w. unfold sched_scale_model_input.
    destruct (scale_model_input _ _ _ _) as [s' y]. eexists. split; [reflexivity|].
    split; [|done]. repeat constructor. apply Hscale. }
  apply behaves_bind; [apply behaves_emit, Hunet|intros []].
  apply behaves_bind; [case_match; [apply behaves_lift; done|apply behaves_ret]|intros np].
  apply behaves_bind; [|intros y].
  { intros w. unfold sched_step. case_decide.
    - destruct (step (scheduler self) _ _ _ _ _) as [s' y]. eexists. split; [reflexivity|].
      split; [|done]. repeat constructor. apply Hstep.
    - exists []. cbn. rewrite app_nil_r. split; [reflexivity|]. split; [constructor|done]. }
  apply behaves_bind; [|intros []; apply behaves_ret].
  destruct (callback a); cbn [andb]; [|apply behaves_ret].
  case_match; [apply behaves_emit, Hcb; reflexivity|apply behaves_ret].
Qed.

Lemma denoise_events (P : event -> Prop) self a cs c x :
  P (EvSetTimesteps (num_inference_steps a)) ->
  (forall x0 t x1, P (EvScaleModelInput x0 t x1)) ->
  (forall x1 t, P (EvUnet x1 t c)) ->
  (forall np t x kw y, P (EvStep np t x kw y)) ->
  (callback a = true -> forall i t y, P (EvCallback i t y)) ->
  behaves P (fun _ => True) (denoise self a cs c x).
Proof.
  intros Hset Hscale Hunet Hstep Hcb. unfold denoise.
  apply behaves_bind; [|intros []].
  { intros w. eexists. split; [reflexivity|]. split; [|done]. repeat constructor. exact Hset. }
  apply behaves_bind; [|intros s].
  { intros w. exists []. cbn. rewrite app_nil_r. split; [reflexivity|].
    split; [constructor|done]. }
  generalize (tmap (fun v => fmul v (init_noise_sigma (scheduler self) s)) x).
  generalize 0%nat. induction (timesteps (scheduler self) s) as [|t ts IH]; intros i y;
    cbn [denoise_loop]; [apply behaves_ret|].
  apply behaves_bind; [|intros z; apply IH].
  apply denoise_step_events; auto.
Qed.

(** A property of the events of every stage is one of every run. *)
Lemma generate_events (P : event -> Prop) self a :
  (forall e, stage_of e = Embedding -> P e) ->
  (forall b, behaves P (fun _ => True) (prepare_latents randn self a b)) ->
  (forall cs c x, behaves P (fun _ => True) (denoise self a cs c x)) ->
  (forall z, behaves P (fun _ => True) (decode_latents self z)) ->
  behaves P (fun _ => True) (generate randn self a).
Proof.
  intros Hemb Hprep Hden Hdec. unfold generate.
  apply behaves_bind; [apply behaves_lift; done|intros [prompts cs]].
  apply behaves_bind; [|intros c0].
  { eapply behaves_weaken; [exact Hemb|done|apply encode_prompt_behaves]. }
  apply behaves_bind; [apply behaves_lift; done|intros c].
  apply behaves_bind; [apply Hprep|intros x0].
  apply behaves_bind; [apply Hden|intros z]. apply Hdec.
Qed.

Lemma other_stage_events (P : event -> Prop) (k : stage) {A} (m : M A) :
  (forall e, stage_of e = k -> P e) ->
  behaves (fun e => stage_of e = k) not_type_error m ->
  behaves P (fun _ => True) m.
Proof. intros HP Hm. eapply behaves_weaken; [exact HP|done|exact Hm]. Qed.

Lemma denoise_starts self a cs c x w :
  exists evs,
    trace (denoise self a cs c x w).2
      = trace w ++ EvSetTimesteps (num_inference_steps a) :: evs /\
    Forall (fun e => stage_of e = Scheduling) evs.
Proof.
  rewrite denoise_run. cbn zeta.
  match goal with |- context [denoise_loop _ _ _ _ _ _ ?ts ?y ?w1] =>
    destruct (denoise_loop_behaves self a cs c ts 0 y w1) as (evs & Htr & Hev & _)
  end.
  exists evs. rewrite Htr. cbn [trace]. rewrite <- app_assoc. split; [reflexivity|].
  eapply Forall_impl; [exact Hev|]. intros e [He _]. exact He.
Qed.

(** What [prepare_latents] appends to the trace, whatever its outcome. *)
Lemma prepare_latents_events self a (b : nat) w :
  trace (prepare_latents randn self a b w).2 =
    trace w ++ match latents a with
               | None => [EvRandn (latents_shape self a b)]
               | Some _ => []
               end.
Proof.
  unfold prepare_latents, randn_tensor.
  destruct (latents a); [case_decide; cbn; rewrite app_nil_r; reflexivity|].
  run_simpl. case_decide; reflexivity.
Qed.

(** The events of a run, by stage; the second block is empty in a run
    that failed before the latents, and else holds the draw of the
    latents when none were supplied. *)
Lemma stages_of_run self a w :
  exists e1 e2 e3 e4,
    trace (call randn self a w).2 = trace w ++ e1 ++ e2 ++ e3 ++ e4 /\
    Forall (fun e => stage_of e = Embedding) e1 /\
    Forall (fun e => stage_of e = Scheduling) e3 /\
    Forall (fun e => stage_of e = Decoding) e4 /\
    (e3 = [] -> sched_state (call randn self a w).2 = sched_state w) /\
    ((e2 = [] /\ e3 = [] /\ is_ok (call randn self a w).1 = false) \/
     (exists prompts cs,
        check_inputs a = Ok (prompts, cs) /\
        e2 = match latents a with
             | None => [EvRandn (latents_shape self a (length prompts))]
             | Some _ => []
             end)).
Proof.
  unfold call, generate. run_simpl.
  destruct (check_inputs a) as [[prompts cs]|e]; run_simpl.
  2:{ exists [], [], [], []. rewrite ?app_nil_r. repeat split; auto. }
  destruct (encode_prompt_behaves self a prompts w) as (e1 & Ht1 & He1 & _).
  pose proof (encode_prompt_keeps_sched self a prompts w) as Hs1.
  destruct (encode_prompt self a prompts w) as [[c0|e] w1]; run_simpl; cbn [fst snd] in *.
  2:{ exists e1, [], [], []. rewrite ?app_nil_r. repeat split; auto. }
  destruct (guidance_embeddings _ c0) as [c|e]; run_simpl.
  2:{ exists e1, [], [], []. rewrite ?app_nil_r. repeat split; auto. }
  pose proof (prepare_latents_events self a (length prompts) w1) as Ht2.
  pose proof (prepare_latents_keeps_sched randn self a (length prompts) w1) as Hs2.
  set (e2 := match latents a with
             | None => [EvRandn (latents_shape self a (length prompts))]
             | Some _ => []
             end : list event) in *.
  destruct (prepare_latents randn self a (length prompts) w1) as [[x0|e] w2];
    run_simpl; cbn [fst snd] in *.
  2:{ exists e1, e2, [], []. rewrite ?app_nil_r, Ht2, Ht1, <- app_assoc.
      repeat split; eauto. congruence. }
  destruct (denoise_starts self a cs c x0 w2) as (e3 & Ht3 & He3).
  destruct (denoise self a cs c x0 w2) as [[z|e] w3]; run_simpl; cbn [fst snd] in *.
  2:{ exists e1, e2, (EvSetTimesteps (num_inference_steps a) :: e3), [].
      rewrite ?app_nil_r, Ht3, Ht2, Ht1, <- !app_assoc.
      repeat split; eauto. discriminate. }
  destruct (decode_latents_behaves self z w3) as (e4 & Ht4 & He4 & _).
  destruct (decode_latents self z w3) as [[img|e] w4]; run_simpl; cbn [fst snd] in *.
  2:{ exists e1, e2, (EvSetTimesteps (num_inference_steps a) :: e3), e4.
      rewrite Ht4, Ht3, Ht2, Ht1, <- !app_assoc.
      repeat split; eauto. discriminate. }
  destruct (convert_output_behaves self a img w4) as (e5 & Ht5 & He5 & _).
  exists e1, e2, (EvSetTimesteps (num_inference_steps a) :: e3), (e4 ++ e5).
  rewrite Ht5, Ht4, Ht3, Ht2, Ht1, <- !app_assoc.
  repeat split; eauto; [apply Forall_app; auto|discriminate].
Qed.

(** X9. The calls of a run come in four blocks that never interleave,
    whatever the outcome: tokenizer and embedding network; the draw of
    the latents; the scheduler set-up and the loop (scheduler, denoiser,
    callback); decoding and conversion. A run that made no call of the
    third block leaves the scheduler as it was. *)
Theorem stages_never_interleave self a w :
  exists e1 e2 e3 e4,
    trace (call randn self a w).2 = trace w ++ e1 ++ e2 ++ e3 ++ e4 /\
    Forall (fun e => stage_of e = Embedding) e1 /\
    Forall (fun e => stage_of e = Sampling) e2 /\
    Forall (fun e => stage_of e = Scheduling) e3 /\
    Forall (fun e => stage_of e = Decoding) e4 /\
    (e3 = [] -> sched_state (call randn self a w).2 = sched_state w).
Proof.
  destruct (stages_of_run self a w)
    as (e1 & e2 & e3 & e4 & Htr & He1 & He3 & He4 & Hs & He2).
  exists e1, e2, e3, e4. repeat split; try assumption.
  destruct He2 as [(-> & _)|(prompts & cs & _ & ->)]; [constructor|].
  destruct (latents a); repeat constructor.
Qed.

(** X10. Without a callback nothing is called back, in failed runs as
    in completed ones ([callback_steps] is validated all the same). *)
Theorem absent_callback_is_never_called self a w :
  callback a = false ->
  exists evs,
    trace (call randn self a w).2 = trace w ++ evs /\
    Forall (fun e => forall i t x, e <> EvCallback i t x) evs /\
    callback_calls evs = [].
Proof.
  intros Hcb.
  assert (Hrun : behaves (fun e : event => forall i t x, e <> EvCallback i t x)
                   (fun _ => True) (call randn self a)).
  { unfold call. apply behaves_bind; [|intros img].
    - apply generate_events.
      + intros e He i t x ->. discriminate.
      + intros b. apply (@other_stage_events _ Sampling); [|apply prepare_latents_behaves].
        intros e He i t x ->. discriminate.
      + intros cs c x. apply denoise_events; try done. congruence.
      + intros z. apply (@other_stage_events _ Decoding); [|apply decode_latents_behaves].
        intros e He i t x ->. discriminate.
    - apply (@other_stage_events _ Decoding); [|apply convert_output_behaves].
      intros e He i t x ->. discriminate. }
  destruct (Hrun w) as (evs & Htr & Hev & _). exists evs.
  split; [exact Htr|]. split; [exact Hev|].
  clear Htr. induction Hev as [|e evs He _ IH]; [reflexivity|].
  change (e :: evs) with ([e] ++ evs). rewrite callback_calls_app, IH.
  destruct e; try reflexivity. exfalso. eapply He. reflexivity.
Qed.
End WholeRuns.

(** ** What a run calls, and how often *)

Section Counting.
Context {F : Type} `{Scalar F} {T S G Pil : Type}.
Variable randn : list nat -> option G -> list F.
Local Abbreviation pipeline := (@RDMPipeline F T S G Pil).
Local Abbreviation args := (@call_args F G).
Local Abbreviation event := (@event F T G).
Local Abbreviation world := (@world F T S G).
Local Abbreviation M := (@M F T S G).
Implicit Types (self : pipeline) (a : args) (w : world) (evs : list event).

Lemma unet_timesteps_app evs evs' :
  unet_timesteps (evs ++ evs') = unet_timesteps evs ++ unet_timesteps evs'.
Proof. apply omap_app. Qed.

Lemma set_timesteps_calls_app evs evs' :
  set_timesteps_calls (evs ++ evs') = set_timesteps_calls evs ++ set_timesteps_calls evs'.
Proof. apply omap_app. Qed.

Lemma randn_calls_app evs evs' :
  randn_calls (evs ++ evs') = randn_calls evs ++ randn_calls evs'.
Proof. apply omap_app. Qed.

Lemma scheduling_calls_other_stage evs :
  Forall (fun e => stage_of e <> Scheduling) evs ->
  unet_timesteps evs = [] /\ set_timesteps_calls evs = [].
Proof.
  induction 1 as [|e evs He _ [IH1 IH2]]; [split; reflexivity|].
  change (e :: evs) with ([e] ++ evs).
  rewrite unet_timesteps_app, set_timesteps_calls_app, IH1, IH2.
  destruct e; cbn in *; done.
Qed.

Lemma randn_calls_other_stage evs :
  Forall (fun e => stage_of e <> Sampling) evs -> randn_calls evs = [].
Proof.
  induction 1 as [|e evs He _ IH]; [reflexivity|].
  change (e :: evs) with ([e] ++ evs). rewrite randn_calls_app, IH.
  destruct e; cbn in *; done.
Qed.

Lemma loop_trace_unet_calls self a cs c kw i ts x evs z :
  loop_trace self a cs c kw i ts x evs z ->
  unet_timesteps evs = ts /\ set_timesteps_calls evs = [].
Proof.
  induction 1 as [|i t ts x x0 x1 np y evs z _ _ _ [IH1 IH2]]; [split; reflexivity|].
  unfold iteration_events.
  rewrite !unet_timesteps_app, !set_timesteps_calls_app, IH1, IH2.
  destruct (callback a && bool_decide (Z.of_nat i mod cs = 0)); split; reflexivity.
Qed.

(** X11. In a call that completes, [scheduler.set_timesteps] is called
    once, with [num_inference_steps]; the denoiser is then called once
    for each of the timesteps the scheduler has at that point, in their
    order, with or without guidance, and so is [scheduler.step]. *)
Theorem denoiser_is_called_once_per_timestep self a w out w' :
  call randn self a w = (Ok out, w') ->
  exists evs,
    let s := set_timesteps (scheduler self) (sched_state w) (num_inference_steps a) in
    trace w' = trace w ++ evs /\
    set_timesteps_calls evs = [num_inference_steps a] /\
    unet_timesteps evs = timesteps (scheduler self) s /\
    map fst (step_results evs) = timesteps (scheduler self) s.
Proof.
  intros Hcall. apply call_ok_trace in Hcall
    as (prompts & cs & c & c' & x0 & z & w1 & pre & evs & post
        & _ & _ & _ & Htr & Hpre & Hpost & Hloop).
  cbn zeta in Hloop.
  destruct (scheduling_calls_other_stage Hpre) as [Hu1 Hs1].
  destruct (scheduling_calls_other_stage Hpost) as [Hu2 Hs2].
  destruct (callback_calls_other_stage Hpre) as [_ Hr1].
  destruct (callback_calls_other_stage Hpost) as [_ Hr2].
  destruct (loop_trace_unet_calls Hloop) as [Hu Hs].
  destruct (loop_trace_callbacks Hloop) as [Hr _].
  exists (pre ++ EvSetTimesteps (num_inference_steps a) :: evs ++ post). cbn zeta.
  split; [exact Htr|].
  change (EvSetTimesteps (num_inference_steps a) :: evs ++ post)
    with ([EvSetTimesteps (num_inference_steps a) : event] ++ evs ++ post).
  rewrite !set_timesteps_calls_app, !unet_timesteps_app, !step_results_app.
  rewrite Hu1, Hu2, Hs1, Hs2, Hr1, Hr2, Hu, Hs. cbn. rewrite !app_nil_r. auto.
Qed.

(** X12. With latents supplied, nothing is drawn in any run; without,
    a call that completes has drawn once, a sample of shape
    [(batch_size * num_images_per_prompt, in_channels, height // f,
    width // f)]. *)
Theorem latents_are_drawn_once_or_given self a w :
  exists evs,
    trace (call randn self a w).2 = trace w ++ evs /\
    (latents a <> None -> randn_calls evs = []) /\
    (latents a = None -> is_ok (call randn self a w).1 = true ->
       exists prompts cs,
         check_inputs a = Ok (prompts, cs) /\
         randn_calls evs = [latents_shape self a (length prompts)]).
Proof.
  destruct (stages_of_run randn self a w)
    as (e1 & e2 & e3 & e4 & Htr & He1 & He3 & He4 & _ & Hcase).
  exists (e1 ++ e2 ++ e3 ++ e4). split; [exact Htr|].
  assert (H1 : randn_calls e1 = []).
  { apply randn_calls_other_stage. eapply Forall_impl; [exact He1|]. cbn. intros ? ->. done. }
  assert (H3 : randn_calls e3 = []).
  { apply randn_calls_other_stage. eapply Forall_impl; [exact He3|]. cbn. intros ? ->. done. }
  assert (H4 : randn_calls e4 = []).
  { apply randn_calls_other_stage. eapply Forall_impl; [exact He4|]. cbn. intros ? ->. done. }
  rewrite !randn_calls_app, H1, H3, H4, app_nil_r. cbn [app].
  destruct Hcase as [(-> & _ & Hfail)|(prompts & cs & Hcheck & ->)].
  - split; [reflexivity|]. intros _ Hok. congruence.
  - split.
    + intros Hlat. destruct (latents a); [reflexivity|done].
    + intros Hlat _. exists prompts, cs. rewrite Hlat. auto.
Qed.
End Counting.

(** ** Arguments that validation lets through *)

Section LateFailures.
Context {F : Type} `{Scalar F} {T S G Pil : Type}.
Variable randn : list nat -> option G -> list F.
Local Abbreviation pipeline := (@RDMPipeline F T S G Pil).
Local Abbreviation args := (@call_args F G).
Local Abbreviation event := (@event F T G).
Local Abbreviation world := (@world F T S G).
Local Abbreviation M := (@M F T S G).
Implicit Types (self : pipeline) (a : args) (w : world) (evs : list event).

Lemma encode_prompt_needs_images self a prompts w :
  num_images_per_prompt a <= 0 -> is_ok (encode_prompt self a prompts w).1 = false.
Proof.
  intros Hn. unfold encode_prompt.
  apply bind_fails. intros c0 w1. apply bind_fails. intros c1 w2.
  apply bind_fails. intros [bs_embed seq_len] w3. run_simpl.
  destruct (repeat3 1 (num_images_per_prompt a) 1 c1) as [y|e] eqn:Hrep; [|reflexivity].
  run_simpl. unfold view3.
  case_decide; [reflexivity|]. rewrite decide_True; [reflexivity|].
  unfold repeat3 in Hrep. case_decide; [discriminate|]. nia.
Qed.

(** X14. [num_images_per_prompt] is not validated: with a value of 0
    or less every call fails, and does so while the conditioning is
    built, with the tokenizer and the embedding network the only
    collaborators called and the scheduler as it was. *)
Theorem images_per_prompt_must_be_positive self a w :
  num_images_per_prompt a <= 0 ->
  exists e evs,
    call randn self a w = (Err e, World (sched_state w) (trace w ++ evs)) /\
    Forall (fun ev => stage_of ev = Embedding) evs.
Proof.
  intros Hn. unfold call, generate. run_simpl.
  destruct (check_inputs a) as [[prompts cs]|e]; run_simpl.
  2:{ exists e, []. rewrite app_nil_r. destruct w. split; [reflexivity|constructor]. }
  pose proof (@encode_prompt_needs_images self a prompts w Hn) as Hfail.
  destruct (encode_prompt_behaves self a prompts w) as (evs & Htr & Hev & _).
  pose proof (encode_prompt_keeps_sched self a prompts w) as Hs.
  destruct (encode_prompt self a prompts w) as [[c|e] [s1 t1]]; [discriminate|].
  cbn in Htr, Hs. subst. exists e, evs. auto.
Qed.

(** X17. Negative sizes are not rejected by validation, which only
    asks for multiples of 8: such a call fails when the latents are
    drawn, or before while the conditioning is built, in any case before
    the scheduler is set up, and neither the denoiser nor the decoder is
    called. *)
Theorem negative_size_fails_at_the_latents self a w (prompts : list string) (cs : Z) :
  check_inputs a = Ok (prompts, cs) ->
  latents a = None ->
  0 < vae_scale_factor self ->
  height a < 0 \/ width a < 0 ->
  exists e evs,
    call randn self a w = (Err e, World (sched_state w) (trace w ++ evs)) /\
    Forall (fun ev => stage_of ev = Embedding \/ stage_of ev = Sampling) evs.
Proof.
  intros Hcheck Hlat Hf Hneg. unfold call, generate. run_simpl. rewrite Hcheck. run_simpl.
  destruct (encode_prompt_behaves self a prompts w) as (evs & Htr & Hev & _).
  pose proof (encode_prompt_keeps_sched self a prompts w) as Hs.
  assert (Hev' : Forall (fun ev : event => stage_of ev = Embedding \/ stage_of ev = Sampling) evs)
    by (eapply Forall_impl; [exact Hev|]; cbn; auto).
  destruct (encode_prompt self a prompts w) as [[c0|e] [s1 t1]]; run_simpl;
    cbn in Htr, Hs; subst; [|eauto].
  destruct (guidance_embeddings _ c0) as [c|e]; run_simpl; [|eauto].
  unfold prepare_latents, randn_tensor. rewrite Hlat. run_simpl.
  rewrite decide_False.
  - run_simpl. eexists _, (evs ++ [_]). rewrite <- app_assoc. split; [reflexivity|].
    apply Forall_app. split; [exact Hev'|]. constructor; [right; reflexivity|constructor].
  - unfold latents_shape. intros Hall.
    apply Forall_cons in Hall as [_ Hall]. apply Forall_cons in Hall as [_ Hall].
    apply Forall_cons in Hall as [Hh Hall]. apply Forall_cons in Hall as [Hw _].
    destruct Hneg as [Hneg|Hneg].
    + pose proof (Z.div_lt_upper_bound (height a) (vae_scale_factor self) 0 Hf). lia.
    + pose proof (Z.div_lt_upper_bound (width a) (vae_scale_factor self) 0 Hf). lia.
Qed.

(** X15. With [scaling_factor = 0.0] in the autoencoder's
    configuration, [1 / scaling_factor] raises [ZeroDivisionError] when
    the loop is over: no call completes, and [vae.decode] and
    [numpy_to_pil] are never called. *)
Theorem zero_scaling_factor_never_decodes self a w :
  PrimFloat.eqb (scaling_factor (vae self)) 0%float = true ->
  (forall z w1, decode_latents self z w1 = (Err ZeroDivisionError, w1)) /\
  is_ok (call randn self a w).1 = false /\
  exists evs,
    trace (call randn self a w).2 = trace w ++ evs /\
    Forall (fun ev => stage_of ev <> Decoding) evs.
Proof.
  intros Hsf.
  assert (Hdec : forall z w1, decode_latents self z w1 = (Err ZeroDivisionError, w1)).
  { intros z w1. unfold decode_latents. rewrite Hsf. reflexivity. }
  assert (Hgen : is_ok (generate randn self a w).1 = false).
  { unfold generate. apply bind_fails. intros [prompts cs] w1.
    do 4 (apply bind_fails; intros ? ?). rewrite Hdec. reflexivity. }
  split; [exact Hdec|]. unfold call.
  destruct (@bind_stops _ _ _ _ _ _ (generate randn self a)
              (fun image => convert_output self a image) w Hgen)
    as [Hfail Hw].
  split; [exact Hfail|]. rewrite Hw.
  assert (Hrun : behaves (fun ev : event => stage_of ev <> Decoding) (fun _ => True)
                   (generate randn self a)).
  { apply generate_events.
    - intros e ->. discriminate.
    - intros b. eapply other_stage_events with (k := Sampling);
        [|apply prepare_latents_behaves]. intros e ->. discriminate.
    - intros cs c x. apply denoise_events; discriminate.
    - intros z w1. rewrite Hdec. exists []. cbn. rewrite app_nil_r.
      split; [reflexivity|]. split; [constructor|done]. }
  destruct (Hrun w) as (evs & Htr & Hev & _). eauto.
Qed.
End LateFailures.

(** ** The conditioning without retrieved images *)

Section TextOnly.
Context {F : Type} `{Scalar F} {T S G Pil : Type}.
Local Abbreviation pipeline := (@RDMPipeline F T S G Pil).
Local Abbreviation args := (@call_args F G).
Local Abbreviation event := (@event F T G).
Local Abbreviation world := (@world F T S G).
Implicit Types (self : pipeline) (a : args) (w : world) (evs : list event).

(** X13. Without retrieved images, and with text features of shape
    [(B, D)] for [B] prompts, only the tokenizer and the text encoder
    are called; the conditioning has shape
    [(B * num_images_per_prompt, 1, D)], and holds the text embedding of
    each prompt, each entry divided by the norm of the embedding,
    [num_images_per_prompt] times in a row. *)
Theorem text_only_conditioning self a prompts w (L D : nat) (trows : list (list F)) :
  let tok := tokenizer self in
  let ids := tokenize tok prompts in
  let n := Z.to_nat (num_images_per_prompt a) in
  let B := length prompts in
  let normalized := fun r : list F => map (fun x => fdiv x (vector_norm r)) r in
  retrieved_images a = None ->
  last (shape ids) = Some L -> Z.of_nat L <= model_max_length tok ->
  get_text_features (clip self) ids = Tensor [B; D] (concat trows) ->
  length trows = B -> Forall (fun r => length r = D) trows ->
  (0 < B)%nat -> 0 < num_images_per_prompt a ->
  exists c,
    encode_prompt self a prompts w =
      (Ok c, World (sched_state w)
               (trace w ++ [EvTokenizer prompts; EvTextFeatures ids])) /\
    shape c = [(B * n)%nat; 1%nat; D] /\
    data c = concat (concat (map (fun tr => replicate n (normalized tr)) trows)).
Proof.
  intros tok ids n B normalized Hnone HL Hmax Htext Htrows Htlen HB Hn.
  set (blocks := map normalize_row trows).
  assert (Hblocks : Forall (fun m => length m = (1 * D)%nat) blocks).
  { unfold blocks. eapply Forall_impl; [exact (Forall_length_normalize Htlen)|].
    intros r Hr. cbn beta in *. lia. }
  assert (Hlen : length blocks = B) by (unfold blocks; rewrite length_map; exact Htrows).
  exists (Tensor [(B * n)%nat; 1%nat; D] (concat (map (tile n) blocks))).
  split; [|split; [reflexivity|]].
  - unfold encode_prompt. rewrite bind_run.
    rewrite (@encode_text_ok _ _ _ _ _ _ self prompts w B L D trows HL Hmax Htext Htrows Htlen).
    rewrite Hnone. fold blocks. run_simpl. cbn [shape]. run_simpl.
    rewrite (@repeat3_dim1 _ (num_images_per_prompt a) B 1 D blocks ltac:(lia) Hlen Hblocks).
    run_simpl. cbn [shape].
    replace (Z.of_nat 1) with (Z.of_nat 1%nat) by reflexivity.
    rewrite view3_batch by lia. reflexivity.
  - cbn [data]. unfold blocks, tile. rewrite concat_concat_map, !map_map. reflexivity.
Qed.

Lemma slice_dim1_matrix {A} (from_start : bool) (k B L : nat) (l : list A) :
  slice_dim1 from_start k (Tensor [B; L] l) =
    Ok (Tensor [B; if from_start then Nat.min k L else (L - k)%nat]
          (concat (map (if from_start then take k else drop k) (rows B L l)))).
Proof.
  unfold slice_dim1. cbn [shape data numel foldr]. rewrite !Nat.mul_1_r.
  destruct from_start; reflexivity.
Qed.

(** X18. A tokenizer that returns more than [model_max_length] token
    ids per prompt, although asked to truncate, gets them cut: the
    removed columns are decoded and reported in one warning, and the text
    encoder is called with the first [model_max_length] columns, from
    which the text embedding is computed. *)
Theorem untruncated_ids_are_cut_with_a_warning self prompts w (B L : nat) (ids : list Z) :
  let tok := tokenizer self in
  let k := Z.to_nat (model_max_length tok) in
  let kept := Tensor [B; k] (concat (map (take k) (rows B L ids))) in
  let removed := Tensor [B; (L - k)%nat] (concat (map (drop k) (rows B L ids))) in
  tokenize tok prompts = Tensor [B; L] ids ->
  0 <= model_max_length tok < Z.of_nat L ->
  encode_text self prompts w =
    (x ← l2_normalize (get_text_features (clip self) kept); unsqueeze1 x,
     World (sched_state w)
       (trace w ++ [EvTokenizer prompts; EvBatchDecode removed;
                    EvWarning (model_max_length tok) (batch_decode tok removed);
                    EvTextFeatures kept])).
Proof.
  intros tok k kept removed Hids Hmax. unfold encode_text. fold tok. rewrite Hids.
  run_simpl. cbn [shape last]. rewrite decide_True by lia. fold k.
  rewrite !slice_dim1_matrix. run_simpl.
  replace (Nat.min k L) with k by lia. fold removed. fold kept.
  rewrite <- !app_assoc. cbn [app]. cbv [mbind result_bind].
  destruct (l2_normalize _) as [x|e]; run_simpl; [|reflexivity].
  destruct (unsqueeze1 x); reflexivity.
Qed.
End TextOnly.

(** ** The layout of the returned array *)

Section Layout.
Context {A : Type}.
Implicit Types (l : list A) (rs : list (list A)).

Lemma lookup_concat_rows (k : nat) rs : forall i j : nat,
  Forall (fun r => length r = k) rs -> (j < k)%nat ->
  concat rs !! (i * k + j)%nat = rs !! i ≫= (.!! j).
Proof.
  induction rs as [|r rs IH]; intros i j Hrs Hj; [reflexivity|].
  apply Forall_cons in Hrs as [Hr Hrs]. cbn [concat]. destruct i as [|i].
  - cbn. apply lookup_app_l. lia.
  - rewrite lookup_app_r by lia. cbn [lookup list_lookup].
    replace (Datatypes.S i * k + j - length r)%nat with (i * k + j)%nat by lia.
    apply IH; assumption.
Qed.

Lemma rows_lookup (k : nat) : forall (n i : nat) l,
  (i < n)%nat -> rows n k l !! i = Some (take k (drop (i * k) l)).
Proof.
  induction n as [|n IH]; intros i l Hi; [lia|]. cbn [rows]. destruct i as [|i].
  - reflexivity.
  - cbn [lookup list_lookup]. rewrite IH by lia. rewrite drop_drop.
    repeat f_equal; lia.
Qed.

Lemma length_rows (n k : nat) : forall l, length (rows n k l) = n.
Proof. induction n as [|n IH]; intros l; cbn [rows length]; [reflexivity|]. rewrite IH. reflexivity. Qed.

Lemma rows_lengths (k : nat) : forall (n : nat) l,
  length l = (n * k)%nat -> Forall (fun r => length r = k) (rows n k l).
Proof.
  induction n as [|n IH]; intros l Hl; cbn [rows]; constructor.
  - rewrite length_take. lia.
  - apply IH. rewrite length_drop. lia.
Qed.

Lemma transpose_lookup : forall (k j : nat) rs,
  (j < k)%nat ->
  transpose k rs !! j = Some (concat (map (fun r => take 1 (drop j r)) rs)).
Proof.
  induction k as [|k IH]; intros j rs Hj; [lia|]. cbn [transpose]. destruct j as [|j].
  - reflexivity.
  - cbn [lookup list_lookup]. rewrite IH by lia. rewrite map_map.
    do 2 f_equal. apply map_ext. intros r. rewrite drop_drop. reflexivity.
Qed.

Lemma length_transpose (k : nat) rs : length (transpose k rs) = k.
Proof.
  revert rs. induction k as [|k IH]; intros rs; cbn [transpose length]; [reflexivity|].
  rewrite IH. reflexivity.
Qed.

Lemma column_lookup (j i : nat) rs :
  Forall (fun r => (j < length r)%nat) rs ->
  concat (map (fun r => take 1 (drop j r)) rs) !! i = rs !! i ≫= (.!! j).
Proof.
  intros Hrs.
  replace i with (i * 1 + 0)%nat at 1 by lia.
  rewrite lookup_concat_rows with (k := 1%nat); [|..|lia].
  - rewrite list_lookup_fmap. destruct (rs !! i) as [r|]; [|reflexivity]. cbn.
    rewrite lookup_take_lt by lia. rewrite lookup_drop. f_equal. lia.
  - rewrite Forall_map. eapply Forall_impl; [exact Hrs|]. intros r Hr. cbn beta in *.
    rewrite length_take, length_drop. lia.
Qed.

Lemma transpose_lengths (k : nat) rs :
  Forall (fun r => length r = k) rs ->
  Forall (fun col => length col = length rs) (transpose k rs).
Proof.
  intros Hrs. apply Forall_lookup. intros j col Hcol.
  assert (Hj : (j < k)%nat).
  { apply lookup_lt_Some in Hcol. rewrite length_transpose in Hcol. exact Hcol. }
  rewrite transpose_lookup in Hcol by exact Hj. injection Hcol as <-.
  rewrite (@length_concat_rows _ 1%nat).
  - rewrite length_map. lia.
  - rewrite Forall_map. eapply Forall_impl; [exact Hrs|]. intros r Hr. cbn beta in *.
    rewrite length_take, length_drop. lia.
Qed.

(** [x.permute(0, 2, 3, 1)[b, i, j, k] = x[b, k, i, j]]. *)
Lemma permute_0231_lookup (x y : tensor A) (n c h wd : nat) :
  shape x = [n; c; h; wd] -> length (data x) = (n * c * h * wd)%nat ->
  permute_0231 x = Ok y ->
  shape y = [n; h; wd; c] /\
  length (data y) = (n * h * wd * c)%nat /\
  forall b i j k : nat, (b < n)%nat -> (i < h)%nat -> (j < wd)%nat -> (k < c)%nat ->
    data y !! (((b * h + i) * wd + j) * c + k)%nat
      = data x !! (((b * c + k) * h + i) * wd + j)%nat.
Proof.
  intros Hshape Hlen. unfold permute_0231. rewrite Hshape. intros [= <-]. cbn [shape data].
  split; [reflexivity|].
  set (image := fun m : list A => concat (transpose (h * wd) (rows c (h * wd) m))).
  assert (Hplanes : Forall (fun m => length m = (c * h * wd)%nat)
                      (rows n (c * h * wd) (data x))).
  { apply rows_lengths. lia. }
  assert (Hcols : forall m : list A, length m = (c * h * wd)%nat ->
            Forall (fun col => length col = c) (transpose (h * wd) (rows c (h * wd) m))).
  { intros m Hm. eapply Forall_impl; [apply transpose_lengths, rows_lengths; lia|].
    intros col Hcol. cbn beta in *. rewrite length_rows in Hcol. exact Hcol. }
  assert (Himages : Forall (fun m => length m = (h * wd * c)%nat)
                      (map image (rows n (c * h * wd) (data x)))).
  { rewrite Forall_map. eapply Forall_impl; [exact Hplanes|]. intros m Hm. cbn beta in *.
    unfold image. rewrite (length_concat_rows (Hcols m Hm)), length_transpose. reflexivity. }
  split.
  { rewrite (length_concat_rows Himages), length_map, length_rows. lia. }
  intros b i j k Hb Hi Hj Hk.
  assert (Hp : (i * wd + j < h * wd)%nat) by nia.
  replace (((b * h + i) * wd + j) * c + k)%nat
    with (b * (h * wd * c) + ((i * wd + j) * c + k))%nat by lia.
  rewrite (@lookup_concat_rows _ _ b ((i * wd + j) * c + k)%nat Himages) by nia.
  rewrite list_lookup_fmap, rows_lookup by exact Hb. cbn [fmap option_fmap option_map mbind option_bind].
  set (m := take (c * h * wd) (drop (b * (c * h * wd)) (data x))).
  assert (Hm : length m = (c * h * wd)%nat).
  { unfold m. rewrite length_take, length_drop. nia. }
  unfold image. rewrite (@lookup_concat_rows _ _ (i * wd + j)%nat k (Hcols m Hm)) by exact Hk.
  rewrite transpose_lookup by exact Hp. cbn [mbind option_bind].
  rewrite column_lookup.
  2:{ eapply Forall_impl; [apply rows_lengths; lia|]. intros r Hr. cbn beta in *. lia. }
  rewrite rows_lookup by exact Hk. cbn [mbind option_bind].
  rewrite lookup_take_lt by exact Hp. rewrite lookup_drop. unfold m.
  rewrite lookup_take_lt by nia. rewrite lookup_drop. f_equal. lia.
Qed.
End Layout.

Section ReturnedArray.
Context {F : Type} `{Scalar F} {T S G Pil : Type}.
Local Abbreviation pipeline := (@RDMPipeline F T S G Pil).
Local Abbreviation world := (@world F T S G).
Implicit Types (self : pipeline) (w : world).

(** X16. The decoded array is returned in channel-last layout: when
    the decoder gives [n] images of [c] channels, height [h] and width
    [wd], the array has shape [(n, h, wd, c)] and its entry
    [[b, i, j, k]] is [clamp(v / 2 + 0.5, 0, 1)] for the decoder's entry
    [v] at [[b, k, i, j]]. *)
Theorem returned_array_is_channel_last self (z img : tensor F) w w' (n c h wd : nat) :
  let decoded := vae_decode (vae self) (rescale self z) in
  decode_latents self z w = (Ok img, w') ->
  shape decoded = [n; c; h; wd] ->
  length (data decoded) = (n * c * h * wd)%nat ->
  shape img = [n; h; wd; c] /\
  length (data img) = (n * h * wd * c)%nat /\
  forall b i j k : nat, (b < n)%nat -> (i < h)%nat -> (j < wd)%nat -> (k < c)%nat ->
    data img !! (((b * h + i) * wd + j) * c + k)%nat
      = to_unit <$> data decoded !! (((b * c + k) * h + i) * wd + j)%nat.
Proof.
  intros decoded Hdec Hshape Hlen.
  apply decode_latents_ok in Hdec as (_ & _ & Hperm). fold decoded in Hperm.
  destruct (@permute_0231_lookup _ (tmap to_unit decoded) img n c h wd) as (Hs & Hl & Hix).
  - exact Hshape.
  - unfold tmap. cbn [data]. rewrite length_map. exact Hlen.
  - exact Hperm.
  - split; [exact Hs|]. split; [exact Hl|]. intros b i j k Hb Hi Hj Hk.
    rewrite (Hix b i j k Hb Hi Hj Hk). unfold tmap. cbn [data].
    apply list_lookup_fmap.
Qed.
End ReturnedArray.

(** * The properties on the small pipeline *)

Import Fixture.

(** ** The comparisons of binary64 *)

Lemma SFcompare_antisym (a b : spec_float) :
  SFcompare b a = option_map CompOpp (SFcompare a b).
Proof.
  destruct a as [sa|sa| |sa ma ea], b as [sb|sb| |sb mb eb]; cbn [SFcompare option_map];
    try reflexivity; try (destruct sa; reflexivity); try (destruct sb; reflexivity);
    try (destruct sa, sb; reflexivity).
  rewrite (Z.compare_antisym ea eb).
  destruct sa, sb; try reflexivity; destruct (ea ?= eb); cbn [CompOpp]; try reflexivity;
    rewrite (Pos.compare_cont_antisym ma mb Eq); reflexivity.
Qed.

Lemma SFcompare_refl (a : spec_float) : a <> S754_nan -> SFcompare a a = Some Eq.
Proof.
  destruct a as [s|s| |s m e]; cbn [SFcompare]; intros Ha; try done.
  - destruct s; reflexivity.
  - rewrite Z.compare_refl, Pos.compare_cont_refl. destruct s; reflexivity.
Qed.

Lemma SFcompare_None (a b : spec_float) :
  SFcompare a b = None -> a = S754_nan \/ b = S754_nan.
Proof. destruct a, b; cbn [SFcompare]; intros Hc; try discriminate; auto. Qed.

Lemma SFcompare_ordered (a b : spec_float) (c : comparison) :
  SFcompare a b = Some c -> SFleb a a = true /\ SFleb b b = true.
Proof.
  intros Hc.
  assert (Ha : a <> S754_nan) by (intros ->; discriminate).
  assert (Hb : b <> S754_nan) by (intros ->; destruct a; discriminate).
  unfold SFleb. rewrite !SFcompare_refl by assumption. auto.
Qed.

(** IEEE comparisons obey the laws of [FloatOrder]. *)
#[export] Instance float_order : FloatOrder float.
Proof.
  split.
  - intros x y. cbn [fle float_scalar]. rewrite !leb_spec. intros Hle.
    unfold SFleb in Hle at 1.
    destruct (SFcompare (Prim2SF x) (Prim2SF y)) as [c|] eqn:Hc; [|discriminate].
    exact (SFcompare_ordered _ _ Hc).
  - intros x y. cbn [fle flt float_scalar]. rewrite !leb_spec, ltb_spec. intros Hlt.
    unfold SFltb in Hlt.
    destruct (SFcompare (Prim2SF x) (Prim2SF y)) as [c|] eqn:Hc; [|discriminate].
    exact (SFcompare_ordered _ _ Hc).
  - intros x y. cbn [fle flt float_scalar]. rewrite !leb_spec, ltb_spec.
    intros Hlt Hx Hy. unfold SFleb at 1. rewrite SFcompare_antisym.
    unfold SFltb in Hlt.
    destruct (SFcompare (Prim2SF x) (Prim2SF y)) as [[| |]|] eqn:Hc;
      try reflexivity; try discriminate.
    apply SFcompare_None in Hc as [Hc|Hc]; rewrite Hc in *; discriminate.
  - vm_compute. reflexivity.
Qed.

(** The size check at the sizes 12 and 8. *)
Lemma size_check_witness :
  call test_randn test_pipe size_12_args w0
    = (Err (ValueError (NotDivisibleBy8 12 12)), w0) /\
  check_inputs test_args = Ok ([squirrel], 1).
Proof.
  destruct (size_check_is_divisibility_by_8 test_randn test_pipe size_12_args w0)
    as (_ & Hbad & _).
  destruct (size_check_is_divisibility_by_8 test_randn test_pipe test_args w0)
    as (_ & _ & Hgood).
  split.
  - apply Hbad; [discriminate|]. left. vm_compute. discriminate.
  - apply Hgood; [reflexivity|reflexivity|reflexivity|reflexivity|lia].
Defined.

(** C1, the claim as stated fails. With the test autoencoder the codec's
    factor is 2: a height and width of 12 are positive multiples of it
    and are rejected. With a factor of 16 a height and width of 8 are not
    multiples of it and pass validation. *)
Lemma size_check_ignores_codec_factor :
  vae_scale_factor test_pipe = 2 /\
  12 mod vae_scale_factor test_pipe = 0 /\
  (call test_randn test_pipe size_12_args w0).1 = Err (ValueError (NotDivisibleBy8 12 12)) /\
  vae_scale_factor (pipe_with vae_16 ddim_like) = 16 /\
  height test_args = 8 /\ width test_args = 8 /\
  8 mod vae_scale_factor (pipe_with vae_16 ddim_like) = 8 /\
  check_inputs test_args = Ok ([squirrel], 1) /\
  is_ok (call test_randn (pipe_with vae_16 ddim_like) test_args w0).1 = true.
Proof. vm_compute. repeat split; reflexivity. Qed.

(** Without guidance, on the small pipeline. *)
Lemma guidance_off_witness :
  let a := unguided_args in
  let r1 := encode_prompt test_pipe a [squirrel] w0 in
  let c := value (Tensor [] []) r1.1 in
  let r2 := prepare_latents test_randn test_pipe a 1 r1.2 in
  let x0 := value (Tensor [] []) r2.1 in
  do_classifier_free_guidance a = false /\
  guidance_embeddings (do_classifier_free_guidance a) c = Ok c /\
  exists z w3 evs,
    denoise test_pipe a 1 c x0 r2.2 = (Ok z, w3) /\
    unguided_trace test_pipe c
      (scaled_latents test_pipe
         (set_timesteps (scheduler test_pipe) (sched_state r2.2) (num_inference_steps a)) x0)
      evs z.
Proof.
  intros a r1 c r2 x0.
  destruct (@guidance_off_skips_unconditional_branch _ _ _ _ _ _ test_randn test_pipe a w0
              [squirrel] 1 c r1.2 x0 r2.2)
    as (_ & Hcfg & Hg & z & w3 & evs & Hden & _ & Htrace & _).
  - vm_compute. reflexivity.
  - vm_compute. reflexivity.
  - vm_compute. reflexivity.
  - vm_compute. reflexivity.
  - split; [exact Hcfg|]. split; [exact Hg|]. exists z, w3, evs. split; assumption.
Defined.

(** With guidance, on the small pipeline: two iterations, each with a
    scaled doubled batch, a denoiser call and a step on the combination
    of the two halves of the denoiser's output. *)
Lemma guidance_on_witness :
  let a := test_args in
  let r1 := encode_prompt test_pipe a [squirrel] w0 in
  let c := value (Tensor [] []) r1.1 in
  let c2 := value (Tensor [] []) (cat_dim0 (zeros_like c) c) in
  let r2 := prepare_latents test_randn test_pipe a 1 r1.2 in
  let x0 := value (Tensor [] []) r2.1 in
  let s := set_timesteps (scheduler test_pipe) (sched_state r2.2) (num_inference_steps a) in
  do_classifier_free_guidance a = true /\
  guidance_embeddings (do_classifier_free_guidance a) c = Ok c2 /\
  shape c = [1; 2; 2]%nat /\ shape c2 = [2; 2; 2]%nat /\
  exists z w3 evs,
    denoise test_pipe a 1 c2 x0 r2.2 = (Ok z, w3) /\
    trace w3 = trace r2.2 ++ EvSetTimesteps 2 :: evs /\
    length evs = 6%nat /\
    guided_trace test_pipe 6%float c2 (scaled_latents test_pipe s x0) evs z.
Proof.
  intros a r1 c c2 r2 x0 s.
  destruct (@guidance_on_combines_predictions _ _ _ _ _ _ test_randn test_pipe a)
    as (Hcfg & Hemb & _ & Hloop & _).
  - vm_compute. reflexivity.
  - split; [exact Hcfg|].
    split; [destruct (Hemb c) as [-> _]; vm_compute; reflexivity|].
    split; [vm_compute; reflexivity|]. split; [vm_compute; reflexivity|].
    assert (Hlen : length (trace (denoise test_pipe a 1 c2 x0 r2.2).2) = 12%nat)
      by (vm_compute; reflexivity).
    assert (Hpre : length (trace r2.2) = 5%nat) by (vm_compute; reflexivity).
    destruct (denoise test_pipe a 1 c2 x0 r2.2) as [[z|e] w3] eqn:Hden;
      [|vm_compute in Hden; discriminate].
    destruct (Hloop 1 c2 x0 r2.2 z w3 Hden) as (evs & Htr & Htrace).
    exists z, w3, evs. split; [reflexivity|]. split; [exact Htr|]. split; [|exact Htrace].
    cbn [snd] in Hlen. rewrite Htr, length_app, Hpre in Hlen. cbn [length] in Hlen. lia.
Defined.

(** Latents of the wrong shape, on the small pipeline. *)
Lemma latents_shape_mismatch_witness :
  exists e evs,
    call test_randn test_pipe bad_latents_args w0
      = (Err e, World (sched_state w0) (trace w0 ++ evs)) /\
    Forall (fun ev => stage_of ev = Embedding) evs.
Proof.
  destruct (@latents_shape_mismatch_raises _ _ _ _ _ _ test_randn test_pipe bad_latents_args w0
              (Tensor [1%nat; 4%nat; 1%nat; 1%nat] [1%Q; 1%Q; 1%Q; 1%Q]) [squirrel] 1)
    as (e & evs & Hcall & Hevs & _).
  - reflexivity.
  - vm_compute. reflexivity.
  - vm_compute. discriminate.
  - exists e, evs. split; assumption.
Defined.

(** C4, the claim as stated fails. The shape check comes after the
    embedding: when the [ValueError] is raised the tokenizer, the feature
    extractor and both branches of the embedding network have been
    called. *)
Lemma latents_check_comes_after_embedding :
  (call test_randn test_pipe bad_latents_args w0).1
    = Err (ValueError (UnexpectedLatentsShape [1; 4; 1; 1]%nat [1; 4; 4; 4])) /\
  exists ids imgs pixels,
    trace (call test_randn test_pipe bad_latents_args w0).2
      = [EvTokenizer [squirrel]; EvTextFeatures ids;
         EvFeatureExtractor imgs; EvImageFeatures pixels].
Proof.
  split; [vm_compute; reflexivity|].
  eexists _, _, _. vm_compute. reflexivity.
Qed.

(** The callback on the small pipeline: two timesteps, two calls. *)
Lemma callback_witness :
  exists evs,
    trace (call test_randn test_pipe unguided_args w0).2 = trace w0 ++ evs /\
    map call_index (callback_calls evs) = [0; 1]%nat /\
    Z.of_nat (length (callback_calls evs)) = ceil_div 2 1.
Proof.
  destruct (call test_randn test_pipe unguided_args w0) as [[out|e] w'] eqn:Hcall;
    [|vm_compute in Hcall; discriminate].
  destruct (@callback_fires_on_multiples_of_callback_steps _ _ _ _ _ _ test_randn test_pipe
              unguided_args w0 out w' 1 eq_refl eq_refl Hcall)
    as (evs & Htr & _ & _ & Hidx & _ & _ & _ & Hlen).
  exists evs. split; [exact Htr|]. split; [exact Hidx|]. apply Hlen. reflexivity.
Defined.

(** C5, the claim as stated fails. A scheduler that yields three
    timesteps for two inference steps, as [PNDMScheduler] with
    [skip_prk_steps] does, has the callback called three times with
    [callback_steps = 1], not [ceil(2 / 1) = 2] times. *)
Lemma callback_count_follows_timesteps :
  let r := call test_randn (pipe_with test_vae pndm_like) unguided_args w0 in
  is_ok r.1 = true /\
  num_inference_steps unguided_args = 2 /\
  callback_steps unguided_args = StepsInt 1 /\
  map call_index (callback_calls (trace r.2)) = [0; 1; 2]%nat /\
  ceil_div 2 1 = 2.
Proof. vm_compute. repeat split; reflexivity. Qed.

(** One retrieved image and two prompts on binary64 tensors: the text
    features (3, 4) and (4, 3) become (0.6, 0.8) and (0.8, 0.6), and both
    batch elements end with the image features (0, 2) become (0, 1). *)
Lemma retrieved_images_witness :
  exists c,
    (encode_prompt (float_pipe 3%float) float_two_prompt_args ["a cat"; "a dog"] float_w0).1
      = Ok c /\
    shape c = [2; 2; 2]%nat /\
    data c = [0x1.3333333333333p-1; 0x1.999999999999ap-1; 0; 1;
              0x1.999999999999ap-1; 0x1.3333333333333p-1; 0; 1]%float.
Proof.
  destruct (@retrieved_images_are_shared_across_batch _ _ _ _ _ _ (float_pipe 3%float)
              float_two_prompt_args ["a cat"; "a dog"] [float_image] float_w0
              4%nat 2%nat 1%nat [[3; 4]; [4; 3]]%float [[0; 2]]%float)
    as (c & Henc & Hshape & Hdata).
  - reflexivity.
  - reflexivity.
  - vm_compute. discriminate.
  - vm_compute. reflexivity.
  - reflexivity.
  - repeat constructor.
  - vm_compute. reflexivity.
  - reflexivity.
  - repeat constructor.
  - cbn. lia.
  - cbn. lia.
  - exists c. rewrite Henc. split; [reflexivity|]. split; [exact Hshape|].
    rewrite Hdata. vm_compute. reflexivity.
Defined.

Lemma test_tokenizer_honours_max_length : honours_max_length test_tokenizer.
Proof. intros prompts. exists 4%nat. split; [reflexivity|]. cbn. lia. Qed.

(** A prompt of 40 tokens, where the tokenizer keeps 4: no warning. *)
Lemma truncation_witness :
  Z.of_nat (length (encode squirrel)) = 40 /\
  model_max_length test_tokenizer = 4 /\
  behaves quiet (fun _ => True) (call test_randn test_pipe test_args) /\
  is_ok (call test_randn test_pipe test_args w0).1 = true.
Proof.
  destruct (@truncation_warning_never_logged _ _ _ _ _ _ test_randn test_pipe test_args
              test_tokenizer_honours_max_length) as [_ Hquiet].
  split; [vm_compute; reflexivity|]. split; [reflexivity|].
  split; [exact Hquiet|]. vm_compute. reflexivity.
Defined.

(** The decoded image on binary64 tensors, with a decoder that gives
    3.0 everywhere. *)
Lemma decoded_image_witness :
  exists img,
    (call float_randn (float_pipe 3%float) float_args float_w0).1
      = Ok (ImagePipelineOutput (NumpyImages img)) /\
    Forall (fun v => in_unit v \/ ordered v = false) (data img) /\
    in_unit (to_unit 3%float).
Proof.
  destruct (call float_randn (float_pipe 3%float) float_args float_w0)
    as [[out|e] w'] eqn:Hcall; [|vm_compute in Hcall; discriminate].
  destruct (@decoded_image_in_unit_range _ _ _ _ _ _ float_randn float_order
              (float_pipe 3%float) float_args float_w0 out w' Hcall)
    as (cs & c & x0 & w2 & z & w3 & img & evs & _ & _ & _ & _ & Hcases & Hnan & _ & Hout).
  exists img. split; [cbn [fst]; rewrite Hout; reflexivity|]. split; [exact Hnan|].
  apply Hcases. vm_compute. reflexivity.
Defined.

(** C9, the claim as stated fails. With a decoder that gives NaN, the
    call completes and every value of the returned array is NaN, which
    [clamp] lets through: none is in [[0, 1]]. *)
Lemma decoded_nan_is_returned :
  exists img,
    (call float_randn (float_pipe nan) float_args float_w0).1
      = Ok (ImagePipelineOutput (NumpyImages img)) /\
    length (data img) = 192%nat /\
    to_unit nan = nan /\
    Forall (fun v => v = nan /\ ~ in_unit v) (data img).
Proof.
  eexists. split; [vm_compute; reflexivity|]. split; [reflexivity|].
  split; [vm_compute; reflexivity|].
  apply Forall_forall. intros v Hv.
  assert (Hnan : v = nan).
  { repeat (apply elem_of_cons in Hv as [Hv|Hv]; [exact Hv|]). inversion Hv. }
  split; [exact Hnan|]. subst v. intros [Hin _]. vm_compute in Hin. discriminate.
Qed.

(** [output_type="np"] on the small pipeline. *)
Lemma output_type_witness :
  convert_output test_pipe unguided_args (Tensor [1; 1; 1; 3]%nat [0; 1; 0]%Q) w0
    = (Ok (ImagePipelineOutput (NumpyImages (Tensor [1; 1; 1; 3]%nat [0; 1; 0]%Q))), w0) /\
  (call test_randn test_pipe unguided_args w0).1
    = match (generate test_randn test_pipe unguided_args w0).1 with
      | Ok image => Ok (ImagePipelineOutput (NumpyImages image))
      | Err e => Err e
      end.
Proof.
  destruct (@output_type_only_compared_with_pil _ _ _ _ _ _ test_randn test_pipe
              unguided_args w0) as [Hnp _].
  destruct Hnp as [Hconv Hcall]; [discriminate|]. split; [apply Hconv|].
  rewrite Hcall. destruct (generate test_randn test_pipe unguided_args w0) as [[image|e] w'];
    reflexivity.
Defined.

(** ** The further properties on the small pipeline *)

(** The test autoencoder has two blocks: the factor is 2, and the
    height 136 of [test_rdm_ddim_factor_8] is a multiple of it. *)
Lemma latent_size_witness :
  vae_scale_factor test_pipe = 2 /\
  136 / vae_scale_factor test_pipe * vae_scale_factor test_pipe = 136.
Proof.
  destruct (@latent_size_is_exact _ _ _ _ _ test_vae test_clip test_tokenizer test_unet
              ddim_like test_feature_extractor test_numpy_to_pil 136 ltac:(cbn; lia))
    as (_ & Hf & Hexact).
  split; [exact Hf|]. apply Hexact; [cbn; lia|reflexivity].
Defined.

(** [eta] with a scheduler that has the parameters of [PNDMScheduler.step]. *)
Lemma eta_witness :
  call test_randn (pipe_with test_vae pndm_like) (set_eta 1%float test_args) w0
    = call test_randn (pipe_with test_vae pndm_like) test_args w0.
Proof.
  apply eta_is_ignored_by_other_schedulers.
  apply (bool_decide_eq_false_1 ("eta" ∈ step_parameters pndm_like)). vm_compute. reflexivity.
Defined.

(** Another generator with supplied latents and the same scheduler. *)
Lemma generator_witness :
  call test_randn (pipe_with test_vae pndm_like) (set_generator (Some 7) given_latents_args) w0
    = call test_randn (pipe_with test_vae pndm_like) given_latents_args w0.
Proof.
  eapply generator_is_unused_with_given_latents; [reflexivity|].
  apply (bool_decide_eq_false_1 ("generator" ∈ step_parameters pndm_like)).
  vm_compute. reflexivity.
Defined.

(** The dummy inputs have no callback. *)
Lemma absent_callback_witness :
  exists evs,
    trace (call test_randn test_pipe test_args w0).2 = trace w0 ++ evs /\
    callback_calls evs = [].
Proof.
  destruct (@absent_callback_is_never_called _ _ _ _ _ _ test_randn test_pipe test_args w0
              eq_refl) as (evs & Htr & _ & Hcb).
  exists evs. split; assumption.
Defined.

(** Two inference steps with guidance: two denoiser calls. *)
Lemma denoiser_calls_witness :
  exists evs,
    trace (call test_randn test_pipe test_args w0).2 = trace w0 ++ evs /\
    set_timesteps_calls evs = [2] /\
    unet_timesteps evs = [1; 0].
Proof.
  destruct (call test_randn test_pipe test_args w0) as [[out|e] w'] eqn:Hcall;
    [|vm_compute in Hcall; discriminate].
  destruct (@denoiser_is_called_once_per_timestep _ _ _ _ _ _ test_randn test_pipe test_args
              w0 out w' Hcall) as (evs & Htr & Hset & Hunet & _).
  exists evs. split; [exact Htr|]. split; [exact Hset|exact Hunet].
Defined.

(** Two prompts, no retrieved image, two images per prompt, on
    binary64 tensors: (3, 4) becomes (0.6, 0.8) twice, then (4, 3)
    becomes (0.8, 0.6) twice. *)
Lemma text_only_witness :
  exists c,
    (encode_prompt (float_pipe 3%float) float_text_only_args ["a cat"; "a dog"] float_w0).1
      = Ok c /\
    shape c = [4; 1; 2]%nat /\
    data c = [0x1.3333333333333p-1; 0x1.999999999999ap-1;
              0x1.3333333333333p-1; 0x1.999999999999ap-1;
              0x1.999999999999ap-1; 0x1.3333333333333p-1;
              0x1.999999999999ap-1; 0x1.3333333333333p-1]%float.
Proof.
  destruct (@text_only_conditioning _ _ _ _ _ _ (float_pipe 3%float) float_text_only_args
              ["a cat"; "a dog"] float_w0 4%nat 2%nat [[3; 4]; [4; 3]]%float)
    as (c & Henc & Hshape & Hdata).
  - reflexivity.
  - reflexivity.
  - vm_compute. discriminate.
  - vm_compute. reflexivity.
  - reflexivity.
  - repeat constructor.
  - cbn. lia.
  - cbn. lia.
  - exists c. rewrite Henc. split; [reflexivity|]. split; [exact Hshape|].
    rewrite Hdata. vm_compute. reflexivity.
Defined.

(** No image per prompt. *)
Lemma images_per_prompt_witness :
  exists e evs,
    call test_randn test_pipe zero_per_prompt_args w0
      = (Err e, World (sched_state w0) (trace w0 ++ evs)) /\
    Forall (fun ev => stage_of ev = Embedding) evs.
Proof.
  apply images_per_prompt_must_be_positive. cbn. lia.
Defined.

(** A height and width of -8. *)
Lemma negative_size_witness :
  check_inputs negative_size_args = Ok ([squirrel], 1) /\
  exists e evs,
    call test_randn test_pipe negative_size_args w0
      = (Err e, World (sched_state w0) (trace w0 ++ evs)) /\
    Forall (fun ev => stage_of ev = Embedding \/ stage_of ev = Sampling) evs.
Proof.
  split; [vm_compute; reflexivity|].
  apply (@negative_size_fails_at_the_latents _ _ _ _ _ _ test_randn test_pipe
           negative_size_args w0 [squirrel] 1).
  - vm_compute. reflexivity.
  - reflexivity.
  - vm_compute. reflexivity.
  - left. vm_compute. reflexivity.
Defined.

(** An autoencoder with [scaling_factor = 0.0]. *)
Lemma zero_scaling_factor_witness :
  is_ok (call test_randn (pipe_with zero_vae ddim_like) test_args w0).1 = false.
Proof.
  destruct (@zero_scaling_factor_never_decodes _ _ _ _ _ _ test_randn
              (pipe_with zero_vae ddim_like) test_args w0 eq_refl) as (_ & Hfail & _).
  exact Hfail.
Defined.

(** One latent of four channels: the decoder gives one 2 x 2 image of
    three channels. *)
Lemma channel_last_witness :
  exists img,
    (decode_latents test_pipe (Tensor [1; 4; 1; 1]%nat [1; 1; 1; 1]%Q) w0).1 = Ok img /\
    shape img = [1; 2; 2; 3]%nat.
Proof.
  destruct (decode_latents test_pipe (Tensor [1; 4; 1; 1]%nat [1; 1; 1; 1]%Q) w0)
    as [[img|e] w'] eqn:Hdec; [|vm_compute in Hdec; discriminate].
  destruct (@returned_array_is_channel_last _ _ _ _ _ _ test_pipe
              (Tensor [1; 4; 1; 1]%nat [1; 1; 1; 1]%Q) img w0 w' 1 3 2 2 Hdec)
    as (Hshape & _).
  - vm_compute. reflexivity.
  - vm_compute. reflexivity.
  - exists img. split; [reflexivity|exact Hshape].
Defined.

(** A tokenizer that returns 6 token ids where 4 are allowed: the last
    two are reported. *)
Lemma untruncated_ids_witness :
  warnings (trace (encode_text loose_pipe [squirrel] w0).2) = [(4, ["in"])] /\
  map (@shape Z) (text_feature_calls (trace (encode_text loose_pipe [squirrel] w0).2))
    = [[1; 4]%nat].
Proof.
  rewrite (@untruncated_ids_are_cut_with_a_warning _ _ _ _ _ _ loose_pipe [squirrel] w0
             1 6 (data (tokenize loose_tokenizer [squirrel]))).
  - split; vm_compute; reflexivity.
  - reflexivity.
  - cbn. lia.
Defined.
